(** * vscode-clangd (multi-root fork): root reconciliation, restart
    coordination and per-folder client lifecycle.

    The development embeds two source files:
    - [src/root-management.ts]: the [clangd.setRoots] command, the glob
      reconciliation against the live document selector and the
      generation-token restart;
    - [src/extension.ts] (multi-root variant): the workspace-folder
      resolver, the [ClangdLanguageClient] class and the event handlers
      maintaining the folder-to-client registry. *)

From Stdlib Require Import List String Ascii Bool Arith Lia.
From Stdlib Require Import Sorting.Sorted Sorting.Permutation.
From Equations.Prop Require Import Equations Logic.
Import ListNotations.
Open Scope string_scope.
Open Scope list_scope.
Set Warnings "-register-all".

(** ** JavaScript strings

    Strings are sequences of code units.  Every literal the code compares
    against is ASCII, and the tests the code performs ([endsWith('/')],
    [charAt(length - 1)], [startsWith], [length], [===]) are code-unit
    tests, so [string] is the carrier. *)
Module Js.

(** [s.charAt(i)]: the one-unit string at [i], the empty string when out
    of range. *)
Definition charAt (s : string) (i : nat) : string :=
  match String.get i s with
  | Some c => String c EmptyString
  | None => EmptyString
  end.

(** [s.charAt(s.length - 1)]; for the empty string the index is [-1],
    which is out of range. *)
Definition lastCharAt (s : string) : string :=
  match String.length s with
  | O => EmptyString
  | S n => charAt s n
  end.

(** [s.startsWith(p)]. *)
Definition startsWith (s p : string) : bool := String.prefix p s.

(** [s.endsWith(p)]: some tail of [s] is [p]. *)
Fixpoint endsWith (s p : string) : bool :=
  if String.eqb s p then true
  else match s with
       | EmptyString => false
       | String _ rest => endsWith rest p
       end.

(** Values a command handler can receive from the host.  The code only
    asks whether a value is an array and whether an element is a string,
    so the payload of a number is irrelevant and kept as a [nat].
    [VArray] is an array every index of which holds an element;
    [VSparseArray] is an array given slot by slot, [None] being an index
    that holds nothing (a hole, as in [[ , '/a']]). *)
Inductive value : Type :=
| VUndefined
| VNull
| VBool (b : bool)
| VNumber (n : nat)
| VString (s : string)
| VArray (items : list value)
| VSparseArray (entries : list (option value))
| VObject (fields : list (string * value)).

(** The slots of an array, in index order; [None] for what
    [Array.isArray] rejects. *)
Definition slots (v : value) : option (list (option value)) :=
  match v with
  | VArray items => Some (map Some items)
  | VSparseArray entries => Some entries
  | _ => None
  end.

(** [typeof v === 'string'] *)
Definition isString (v : value) : bool :=
  match v with VString _ => true | _ => false end.

(** [v === s] for a string literal [s] (strict equality: no coercion). *)
Definition strictEqString (v : value) (s : string) : bool :=
  match v with VString t => String.eqb t s | _ => false end.

(** ** Insertion-ordered [Set<string>]

    A JavaScript [Set] iterates in insertion order and holds each
    element once. *)
Definition set := list string.

Definition has (s : set) (x : string) : bool :=
  existsb (String.eqb x) s.

Definition add (s : set) (x : string) : set :=
  if has s x then s else s ++ [x].

Definition delete (s : set) (x : string) : set :=
  filter (fun y => negb (String.eqb x y)) s.

(** [new Set(xs)]. *)
Definition newSet (xs : list string) : set := fold_left add xs [].

Definition size (s : set) : nat := List.length s.

End Js.

(** ** Document selector (vscode.DocumentFilter) *)

(** A filter's [pattern] is a glob string or a [RelativePattern] object. *)
Inductive GlobPattern : Type :=
| GlobString (glob : string)
| RelativePattern (base pattern : string).

Record DocumentFilter : Type := mkFilter {
  scheme : option string;
  language : option string;
  pattern : option GlobPattern
}.

(** [item.pattern === s] for a string [s]. *)
Definition patternIs (s : string) (item : DocumentFilter) : bool :=
  match pattern item with
  | Some (GlobString g) => String.eqb g s
  | _ => false
  end.

(** [item.language === s]. *)
Definition languageIs (s : string) (item : DocumentFilter) : bool :=
  match language item with
  | Some l => String.eqb l s
  | None => false
  end.

Module RootManagement.

(** [`${root.endsWith('/') ? root : root + '/'}**/*`] *)
Definition rootGlob (root : string) : string :=
  ((if Js.endsWith root "/" then root else root ++ "/") ++ "**/*")%string.

(** [getCurrentRoots]: the glob strings of the rules tagged ['c'] or
    ['cpp'] in the live selector, in selector order. *)
Definition managed (item : DocumentFilter) : bool :=
  (languageIs "c" item || languageIs "cpp" item) &&
  match pattern item with Some (GlobString _) => true | _ => false end.

Definition patternString (item : DocumentFilter) : string :=
  match pattern item with Some (GlobString g) => g | _ => EmptyString end.

Definition getCurrentRoots (selectors : list DocumentFilter) : list string :=
  map patternString (filter managed selectors).

Record Delta : Type := mkDelta {
  toAdds : list string;
  toDeletes : Js.set
}.

(** The loop of [compareCurrentAndDesiredRoots] at the parameter's
    declared type [string[]], an array without holes: one iteration per
    glob, threading [toAdds] and the shrinking [current] set.  The form
    the command handler can reach with a sparse array is
    [compareSlotLoop] below. *)
Fixpoint compareLoop (withGlobs : list string) (adds : list string)
         (current : Js.set) : Delta :=
  match withGlobs with
  | [] => mkDelta adds current
  | glob :: rest =>
      let adds' := if Js.has current glob then adds else adds ++ [glob] in
      compareLoop rest adds' (Js.delete current glob)
  end.

Definition compareCurrentAndDesiredRoots (selectors : list DocumentFilter)
           (newRoots : list string) : Delta :=
  let withGlobs := map rootGlob newRoots in
  let current := Js.newSet (getCurrentRoots selectors) in
  compareLoop withGlobs [] current.

(** [selectors.findIndex(pred)], [None] standing for [-1]. *)
Fixpoint findIndex {A} (pred : A -> bool) (l : list A) : option nat :=
  match l with
  | [] => None
  | x :: rest =>
      if pred x then Some 0
      else option_map S (findIndex pred rest)
  end.

(** [selectors.splice(index, 1)]. *)
Fixpoint splice1 {A} (index : nat) (l : list A) : list A :=
  match l, index with
  | [], _ => []
  | _ :: rest, 0 => rest
  | x :: rest, S i => x :: splice1 i rest
  end.

(** The inner [while] loop: splice out the first match until
    [findIndex] answers [-1]. *)
Equations? removeAllMatching (toDelete : string)
           (selectors : list DocumentFilter) : list DocumentFilter
  by wf (List.length selectors) lt :=
  removeAllMatching toDelete selectors
    with inspect (findIndex (patternIs toDelete) selectors) := {
    | exist _ (Some index) Hfind =>
        removeAllMatching toDelete (splice1 index selectors)
    | exist _ None _ => selectors }.
Proof.
  clear removeAllMatching.
  revert index Hfind.
  induction selectors as [|x l IH]; intros i; simpl; [discriminate|].
  destruct (patternIs toDelete x).
  - intros [= <-]. simpl. lia.
  - destruct (findIndex (patternIs toDelete) l) as [j|]; simpl; [|discriminate].
    intros [= <-]. specialize (IH j eq_refl). simpl. lia.
Qed.

Definition ruleFor (lang glob : string) : DocumentFilter :=
  mkFilter (Some "file") (Some lang) (Some (GlobString glob)).

(** [reconcileSelectorsAndTargets]: mutates the live selector; the
    result is the selector after the call. *)
Definition reconcileSelectorsAndTargets (selectors : list DocumentFilter)
           (adds : list string) (deletes : Js.set) : list DocumentFilter :=
  let afterDeletes :=
    fold_left (fun sel toDelete => removeAllMatching toDelete sel)
              deletes selectors in
  fold_left (fun sel toAdd => sel ++ [ruleFor "c" toAdd; ruleFor "cpp" toAdd])
            adds afterDeletes.

(** *** Module state and observable effects

    [clangdDocumentSelector] is the array imported from
    [./clangd-context], shared with the language client and mutated in
    place; its initial contents are not fixed here.  The cancelation
    objects live in a store addressed by allocation order, so that the
    module variable [simpleCancelation] and each call's
    [localCancelation] can alias the same object. *)

Inductive Effect : Type :=
| ConsoleLog (message : string)
| ConsoleLogSelector (message : string) (selectors : list DocumentFilter)
| ExecuteCommand (command : string).

Record CancelationObject : Type := mkCancelation { canceled : bool }.

Record State : Type := mkState {
  clangdDocumentSelector : list DocumentFilter;
  store : list CancelationObject;
  simpleCancelation : nat;
  effects : list Effect
}.

(** State at module load: [let simpleCancelation = {canceled: false}]. *)
Definition initialState (selectors : list DocumentFilter) : State :=
  mkState selectors [mkCancelation false] 0 [].

(** [obj.canceled = b] for the object at [address]. *)
Fixpoint writeCanceled (address : nat) (b : bool)
         (objects : list CancelationObject) : list CancelationObject :=
  match objects, address with
  | [], _ => []
  | _ :: rest, 0 => mkCancelation b :: rest
  | o :: rest, S a => o :: writeCanceled a b rest
  end.

(** [obj.canceled] for the object at [address]. *)
Definition readCanceled (address : nat) (objects : list CancelationObject)
  : bool :=
  match nth_error objects address with
  | Some o => canceled o
  | None => false
  end.

Definition emit (es : list Effect) (st : State) : State :=
  mkState (clangdDocumentSelector st) (store st) (simpleCancelation st)
          (effects st ++ es).

(** How [await waitForClientReady(clangdContext)] ends when it ends: the
    polling loop saw a client and its [onReady()] resolved, or the
    awaited promise rejected.  A wait that never ends is a request that
    is never resumed. *)
Inductive WaitOutcome : Type := Ready | Rejected.

(** [restartCLangDSafely], up to its [await]: cancel the object the
    module variable points to, allocate a fresh one, point both the
    module variable and [localCancelation] at it.  The address of
    [localCancelation] is what the suspended call keeps. *)
Definition restartBegin (st : State) : State * nat :=
  let store1 := writeCanceled (simpleCancelation st) true (store st) in
  let localCancelation := List.length store1 in
  (mkState (clangdDocumentSelector st)
           (store1 ++ [mkCancelation false])
           localCancelation
           (effects st),
   localCancelation).

Definition restartingMessage : string :=
  "CLangD has detected a change in its roots and is restarting.".
Definition selectorMessage : string :=
  "CLangD is now using this selector to determine what to look at".

(** [restartCLangDSafely], from its [await] on. *)
Definition restartResume (st : State) (localCancelation : nat)
           (outcome : WaitOutcome) : State :=
  match outcome with
  | Rejected => st
  | Ready =>
      if readCanceled localCancelation (store st) then st
      else emit [ConsoleLog restartingMessage;
                 ExecuteCommand "clangd.restart";
                 ConsoleLogSelector selectorMessage
                                    (clangdDocumentSelector st)] st
  end.

(** *** The [clangd.setRoots] command *)

(** [!Array.isArray(newRoots) || !newRoots.every(item => typeof item === 'string')].
    [every] calls its callback on the indices that hold an element and
    skips the holes. *)
Definition incorrectArguments (newRoots : Js.value) : bool :=
  match Js.slots newRoots with
  | Some entries =>
      negb (forallb (fun slot => match slot with
                                 | Some item => Js.isString item
                                 | None => true
                                 end) entries)
  | None => true
  end.

(** [newRoots.map(root => ...)] for an argument that passed the check:
    [map] keeps the holes, so the result has one slot per index, the
    glob of the string there or a hole. *)
Definition globSlot (slot : option Js.value) : option string :=
  match slot with
  | Some (Js.VString root) => Some (rootGlob root)
  | _ => None
  end.

Definition withGlobs (newRoots : Js.value) : list (option string) :=
  match Js.slots newRoots with
  | Some entries => map globSlot entries
  | None => []
  end.

(** The loop of [compareCurrentAndDesiredRoots] over an array that may
    have holes: [for (const glob of withGlobs)] reads a hole as
    [undefined], which the set of strings never has, so [undefined] is
    pushed onto [toAdds] and the [delete] removes nothing.  An entry of
    [toAdds] is a glob or [None] for [undefined]. *)
Record SlotDelta : Type := mkSlotDelta {
  slotAdds : list (option string);
  slotDeletes : Js.set
}.

Fixpoint compareSlotLoop (globs : list (option string))
         (adds : list (option string)) (current : Js.set) : SlotDelta :=
  match globs with
  | [] => mkSlotDelta adds current
  | Some glob :: rest =>
      let adds' :=
        if Js.has current glob then adds else adds ++ [Some glob] in
      compareSlotLoop rest adds' (Js.delete current glob)
  | None :: rest => compareSlotLoop rest (adds ++ [None]) current
  end.

Definition compareCurrentAndDesiredSlots (selectors : list DocumentFilter)
           (globs : list (option string)) : SlotDelta :=
  compareSlotLoop globs [] (Js.newSet (getCurrentRoots selectors)).

(** [{scheme: 'file', language: lang, pattern: toAdd}], the pattern
    being [undefined] when [toAdd] is. *)
Definition slotRule (lang : string) (toAdd : option string) : DocumentFilter :=
  mkFilter (Some "file") (Some lang) (option_map GlobString toAdd).

(** [reconcileSelectorsAndTargets] for such a [toAdds]. *)
Definition reconcileSelectorsAndSlots (selectors : list DocumentFilter)
           (adds : list (option string)) (deletes : Js.set)
  : list DocumentFilter :=
  let afterDeletes :=
    fold_left (fun sel toDelete => removeAllMatching toDelete sel)
              deletes selectors in
  fold_left (fun sel toAdd => sel ++ [slotRule "c" toAdd; slotRule "cpp" toAdd])
            adds afterDeletes.

Definition doubleQuote : string := String (ascii_of_nat 34) EmptyString.
Definition incorrectArgumentsMessage : string :=
  ("Received incorrect arguments for " ++ doubleQuote ++ "clangd.setRoots"
     ++ doubleQuote)%string.
Definition noChangeMessage : string :=
  "CLangD found that the requested operation produced no change in its parameters.".

(** The command handler, run until it returns or suspends.  The second
    component is the pending restart, if the handler suspended in
    [restartCLangDSafely]. *)
Definition setRoots (st : State) (newRoots : Js.value)
  : State * option nat :=
  if incorrectArguments newRoots then
    (emit [ConsoleLog incorrectArgumentsMessage] st, None)
  else
    let delta :=
      compareCurrentAndDesiredSlots (clangdDocumentSelector st)
                                    (withGlobs newRoots) in
    let st1 :=
      mkState (reconcileSelectorsAndSlots (clangdDocumentSelector st)
                                          (slotAdds delta) (slotDeletes delta))
              (store st) (simpleCancelation st) (effects st) in
    if negb (Nat.eqb (Js.size (slotDeletes delta)) 0)
       || negb (Nat.eqb (List.length (slotAdds delta)) 0)
    then let (st2, pending) := restartBegin st1 in (st2, Some pending)
    else (emit [ConsoleLog noChangeMessage] st1, None).

(** Number of [clangd.restart] commands issued so far. *)
Definition restartCount (st : State) : nat :=
  List.length
    (filter (fun e => match e with
                      | ExecuteCommand c => String.eqb c "clangd.restart"
                      | _ => false
                      end) (effects st)).

End RootManagement.

(** ** [extension.ts]: workspace folders, clients and event handlers *)
Module Extension.

(** [vscode.Uri]: the scheme and the text [toString()] yields. *)
Record Uri : Type := mkUri {
  uriScheme : string;
  uriText : string
}.

(** [vscode.WorkspaceFolder].  [folderRef] is the identity of the
    object: the [clients] map is keyed by object identity, not by
    contents. *)
Record WorkspaceFolder : Type := mkFolder {
  folderRef : nat;
  folderUri : Uri;
  folderName : string;
  folderIndex : nat
}.

Record TextDocument : Type := mkDocument {
  documentUri : Uri;
  languageId : string;
  fileName : string
}.

(** What the handlers read from the editor: the workspace, the parsed
    form of a URI text, the per-folder setting
    [getConfiguration('cpp', uri).get('cppLanguageClient')] and the open
    documents. *)
Record Host : Type := mkHost {
  workspaceFolders : option (list WorkspaceFolder);
  getWorkspaceFolder : Uri -> option WorkspaceFolder;
  parseUri : string -> Uri;
  cppLanguageClient : Uri -> Js.value;
  textDocuments : list TextDocument
}.

(** A [ClangdLanguageClient] object: the root it was created for, the
    [startDisposable] field, and the base class's view of whether the
    server was started and not stopped since. *)
Record ClangdLanguageClient : Type := mkClient {
  clientRoot : Uri;
  startDisposable : option nat;
  running : bool
}.

(** Calls into the base class and the console, in program order. *)
Inductive Call : Type :=
| Start (client : nat)
| Stop (client : nat)
| DisposeHandle (client handle : nat)
| LogPreparing (root : Uri)
| LogDidOpen (file : string) (folder : Uri) (configuration : Js.value)
| LogStarting (folder : Uri).

(** Module state: the [clients] map (insertion-ordered, keyed by folder
    object), the client objects by address, the number of handles
    [start()] has returned, the [_sortedWorkspaceFolders] cache, and the
    calls made so far. *)
Record World : Type := mkWorld {
  clients : list (WorkspaceFolder * nat);
  heap : list ClangdLanguageClient;
  handles : nat;
  sortedCache : option (list string);
  calls : list Call
}.

Definition initialWorld : World := mkWorld [] [] 0 None [].

(** *** [Map<WorkspaceFolder, ClangdLanguageClient>] *)

Definition sameFolder (a b : WorkspaceFolder) : bool :=
  Nat.eqb (folderRef a) (folderRef b).

Fixpoint mapGet (m : list (WorkspaceFolder * nat)) (k : WorkspaceFolder)
  : option nat :=
  match m with
  | [] => None
  | (k', v) :: rest => if sameFolder k k' then Some v else mapGet rest k
  end.

Definition mapHas (m : list (WorkspaceFolder * nat)) (k : WorkspaceFolder)
  : bool :=
  match mapGet m k with Some _ => true | None => false end.

Fixpoint mapSet (m : list (WorkspaceFolder * nat)) (k : WorkspaceFolder)
         (v : nat) : list (WorkspaceFolder * nat) :=
  match m with
  | [] => [(k, v)]
  | (k', v') :: rest =>
      if sameFolder k k' then (k', v) :: rest
      else (k', v') :: mapSet rest k v
  end.

Definition mapDelete (m : list (WorkspaceFolder * nat))
           (k : WorkspaceFolder) : list (WorkspaceFolder * nat) :=
  filter (fun kv => negb (sameFolder k (fst kv))) m.

Definition mapValues (m : list (WorkspaceFolder * nat)) : list nat :=
  map snd m.

(** *** State and exceptions *)

Inductive Completion (A : Type) : Type :=
| Normal (a : A)
| Throw.
Arguments Normal {A} a.
Arguments Throw {A}.

Definition M (A : Type) : Type := World -> World * Completion A.

Definition ret {A} (a : A) : M A := fun w => (w, Normal a).

Definition bind {A B} (m : M A) (k : A -> M B) : M B :=
  fun w => match m w with
           | (w', Normal a) => k a w'
           | (w', Throw) => (w', Throw)
           end.

Definition throw {A} : M A := fun w => (w, Throw).

Definition get : M World := fun w => (w, Normal w).

Definition modify (f : World -> World) : M unit :=
  fun w => (f w, Normal tt).

Notation "x <- m ;; k" := (bind m (fun x => k))
  (at level 61, m at next level, right associativity).
Notation "m ;; k" := (bind m (fun _ => k))
  (at level 61, right associativity).

(** [for (const x of xs) body(x)] and [xs.forEach(body)]. *)
Fixpoint forEach {A} (body : A -> M unit) (xs : list A) : M unit :=
  match xs with
  | [] => ret tt
  | x :: rest => body x ;; forEach body rest
  end.

Definition call (c : Call) : M unit :=
  modify (fun w => mkWorld (clients w) (heap w) (handles w)
                           (sortedCache w) (calls w ++ [c])).

Definition setClients (f : list (WorkspaceFolder * nat) ->
                           list (WorkspaceFolder * nat)) : M unit :=
  modify (fun w => mkWorld (f (clients w)) (heap w) (handles w)
                           (sortedCache w) (calls w)).

(** Field update on the object at [address]; other addresses, and an
    address nothing was allocated at, are left alone. *)
Fixpoint updateAt (address : nat)
         (f : ClangdLanguageClient -> ClangdLanguageClient)
         (objects : list ClangdLanguageClient) : list ClangdLanguageClient :=
  match objects, address with
  | [], _ => []
  | o :: rest, 0 => f o :: rest
  | o :: rest, S a => o :: updateAt a f rest
  end.

Definition setRunning (client : nat) (b : bool) : M unit :=
  modify (fun w =>
    mkWorld (clients w)
            (updateAt client
               (fun o => mkClient (clientRoot o) (startDisposable o) b)
               (heap w))
            (handles w) (sortedCache w) (calls w)).

Definition setStartDisposable (client : nat) (h : option nat) : M unit :=
  modify (fun w =>
    mkWorld (clients w)
            (updateAt client
               (fun o => mkClient (clientRoot o) h (running o))
               (heap w))
            (handles w) (sortedCache w) (calls w)).

Definition isRunning (w : World) (client : nat) : bool :=
  match nth_error (heap w) client with
  | Some o => running o
  | None => false
  end.

(** *** Workspace-folder resolver *)

(** [if (s.charAt(s.length - 1) !== '/') s = s + '/'] *)
Definition withTrailingSlash (s : string) : string :=
  if String.eqb (Js.lastCharAt s) "/" then s else (s ++ "/")%string.

(** [Array.prototype.sort((a, b) => a.length - b.length)]: a stable
    sort, ascending by length. *)
Fixpoint insertByLength (x : string) (sorted : list string) : list string :=
  match sorted with
  | [] => [x]
  | y :: rest =>
      if Nat.leb (String.length x) (String.length y) then x :: sorted
      else y :: insertByLength x rest
  end.

Definition sortByLength (l : list string) : list string :=
  fold_right insertByLength [] l.

(** The list the cache is filled with. *)
Definition computeSorted (host : Host) : list string :=
  match workspaceFolders host with
  | Some folders =>
      sortByLength
        (map (fun folder => withTrailingSlash (uriText (folderUri folder)))
             folders)
  | None => []
  end.

Definition sortedWorkspaceFolders (host : Host) : M (list string) :=
  w <- get ;;
  match sortedCache w with
  | Some sorted => ret sorted
  | None =>
      let sorted := computeSorted host in
      modify (fun w => mkWorld (clients w) (heap w) (handles w)
                               (Some sorted) (calls w)) ;;
      ret sorted
  end.

(** Line 144: [onDidChangeWorkspaceFolders(() => _sortedWorkspaceFolders = undefined)]. *)
Definition invalidateSorted : M unit :=
  modify (fun w => mkWorld (clients w) (heap w) (handles w) None (calls w)).

(** The [for] loop of [getOuterMostWorkspaceFolder]: the first element
    the URI starts with. *)
Fixpoint firstPrefix (uri : string) (sorted : list string) : option string :=
  match sorted with
  | [] => None
  | element :: rest =>
      if Js.startsWith uri element then Some element
      else firstPrefix uri rest
  end.

(** The result is [None] when [getWorkspaceFolder] answers [undefined]
    (the [!] of the source is erased at run time). *)
Definition getOuterMostWorkspaceFolder (host : Host)
           (folder : WorkspaceFolder) : M (option WorkspaceFolder) :=
  sorted <- sortedWorkspaceFolders host ;;
  match firstPrefix (withTrailingSlash (uriText (folderUri folder))) sorted with
  | Some element => ret (getWorkspaceFolder host (parseUri host element))
  | None => ret (Some folder)
  end.

(** *** [ClangdLanguageClient] *)

(** Base class [start()]: the server is started and a fresh handle is
    returned. *)
Definition start (client : nat) : M nat :=
  w <- get ;;
  call (Start client) ;;
  setRunning client true ;;
  modify (fun w => mkWorld (clients w) (heap w) (S (handles w))
                           (sortedCache w) (calls w)) ;;
  ret (handles w).

(** Base class [stop()]. *)
Definition stop (client : nat) : M unit :=
  call (Stop client) ;;
  setRunning client false.

(** [handle.dispose()] on a handle [start()] returned: the call reaches
    the base class, which leaves the server stopped. *)
Definition disposeHandle (client handle : nat) : M unit :=
  call (DisposeHandle client handle) ;;
  setRunning client false.

(** [dispose() { if (this.startDisposable) this.startDisposable.dispose(); }] *)
Definition dispose (client : nat) : M unit :=
  w <- get ;;
  match nth_error (heap w) client with
  | Some o =>
      match startDisposable o with
      | Some handle => disposeHandle client handle
      | None => ret tt
      end
  | None => ret tt
  end.

(** [activate() { this.dispose(); this.startDisposable = this.start(); }] *)
Definition activate (client : nat) : M unit :=
  dispose client ;;
  handle <- start client ;;
  setStartDisposable client (Some handle).

(** [createClient(context, path)]: a new client object scoped to
    [path]; launch options, middleware and feature registration stay
    inside the object. *)
Definition createClient (path : Uri) : M nat :=
  w <- get ;;
  call (LogPreparing path) ;;
  modify (fun w => mkWorld (clients w)
                           (heap w ++ [mkClient path None false])
                           (handles w) (sortedCache w) (calls w)) ;;
  ret (List.length (heap w)).

(** *** Handlers *)

(** [clientRequest !== 'any' && clientRequest !== 'compile'] *)
Definition notOwned (clientRequest : Js.value) : bool :=
  negb (Js.strictEqString clientRequest "any") &&
  negb (Js.strictEqString clientRequest "compile").

Definition supportedLanguages : list string :=
  ["cpp"; "c"; "cuda"; "objective-c"; "objective-cpp"].

Definition didOpenTextDocument (host : Host) (document : TextDocument)
  : M unit :=
  if negb (String.eqb (uriScheme (documentUri document)) "file") &&
     negb (String.eqb (uriScheme (documentUri document)) "untitled")
  then ret tt
  else if negb (existsb (String.eqb (languageId document)) supportedLanguages)
  then ret tt
  else
    match getWorkspaceFolder host (documentUri document) with
    | None => ret tt
    | Some folder =>
        outer <- getOuterMostWorkspaceFolder host folder ;;
        match outer with
        | None => throw
        | Some folder =>
            let clientRequest := cppLanguageClient host (folderUri folder) in
            call (LogDidOpen (fileName document) (folderUri folder)
                             clientRequest) ;;
            if notOwned clientRequest then ret tt
            else
              w <- get ;;
              if negb (mapHas (clients w) folder) then
                client <- createClient (folderUri folder) ;;
                setClients (fun m => mapSet m folder client) ;;
                call (LogStarting (folderUri folder)) ;;
                _ <- start client ;;
                ret tt
              else ret tt
        end
    end.

(** Lines 323-329: the loop over [event.removed]. *)
Definition removedFolder (folder : WorkspaceFolder) : M unit :=
  w <- get ;;
  match mapGet (clients w) folder with
  | Some client =>
      setClients (fun m => mapDelete m folder) ;;
      stop client
  | None => ret tt
  end.

(** Lines 331-340: the loop over [event.added]. *)
Definition addedFolder (host : Host) (folder : WorkspaceFolder) : M unit :=
  let clientRequest := cppLanguageClient host (folderUri folder) in
  if notOwned clientRequest then
    w <- get ;;
    match mapGet (clients w) folder with
    | None =>
        client <- createClient (folderUri folder) ;;
        setClients (fun m => mapSet m folder client) ;;
        _ <- start client ;;
        ret tt
    | Some _ => ret tt
    end
  else ret tt.

(** Both listeners of [onDidChangeWorkspaceFolders], in registration
    order: the cache reset of line 144, then the handler of line 322. *)
Definition onDidChangeWorkspaceFolders (host : Host)
           (added removed : list WorkspaceFolder) : M unit :=
  invalidateSorted ;;
  forEach removedFolder removed ;;
  forEach (addedFolder host) added.

(** [deactivate]: stop every registered client, clear the map. *)
Definition deactivate : M unit :=
  w <- get ;;
  forEach stop (mapValues (clients w)) ;;
  setClients (fun _ => []).

(** Lines 346-351: the loop body over the workspace folders, up to its
    [await].  [client.stop()] has been called; the handler is suspended
    until the promise settles, and other handlers may run meanwhile.
    The result tells whether the body reached the [await]. *)
Definition configuredFolderStop (host : Host) (folder : WorkspaceFolder)
  : M bool :=
  let clientRequest := cppLanguageClient host (folderUri folder) in
  w <- get ;;
  if notOwned clientRequest && mapHas (clients w) folder then
    match mapGet (clients w) folder with
    | Some client => stop client ;; ret true
    | None => ret false
    end
  else ret false.

(** Line 352, where the loop body resumes: [clients.delete(folder)], on
    the registry as it is by then. *)
Definition configuredFolderResume (folder : WorkspaceFolder) : M unit :=
  setClients (fun m => mapDelete m folder).

(** The loop body when it is resumed before anything else runs. *)
Definition configuredFolder (host : Host) (folder : WorkspaceFolder)
  : M unit :=
  suspended <- configuredFolderStop host folder ;;
  if suspended then configuredFolderResume folder else ret tt.

(** [onDidChangeConfiguration] when each [await] is resumed before
    anything else runs; iterating [workspaceFolders] when no workspace
    is open throws.  [onDidChangeWorkspaceFolders] above is the
    folder-change handler under the same condition. *)
Definition onDidChangeConfiguration (host : Host)
           (affectsCpp affectsClangd : bool) : M unit :=
  if affectsCpp then
    match workspaceFolders host with
    | Some folders =>
        forEach (configuredFolder host) folders ;;
        forEach (didOpenTextDocument host) (textDocuments host)
    | None => throw
    end
  else if affectsClangd then
    deactivate ;;
    forEach (didOpenTextDocument host) (textDocuments host)
  else ret tt.

(** *** The handlers, one [await] at a time *)

(** Both handlers are [async] functions.  Each [await] hands control
    back to the host, which may deliver other events, with other
    settings in force, before the handler goes on.  A suspended handler
    is what it still has to do. *)
Inductive Suspended : Type :=
| AfterConfiguredStop (folder : WorkspaceFolder) (rest : list WorkspaceFolder)
| AfterDeactivate
| AfterRemovedStop (rest added : list WorkspaceFolder).

(** Lines 346-356 from a given folder on, up to the next [await] or to
    the end of the handler; [None] when the handler is done. *)
Fixpoint configurationLoop (host : Host) (folders : list WorkspaceFolder)
  : M (option Suspended) :=
  match folders with
  | [] =>
      forEach (didOpenTextDocument host) (textDocuments host) ;;
      ret None
  | folder :: rest =>
      suspended <- configuredFolderStop host folder ;;
      if suspended then ret (Some (AfterConfiguredStop folder rest))
      else configurationLoop host rest
  end.

(** Lines 323-340 from a given removed folder on; here the registry
    entry is deleted before [client.stop()] is awaited. *)
Fixpoint removalLoop (host : Host) (removed added : list WorkspaceFolder)
  : M (option Suspended) :=
  match removed with
  | [] =>
      forEach (addedFolder host) added ;;
      ret None
  | folder :: rest =>
      w <- get ;;
      match mapGet (clients w) folder with
      | Some client =>
          setClients (fun m => mapDelete m folder) ;;
          stop client ;;
          ret (Some (AfterRemovedStop rest added))
      | None => removalLoop host rest added
      end
  end.

Definition changeWorkspaceFoldersBegin (host : Host)
           (added removed : list WorkspaceFolder) : M (option Suspended) :=
  invalidateSorted ;;
  removalLoop host removed added.

Definition changeConfigurationBegin (host : Host)
           (affectsCpp affectsClangd : bool) : M (option Suspended) :=
  if affectsCpp then
    match workspaceFolders host with
    | Some folders => configurationLoop host folders
    | None => throw
    end
  else if affectsClangd then
    deactivate ;;
    ret (Some AfterDeactivate)
  else ret None.

(** A suspended handler goes on, with the settings and documents the
    host has by then. *)
Definition resume (host : Host) (suspended : Suspended)
  : M (option Suspended) :=
  match suspended with
  | AfterConfiguredStop folder rest =>
      configuredFolderResume folder ;;
      configurationLoop host rest
  | AfterDeactivate =>
      forEach (didOpenTextDocument host) (textDocuments host) ;;
      ret None
  | AfterRemovedStop rest added => removalLoop host rest added
  end.

(** What the host delivers: an event, or the settling of the promise
    the [index]-th suspended handler awaits. *)
Inductive Occurrence : Type :=
| DocumentOpened (document : TextDocument)
| WorkspaceFoldersChanged (added removed : list WorkspaceFolder)
| ConfigurationChanged (affectsCpp affectsClangd : bool)
| Settled (index : nat).

(** The extension between two occurrences: its state and the handlers
    suspended at an [await], oldest first. *)
Record Session : Type := mkSession {
  world : World;
  waiting : list Suspended
}.

Definition suspend (waiting : list Suspended)
           (r : World * Completion (option Suspended)) : Session :=
  match r with
  | (w, Normal (Some suspended)) => mkSession w (waiting ++ [suspended])
  | (w, _) => mkSession w waiting
  end.

Fixpoint removeAt {A} (index : nat) (l : list A) : list A :=
  match l, index with
  | [], _ => []
  | _ :: rest, 0 => rest
  | x :: rest, S i => x :: removeAt i rest
  end.

(** One occurrence, with the host as it is when it happens.  A handler
    that throws rejects its own promise and leaves the others alone. *)
Definition deliver (session : Session) (host : Host) (o : Occurrence)
  : Session :=
  match o with
  | DocumentOpened document =>
      mkSession (fst (didOpenTextDocument host document (world session)))
                (waiting session)
  | WorkspaceFoldersChanged added removed =>
      suspend (waiting session)
              (changeWorkspaceFoldersBegin host added removed (world session))
  | ConfigurationChanged affectsCpp affectsClangd =>
      suspend (waiting session)
              (changeConfigurationBegin host affectsCpp affectsClangd
                                        (world session))
  | Settled index =>
      match nth_error (waiting session) index with
      | Some suspended =>
          suspend (removeAt index (waiting session))
                  (resume host suspended (world session))
      | None => session
      end
  end.

Definition play (session : Session) (schedule : list (Host * Occurrence))
  : Session :=
  fold_left (fun s step => deliver s (fst step) (snd step)) schedule session.

End Extension.

(** ** A sample workspace

    Two nested workspace folders, listed inner first, and a host whose
    [getWorkspaceFolder] answers the innermost folder containing a URI. *)
Module Sample.
Import Extension.

Definition wsUri : Uri := mkUri "file" "file:///ws/".
Definition pkgUri : Uri := mkUri "file" "file:///ws/pkg/".
Definition ws : WorkspaceFolder := mkFolder 1 wsUri "ws" 1.
Definition pkg : WorkspaceFolder := mkFolder 2 pkgUri "pkg" 0.

Definition contains (folder : WorkspaceFolder) (uri : Uri) : bool :=
  Js.startsWith (withTrailingSlash (uriText uri))
                (withTrailingSlash (uriText (folderUri folder))).

Definition innermost (folders : list WorkspaceFolder) (uri : Uri)
  : option WorkspaceFolder :=
  fold_left
    (fun best folder =>
       if contains folder uri then
         match best with
         | Some b =>
             if Nat.ltb (String.length (uriText (folderUri b)))
                        (String.length (uriText (folderUri folder)))
             then Some folder else best
         | None => Some folder
         end
       else best)
    folders None.

Definition document : TextDocument :=
  mkDocument (mkUri "file" "file:///ws/pkg/sub/x.cpp") "cpp"
             "/ws/pkg/sub/x.cpp".

(** The value of the [cppLanguageClient] setting is the same for every
    folder of the sample. *)
Definition host (setting : Js.value) : Host :=
  mkHost (Some [pkg; ws])
         (innermost [pkg; ws])
         (fun text => mkUri "file" text)
         (fun _ => setting)
         [document].

End Sample.

(** A workspace whose folder URIs are written without a final separator,
    the way [Uri.toString()] gives them: [file:///ws], its sub-folder
    [file:///ws/pkg], and [file:///ws2], whose text starts with the text
    of [file:///ws] although it is not inside it. *)
Module Bare.
Import Extension.

Definition ws : WorkspaceFolder :=
  mkFolder 1 (mkUri "file" "file:///ws") "ws" 2.
Definition pkg : WorkspaceFolder :=
  mkFolder 2 (mkUri "file" "file:///ws/pkg") "pkg" 0.
Definition ws2 : WorkspaceFolder :=
  mkFolder 3 (mkUri "file" "file:///ws2") "ws2" 1.

Definition host : Host :=
  mkHost (Some [pkg; ws2; ws])
         (Sample.innermost [pkg; ws2; ws])
         (fun text => mkUri "file" text)
         (fun _ => Js.VString "any")
         [].

End Bare.

(** ** [extension.ts], single-client variant: the inline [clangd.setRoots]

    Lines 16-61.  The argument check, the glob template and the loop
    computing [toAdds] are the expressions of [root-management.ts]; the
    current roots are read from the [c] rules only, each stale glob is
    spliced out once, and the handler ends by restarting or by
    re-initializing the client's features. *)
Module Legacy.

Inductive Effect : Type :=
| ConsoleLog (message : string)
| ConsoleLogSelector (message : string) (selectors : list DocumentFilter)
| ExecuteCommand (command : string)
| InitializeFeatures.

Inductive Completion : Type := Returned | Threw.

Record Result : Type := mkResult {
  selectors : list DocumentFilter;
  effects : list Effect;
  completion : Completion
}.

(** Lines 27-30: the globs of the rules tagged ['c']. *)
Definition cRule (item : DocumentFilter) : bool :=
  languageIs "c" item &&
  match pattern item with Some (GlobString _) => true | _ => false end.

Definition currentRoots (selectors : list DocumentFilter) : list string :=
  map RootManagement.patternString (filter cRule selectors).

(** Lines 40-43: one [findIndex], at most one [splice]. *)
Definition removeFirstMatching (selectors : list DocumentFilter)
           (toDelete : string) : list DocumentFilter :=
  match RootManagement.findIndex (patternIs toDelete) selectors with
  | Some index => RootManagement.splice1 index selectors
  | None => selectors
  end.

Definition deletionMessage : string :=
  "ClangD has detected a deletion in of a root and is restarting.".
Definition reinitializingMessage : string :=
  "CLangD has detected a change in its roots and its reinitializing.".

(** The handler.  [clientPresent] tells whether [clangdContext.client] is
    defined when [clangdContext.client['initializeFeatures']()] is
    evaluated; when it is not, the call throws and the final log is not
    reached. *)
Definition setRoots (clientPresent : bool) (live : list DocumentFilter)
           (newRoots : Js.value) : Result :=
  if RootManagement.incorrectArguments newRoots then
    mkResult live
             [ConsoleLog RootManagement.incorrectArgumentsMessage] Returned
  else
    let withGlobs := RootManagement.withGlobs newRoots in
    let current := Js.newSet (currentRoots live) in
    let delta := RootManagement.compareSlotLoop withGlobs [] current in
    let afterDeletes :=
      fold_left removeFirstMatching (RootManagement.slotDeletes delta) live in
    let afterAdds :=
      fold_left (fun sel toAdd =>
                   sel ++ [RootManagement.slotRule "c" toAdd;
                           RootManagement.slotRule "cpp" toAdd])
                (RootManagement.slotAdds delta) afterDeletes in
    if negb (Nat.eqb (Js.size (RootManagement.slotDeletes delta)) 0) then
      mkResult afterAdds
               [ConsoleLog deletionMessage;
                ExecuteCommand "clangd.restart";
                ConsoleLogSelector RootManagement.selectorMessage afterAdds]
               Returned
    else if clientPresent then
      mkResult afterAdds
               [ConsoleLog reinitializingMessage;
                InitializeFeatures;
                ConsoleLogSelector RootManagement.selectorMessage afterAdds]
               Returned
    else
      mkResult afterAdds [ConsoleLog reinitializingMessage] Threw.

End Legacy.

(** ** [extension.ts]: the completion middleware of [createClient]

    Lines 241-255.  [next] has already answered; [getText start position]
    stands for [document.getText(new vscode.Range(start, position))]. *)
Module Middleware.

Record Position : Type := mkPosition {
  line : nat;
  character : nat
}.

(** A completion item: [rangeStart] is [None] when [item.range] is
    missing or is not a plain range, in which case evaluating
    [new vscode.Range(item.range.start, position)] throws. *)
Record CompletionItem : Type := mkItem {
  label : string;
  filterText : option string;
  sortText : option string;
  rangeStart : option Position
}.

(** What [next(document, position, context, token)] resolved to. *)
Inductive ProviderResult : Type :=
| ItemArray (items : list CompletionItem)
| ItemList (items : list CompletionItem) (isIncomplete : bool)
| NoResult.

(** String conversion in [prefix + '_' + item.filterText]. *)
Definition textOf (t : option string) : string :=
  match t with
  | Some s => s
  | None => "undefined"
  end.

(** The callback of [map]; [None] when it throws. *)
Definition adapt (getText : Position -> Position -> string)
           (position : Position) (item : CompletionItem)
  : option CompletionItem :=
  match rangeStart item with
  | None => None
  | Some start =>
      let prefix := getText start position in
      if String.eqb prefix EmptyString then Some item
      else Some (mkItem (label item)
                        (Some (prefix ++ "_" ++ textOf (filterText item))%string)
                        (sortText item)
                        (rangeStart item))
  end.

(** [items.map(callback)], abandoned at the first throw. *)
Fixpoint mapItems (getText : Position -> Position -> string)
         (position : Position) (items : list CompletionItem)
  : option (list CompletionItem) :=
  match items with
  | [] => Some []
  | item :: rest =>
      match adapt getText position item with
      | None => None
      | Some item' =>
          match mapItems getText position rest with
          | None => None
          | Some rest' => Some (item' :: rest')
          end
      end
  end.

(** The middleware: [None] when it rejects, otherwise the items and the
    [isIncomplete] flag of the returned [CompletionList]. *)
Definition provideCompletionItem (getText : Position -> Position -> string)
           (position : Position) (result : ProviderResult)
  : option (list CompletionItem * bool) :=
  match result with
  | NoResult => None
  | ItemArray items | ItemList items _ =>
      match mapItems getText position items with
      | None => None
      | Some items' => Some (items', true)
      end
  end.

End Middleware.

(** ** [extension.ts]: what [activate] does to the registry

    Lines 292-320.  [clangdPath] is what [install.activate] resolved to;
    when it is falsy nothing is set up, otherwise every open document is
    routed. *)
Definition activateExtension (host : Extension.Host)
           (clangdPath : option string) : Extension.M unit :=
  match clangdPath with
  | None => Extension.ret tt
  | Some path =>
      if String.eqb path EmptyString then Extension.ret tt
      else Extension.forEach (Extension.didOpenTextDocument host)
                             (Extension.textDocuments host)
  end.

(** ** Vocabulary of the statements *)

(** A rule survives the deletions when its pattern is none of the globs to
    delete. *)
Definition keeps (deletes : Js.set) (item : DocumentFilter) : bool :=
  negb (existsb (fun toDelete => patternIs toDelete item) deletes).

(** The rules pushed for a list of globs: a [c] and a [cpp] rule each. *)
Definition rulesFor (adds : list string) : list DocumentFilter :=
  flat_map (fun toAdd => [RootManagement.ruleFor "c" toAdd;
                          RootManagement.ruleFor "cpp" toAdd]) adds.

(** [s] made to end with a separator: [s] itself when it ends with one,
    [s] with one appended when it does not. *)
Definition endingWithSeparator (s : string) : string :=
  if Js.endsWith s "/" then s else (s ++ "/")%string.

(** The URIs of the configured folders, as the host gives them. *)
Definition folderTexts (host : Extension.Host) : list string :=
  match Extension.workspaceFolders host with
  | Some folders =>
      map (fun folder => Extension.uriText (Extension.folderUri folder)) folders
  | None => []
  end.

(** The configured folder URIs, each ending with a separator. *)
Definition configuredUris (host : Extension.Host) : list string :=
  match Extension.workspaceFolders host with
  | Some folders =>
      map (fun folder =>
             Extension.withTrailingSlash
               (Extension.uriText (Extension.folderUri folder)))
          folders
  | None => []
  end.

(** The cache is empty or holds what would be computed now. *)
Definition cacheCoherent (host : Extension.Host) (w : Extension.World) : Prop :=
  Extension.sortedCache w = None
  \/ Extension.sortedCache w = Some (Extension.computeSorted host).

Definition shorterOrEqual (a b : string) : Prop :=
  String.length a <= String.length b.

(** The registry and the client objects agree: no folder object is
    registered twice, no client is registered under two folders, and the
    clients that are started and not stopped are exactly the registered
    ones.  So each folder has at most one started client, the one the
    registry holds for it. *)
Definition consistent (registry : list (Extension.WorkspaceFolder * nat))
           (objects : list Extension.ClangdLanguageClient) : Prop :=
  NoDup (map (fun kv => Extension.folderRef (fst kv)) registry)
  /\ NoDup (Extension.mapValues registry)
  /\ forall client,
      match nth_error objects client with
      | Some o => Extension.running o
      | None => false
      end = true
      <-> In client (Extension.mapValues registry).

Definition Consistent (w : Extension.World) : Prop :=
  consistent (Extension.clients w) (Extension.heap w).

(** Between [w] and [w'] either the registry and the client objects are
    untouched, or one client was created, for a folder the registry held
    no client for, registered under that folder and started. *)
Definition createsOnlyWhenAbsent (w w' : Extension.World) : Prop :=
  (Extension.clients w' = Extension.clients w
   /\ Extension.heap w' = Extension.heap w)
  \/ exists folder,
      Extension.mapGet (Extension.clients w) folder = None
      /\ Extension.clients w'
         = Extension.mapSet (Extension.clients w) folder
                            (List.length (Extension.heap w))
      /\ List.length (Extension.heap w') = S (List.length (Extension.heap w))
      /\ Extension.isRunning w' (List.length (Extension.heap w)) = true.

(** The same, with the created object spelled out. *)
Definition registersFresh (w w' : Extension.World) : Prop :=
  (Extension.clients w' = Extension.clients w
   /\ Extension.heap w' = Extension.heap w)
  \/ exists folder path,
      Extension.mapGet (Extension.clients w) folder = None
      /\ Extension.clients w'
         = Extension.mapSet (Extension.clients w) folder
                            (List.length (Extension.heap w))
      /\ Extension.heap w'
         = Extension.updateAt
             (List.length (Extension.heap w))
             (fun o => Extension.mkClient (Extension.clientRoot o)
                                          (Extension.startDisposable o) true)
             (Extension.heap w ++ [Extension.mkClient path None false]).

(** A handler that is resumed, at each [await], before anything else
    runs and with the host unchanged: from the outcome of its first
    segment to the outcome of its last. *)
Inductive settles (host : Extension.Host)
  : Extension.World * Extension.Completion (option Extension.Suspended) ->
    Extension.World * Extension.Completion unit -> Prop :=
| settles_done (w : Extension.World) :
    settles host (w, Extension.Normal None) (w, Extension.Normal tt)
| settles_throw (w : Extension.World) :
    settles host (w, Extension.Throw) (w, Extension.Throw)
| settles_resume (w : Extension.World) (suspended : Extension.Suspended)
                 (outcome : Extension.World * Extension.Completion unit) :
    settles host (Extension.resume host suspended w) outcome ->
    settles host (w, Extension.Normal (Some suspended)) outcome.

(** No folder object is registered twice, no client is registered under
    two folders, every registered client has been created, and every
    started client is registered: a folder has at most one started
    client, the one the registry holds for it.  A registered client may
    be stopped already. *)
Definition atMostOneStarted (w : Extension.World) : Prop :=
  NoDup (map (fun kv => Extension.folderRef (fst kv)) (Extension.clients w))
  /\ NoDup (Extension.mapValues (Extension.clients w))
  /\ (forall client,
         In client (Extension.mapValues (Extension.clients w)) ->
         client < List.length (Extension.heap w))
  /\ (forall client,
         Extension.isRunning w client = true ->
         In client (Extension.mapValues (Extension.clients w))).

(** The occurrence resumes a configuration handler at line 352, after
    its [await client.stop()]. *)
Definition resumesConfiguredStop (session : Extension.Session)
           (o : Extension.Occurrence) : bool :=
  match o with
  | Extension.Settled index =>
      match nth_error (Extension.waiting session) index with
      | Some (Extension.AfterConfiguredStop _ _) => true
      | _ => false
      end
  | _ => false
  end.

(** The clients that are started and not stopped and whose server is
    scoped to [root], by address. *)
Definition startedClients (w : Extension.World) (root : Extension.Uri)
  : list nat :=
  filter (fun client =>
            match nth_error (Extension.heap w) client with
            | Some o =>
                Extension.running o
                && String.eqb (Extension.uriText (Extension.clientRoot o))
                              (Extension.uriText root)
            | None => false
            end)
         (seq 0 (List.length (Extension.heap w))).

(** The world after two [dispose()] calls in succession. *)
Definition disposedTwice (client : nat) (w : Extension.World)
  : Extension.World :=
  fst (Extension.dispose client (fst (Extension.dispose client w))).

(** What [clangd.setRoots] does with an array of strings without holes,
    in terms of the functions at their declared types. *)
Definition setRootsOfStrings (st : RootManagement.State) (roots : list string)
  : RootManagement.State * option nat :=
  let delta :=
    RootManagement.compareCurrentAndDesiredRoots
      (RootManagement.clangdDocumentSelector st) roots in
  let st1 :=
    RootManagement.mkState
      (RootManagement.reconcileSelectorsAndTargets
         (RootManagement.clangdDocumentSelector st)
         (RootManagement.toAdds delta) (RootManagement.toDeletes delta))
      (RootManagement.store st) (RootManagement.simpleCancelation st)
      (RootManagement.effects st) in
  if negb (Nat.eqb (Js.size (RootManagement.toDeletes delta)) 0)
     || negb (Nat.eqb (List.length (RootManagement.toAdds delta)) 0)
  then let (st2, pending) := RootManagement.restartBegin st1 in
       (st2, Some pending)
  else (RootManagement.emit
          [RootManagement.ConsoleLog RootManagement.noChangeMessage] st1,
        None).

(** Some index of the array holds an element that is not a string. *)
Definition hasNonString (entries : list (option Js.value)) : Prop :=
  exists item, In (Some item) entries /\ Js.isString item = false.

(** [item] is the [lang] rule for the glob [g]. *)
Definition isRule (lang g : string) (item : DocumentFilter) : bool :=
  languageIs lang item && patternIs g item.

(** Every glob that has a [c] rule has a [cpp] rule, and conversely. *)
Definition paired (selectors : list DocumentFilter) : Prop :=
  forall g,
    existsb (isRule "c" g) selectors = existsb (isRule "cpp" g) selectors.

(** The module variable points at an allocated cancelation object that
    is not canceled, and every other allocated object is canceled. *)
Definition tokensWellFormed (st : RootManagement.State) : Prop :=
  RootManagement.simpleCancelation st < List.length (RootManagement.store st)
  /\ RootManagement.readCanceled (RootManagement.simpleCancelation st)
                                 (RootManagement.store st) = false
  /\ forall address,
      address < List.length (RootManagement.store st) ->
      address <> RootManagement.simpleCancelation st ->
      RootManagement.readCanceled address (RootManagement.store st) = true.

(** What the host can make happen to the module, one event at a time: a
    [clangd.setRoots] invocation, a bare restart request, and the end of
    a suspended request's wait. *)
Inductive Event : Type :=
| Invoke (newRoots : Js.value)
| Request
| Resume (localCancelation : nat) (outcome : RootManagement.WaitOutcome).

Definition step (st : RootManagement.State) (e : Event) : RootManagement.State :=
  match e with
  | Invoke newRoots => fst (RootManagement.setRoots st newRoots)
  | Request => fst (RootManagement.restartBegin st)
  | Resume localCancelation outcome =>
      RootManagement.restartResume st localCancelation outcome
  end.

Definition run (st : RootManagement.State) (events : list Event)
  : RootManagement.State :=
  fold_left step events st.

(** The resumption of the newest request with a ready client. *)
Definition resumesCurrent (st : RootManagement.State) (e : Event) : bool :=
  match e with
  | Resume localCancelation RootManagement.Ready =>
      Nat.eqb localCancelation (RootManagement.simpleCancelation st)
  | _ => false
  end.

(** Only resumptions, each of a request that has been issued. *)
Definition resumesIssued (st : RootManagement.State) (e : Event) : Prop :=
  match e with
  | Resume localCancelation _ =>
      localCancelation < List.length (RootManagement.store st)
  | _ => False
  end.

(** No client object has a start handle recorded. *)
Definition noStartHandles (w : Extension.World) : Prop :=
  Forall (fun o => Extension.startDisposable o = None) (Extension.heap w).

(** Between [w] and [w'] either the registry is untouched or one folder
    was registered: a folder object the host handed out, whose setting is
    ["any"] or ["compile"], and which had no client. *)
Definition registersOwned (host : Extension.Host) (w w' : Extension.World)
  : Prop :=
  (Extension.clients w' = Extension.clients w
   /\ Extension.heap w' = Extension.heap w)
  \/ exists folder,
      (exists uri, Extension.getWorkspaceFolder host uri = Some folder)
      /\ Extension.notOwned
           (Extension.cppLanguageClient host (Extension.folderUri folder))
         = false
      /\ Extension.mapGet (Extension.clients w) folder = None
      /\ Extension.clients w'
         = Extension.mapSet (Extension.clients w) folder
                            (List.length (Extension.heap w))
      /\ Extension.heap w'
         = Extension.updateAt
             (List.length (Extension.heap w))
             (fun o => Extension.mkClient (Extension.clientRoot o)
                                          (Extension.startDisposable o) true)
             (Extension.heap w
                ++ [Extension.mkClient (Extension.folderUri folder) None
                                       false]).


(** The host resolves each configured URI to a folder with that URI. *)
Definition resolvesConfigured (host : Extension.Host) : Prop :=
  forall e,
    In e (configuredUris host) ->
    exists resolved,
      Extension.getWorkspaceFolder host (Extension.parseUri host e)
      = Some resolved
      /\ Extension.withTrailingSlash
           (Extension.uriText (Extension.folderUri resolved)) = e.

(** Lines 306-316 of [didOpenTextDocument]: what happens once the
    outermost folder is known. *)
Definition openInFolder (host : Extension.Host)
           (document : Extension.TextDocument)
           (folder : Extension.WorkspaceFolder) : Extension.M unit :=
  let clientRequest :=
    Extension.cppLanguageClient host (Extension.folderUri folder) in
  Extension.bind
    (Extension.call (Extension.LogDidOpen (Extension.fileName document)
                                          (Extension.folderUri folder)
                                          clientRequest))
    (fun _ =>
       if Extension.notOwned clientRequest then Extension.ret tt
       else
         Extension.bind Extension.get
           (fun w =>
              if negb (Extension.mapHas (Extension.clients w) folder) then
                Extension.bind
                  (Extension.createClient (Extension.folderUri folder))
                  (fun client =>
                     Extension.bind
                       (Extension.setClients
                          (fun m => Extension.mapSet m folder client))
                       (fun _ =>
                          Extension.bind
                            (Extension.call
                               (Extension.LogStarting
                                  (Extension.folderUri folder)))
                            (fun _ =>
                               Extension.bind (Extension.start client)
                                              (fun _ => Extension.ret tt))))
              else Extension.ret tt)).

(** The document passes the scheme and language tests of
    [didOpenTextDocument]. *)
Definition routable (document : Extension.TextDocument) : bool :=
  negb (negb (String.eqb (Extension.uriScheme (Extension.documentUri document))
                         "file")
        && negb (String.eqb
                   (Extension.uriScheme (Extension.documentUri document))
                   "untitled"))
  && existsb (String.eqb (Extension.languageId document))
             Extension.supportedLanguages.

(** The folder the lookup resolves to, given the sorted list it reads. *)
Definition resolveIn (host : Extension.Host) (sorted : list string)
           (folder : Extension.WorkspaceFolder)
  : option Extension.WorkspaceFolder :=
  match Extension.firstPrefix
          (Extension.withTrailingSlash
             (Extension.uriText (Extension.folderUri folder))) sorted with
  | Some element =>
      Extension.getWorkspaceFolder host (Extension.parseUri host element)
  | None => Some folder
  end.

(** How a returned item relates to the item the server sent. *)
Definition adapted (getText : Middleware.Position -> Middleware.Position -> string)
           (position : Middleware.Position)
           (item item' : Middleware.CompletionItem) : Prop :=
  Middleware.label item' = Middleware.label item
  /\ Middleware.sortText item' = Middleware.sortText item
  /\ Middleware.rangeStart item' = Middleware.rangeStart item
  /\ exists start,
      Middleware.rangeStart item = Some start
      /\ (getText start position = EmptyString -> item' = item)
      /\ (getText start position <> EmptyString ->
          exists text,
            Middleware.filterText item' = Some text
            /\ Js.startsWith text (getText start position) = true
            /\ Js.endsWith text
                 (Middleware.textOf (Middleware.filterText item)) = true).

(** Every registered folder has a setting of ["any"] or ["compile"]. *)
Definition allOwned (host : Extension.Host) (w : Extension.World) : Prop :=
  forall folder client,
    In (folder, client) (Extension.clients w) ->
    Extension.notOwned
      (Extension.cppLanguageClient host (Extension.folderUri folder)) = false.

(** * Properties of [root-management.ts] *)

Import RootManagement.

Section StringFacts.

Lemma endsWith_iff (s p : string) :
  Js.endsWith s p = true <-> exists stem, s = (stem ++ p)%string.
Proof.
  induction s as [|c s IH]; cbn [Js.endsWith].
  - destruct (String.eqb_spec EmptyString p) as [<-|Hne].
    + split; [exists EmptyString; reflexivity | reflexivity].
    + split; [discriminate|].
      intros [stem Hstem]. destruct stem; simpl in Hstem.
      * congruence.
      * discriminate.
  - destruct (String.eqb_spec (String c s) p) as [<-|Hne].
    + split; [exists EmptyString; reflexivity | reflexivity].
    + rewrite IH. split.
      * intros [stem ->]. exists (String c stem). reflexivity.
      * intros [stem Hstem]. destruct stem as [|c' stem]; simpl in Hstem.
        -- congruence.
        -- injection Hstem as _ ->. exists stem. reflexivity.
Qed.

Lemma append_assoc (a b c : string) :
  ((a ++ b) ++ c = a ++ (b ++ c))%string.
Proof. induction a; simpl; congruence. Qed.

End StringFacts.

Section SetFacts.

Lemma has_In (s : Js.set) (x : string) : Js.has s x = true <-> In x s.
Proof.
  unfold Js.has. rewrite existsb_exists. split.
  - intros [y [Hy Heq]]. apply String.eqb_eq in Heq. subst. exact Hy.
  - intros H. exists x. split; [exact H | apply String.eqb_refl].
Qed.

Lemma has_false_In (s : Js.set) (x : string) :
  Js.has s x = false <-> ~ In x s.
Proof.
  rewrite <- has_In. destruct (Js.has s x); split; congruence.
Qed.

Lemma add_In (s : Js.set) (x y : string) :
  In y (Js.add s x) <-> In y s \/ y = x.
Proof.
  unfold Js.add. destruct (Js.has s x) eqn:E.
  - apply has_In in E. split; [auto | intros [H| ->]; assumption].
  - rewrite in_app_iff. simpl. intuition congruence.
Qed.

Lemma fold_add_In (xs : list string) (acc : Js.set) (y : string) :
  In y (fold_left Js.add xs acc) <-> In y acc \/ In y xs.
Proof.
  revert acc. induction xs as [|x xs IH]; intros acc; simpl.
  - tauto.
  - rewrite IH, add_In. intuition congruence.
Qed.

Lemma newSet_In (xs : list string) (y : string) :
  In y (Js.newSet xs) <-> In y xs.
Proof. unfold Js.newSet. rewrite fold_add_In. simpl. tauto. Qed.

Lemma delete_In (s : Js.set) (x y : string) :
  In y (Js.delete s x) <-> In y s /\ y <> x.
Proof.
  unfold Js.delete. rewrite filter_In.
  destruct (String.eqb_spec x y) as [->|Hne]; simpl; intuition congruence.
Qed.

Lemma has_delete_other (s : Js.set) (x y : string) :
  y <> x -> Js.has (Js.delete s x) y = Js.has s y.
Proof.
  intros Hne. destruct (Js.has s y) eqn:E.
  - apply has_In. apply delete_In. split; [apply has_In; exact E | exact Hne].
  - apply has_false_In. rewrite delete_In. apply has_false_In in E. tauto.
Qed.

Lemma has_delete_same (s : Js.set) (x : string) :
  Js.has (Js.delete s x) x = false.
Proof. apply has_false_In. rewrite delete_In. tauto. Qed.

End SetFacts.

Section ReconcileFacts.

Lemma findIndex_None_filter {A} (pred : A -> bool) (l : list A) :
  findIndex pred l = None -> filter (fun x => negb (pred x)) l = l.
Proof.
  induction l as [|x l IH]; simpl; [reflexivity|].
  destruct (pred x); [discriminate|]. simpl.
  destruct (findIndex pred l); [discriminate|].
  intros _. f_equal. apply IH. reflexivity.
Qed.

Lemma findIndex_Some_filter {A} (pred : A -> bool) (l : list A) (i : nat) :
  findIndex pred l = Some i ->
  filter (fun x => negb (pred x)) (splice1 i l)
  = filter (fun x => negb (pred x)) l.
Proof.
  revert i. induction l as [|x l IH]; intros i; simpl; [discriminate|].
  destruct (pred x) eqn:Hx.
  - intros [= <-]. reflexivity.
  - destruct (findIndex pred l) as [j|]; simpl; [|discriminate].
    intros [= <-]. simpl. rewrite Hx. simpl. f_equal. apply IH. reflexivity.
Qed.

Lemma removeAllMatching_filter (toDelete : string)
      (selectors : list DocumentFilter) :
  removeAllMatching toDelete selectors
  = filter (fun item => negb (patternIs toDelete item)) selectors.
Proof.
  funelim (removeAllMatching toDelete selectors).
  - rewrite H. apply findIndex_Some_filter. assumption.
  - symmetry. apply findIndex_None_filter. assumption.
Qed.

Lemma fold_remove_filter (deletes : Js.set) (selectors : list DocumentFilter) :
  fold_left (fun sel toDelete => removeAllMatching toDelete sel)
            deletes selectors
  = filter (keeps deletes) selectors.
Proof.
  revert selectors. induction deletes as [|d deletes IH]; intros selectors.
  - simpl. unfold keeps. simpl. induction selectors; simpl; congruence.
  - simpl. rewrite IH, removeAllMatching_filter.
    induction selectors as [|x l IHl]; simpl; [reflexivity|].
    unfold keeps at 2. simpl.
    destruct (patternIs d x); simpl; [exact IHl|].
    fold (keeps deletes x). destruct (keeps deletes x); simpl; congruence.
Qed.

Lemma fold_push_app (adds : list string) (selectors : list DocumentFilter) :
  fold_left (fun sel toAdd => sel ++ [ruleFor "c" toAdd; ruleFor "cpp" toAdd])
            adds selectors
  = selectors ++ rulesFor adds.
Proof.
  revert selectors. induction adds as [|a adds IH]; intros selectors; simpl.
  - rewrite app_nil_r. reflexivity.
  - rewrite IH, <- app_assoc. reflexivity.
Qed.

(** The selector after reconciliation: the rules whose pattern is not
    to be deleted, then one pair of rules per added glob. *)
Lemma reconcile_spec (selectors : list DocumentFilter)
      (adds : list string) (deletes : Js.set) :
  reconcileSelectorsAndTargets selectors adds deletes
  = filter (keeps deletes) selectors ++ rulesFor adds.
Proof.
  unfold reconcileSelectorsAndTargets.
  rewrite fold_remove_filter, fold_push_app. reflexivity.
Qed.

Lemma getCurrentRoots_app (a b : list DocumentFilter) :
  getCurrentRoots (a ++ b) = getCurrentRoots a ++ getCurrentRoots b.
Proof. unfold getCurrentRoots. rewrite filter_app, map_app. reflexivity. Qed.

Lemma getCurrentRoots_rulesFor (adds : list string) :
  getCurrentRoots (rulesFor adds) = flat_map (fun g => [g; g]) adds.
Proof.
  induction adds as [|a adds IH]; [reflexivity|].
  change (rulesFor (a :: adds))
    with ([ruleFor "c" a; ruleFor "cpp" a] ++ rulesFor adds).
  rewrite getCurrentRoots_app, IH. reflexivity.
Qed.

Lemma In_rulesFor_roots (adds : list string) (x : string) :
  In x (getCurrentRoots (rulesFor adds)) <-> In x adds.
Proof.
  rewrite getCurrentRoots_rulesFor, in_flat_map. split.
  - intros [g [Hg [<-|[<-|[]]]]]; exact Hg.
  - intros H. exists x. simpl. auto.
Qed.

Lemma managed_patternIs (item : DocumentFilter) (x : string) :
  managed item = true -> patternIs x item = String.eqb (patternString item) x.
Proof.
  unfold managed, patternIs, patternString.
  destruct (pattern item) as [[g|b p]|]; rewrite ?andb_false_r;
    try discriminate; reflexivity.
Qed.

Lemma In_kept_roots (deletes : Js.set) (selectors : list DocumentFilter)
      (x : string) :
  In x (getCurrentRoots (filter (keeps deletes) selectors))
  <-> In x (getCurrentRoots selectors) /\ ~ In x deletes.
Proof.
  unfold getCurrentRoots. rewrite !in_map_iff. split.
  - intros [item [<- Hin]]. apply filter_In in Hin as [Hin Hm].
    apply filter_In in Hin as [Hin Hk]. split.
    + exists item. split; [reflexivity|]. apply filter_In. auto.
    + intros Hd. unfold keeps in Hk. apply negb_true_iff in Hk.
      assert (existsb (fun d => patternIs d item) deletes = true) as E.
      { apply existsb_exists. exists (patternString item). split; [exact Hd|].
        rewrite managed_patternIs by exact Hm. apply String.eqb_refl. }
      congruence.
  - intros [[item [<- Hin]] Hnd]. apply filter_In in Hin as [Hin Hm].
    exists item. split; [reflexivity|]. rewrite !filter_In.
    repeat split; try assumption.
    unfold keeps. apply negb_true_iff.
    destruct (existsb (fun d => patternIs d item) deletes) eqn:E;
      [|reflexivity].
    apply existsb_exists in E as [d [Hd Hp]].
    rewrite managed_patternIs in Hp by exact Hm.
    apply String.eqb_eq in Hp. subst d. contradiction.
Qed.

End ReconcileFacts.

Section CompareFacts.

Lemma compareLoop_toDeletes (gs adds : list string) (current : Js.set)
      (x : string) :
  In x (toDeletes (compareLoop gs adds current))
  <-> In x current /\ ~ In x gs.
Proof.
  revert adds current. induction gs as [|g gs IH]; intros adds current; simpl.
  - tauto.
  - rewrite IH, delete_In. intuition congruence.
Qed.

Lemma compareLoop_toAdds_incl (gs adds : list string) (current : Js.set)
      (x : string) :
  In x (toAdds (compareLoop gs adds current)) -> In x adds \/ In x gs.
Proof.
  revert adds current. induction gs as [|g gs IH]; intros adds current; simpl.
  - auto.
  - intros H. apply IH in H. destruct H as [H|H]; [|auto].
    destruct (Js.has current g); [auto|].
    apply in_app_iff in H. simpl in H. intuition.
Qed.

Lemma compareLoop_toAdds_keeps (gs adds : list string) (current : Js.set)
      (x : string) :
  In x adds -> In x (toAdds (compareLoop gs adds current)).
Proof.
  revert adds current. induction gs as [|g gs IH]; intros adds current; simpl.
  - auto.
  - intros H. apply IH. destruct (Js.has current g); [exact H|].
    apply in_app_iff. auto.
Qed.

(** Every desired glob is either already current or scheduled to be
    added. *)
Lemma compareLoop_covers (gs adds : list string) (current : Js.set)
      (g : string) :
  In g gs ->
  In g current \/ In g (toAdds (compareLoop gs adds current)).
Proof.
  revert adds current. induction gs as [|g0 gs IH]; intros adds current;
    simpl; [tauto|].
  intros [->|Hin].
  - destruct (Js.has current g) eqn:E.
    + left. apply has_In. exact E.
    + right. apply compareLoop_toAdds_keeps. apply in_app_iff. simpl. auto.
  - destruct (IH (if Js.has current g0 then adds else adds ++ [g0])
                 (Js.delete current g0) Hin) as [H|H].
    + left. apply delete_In in H. tauto.
    + right. exact H.
Qed.

(** Without repeated globs, a glob that is current at its turn is never
    added. *)
Lemma compareLoop_all_current (gs adds : list string) (current : Js.set) :
  NoDup gs -> (forall g, In g gs -> In g current) ->
  toAdds (compareLoop gs adds current) = adds.
Proof.
  revert adds current. induction gs as [|g gs IH]; intros adds current Hnd Hall;
    simpl; [reflexivity|].
  inversion Hnd as [|? ? Hnotin Hnd']; subst.
  assert (Js.has current g = true) as ->
      by (apply has_In, Hall; simpl; auto).
  apply IH; [exact Hnd'|].
  intros g' Hg'. apply delete_In. split.
  - apply Hall. simpl. auto.
  - intros ->. contradiction.
Qed.

(** A glob that is not current is added once per occurrence. *)
Lemma compareLoop_count (gs adds : list string) (current : Js.set)
      (g : string) :
  ~ In g current ->
  count_occ string_dec (toAdds (compareLoop gs adds current)) g
  = count_occ string_dec adds g + count_occ string_dec gs g.
Proof.
  revert adds current. induction gs as [|g0 gs IH]; intros adds current Hnot;
    simpl.
  - lia.
  - rewrite IH by (rewrite delete_In; tauto).
    destruct (string_dec g0 g) as [->|Hne].
    + apply has_false_In in Hnot. rewrite Hnot.
      rewrite count_occ_app. simpl.
      destruct (string_dec g g); [lia|congruence].
    + destruct (Js.has current g0); [lia|].
      rewrite count_occ_app. simpl.
      destruct (string_dec g0 g); [congruence|lia].
Qed.

End CompareFacts.

Section Reconciliation.

Lemma second_pass_covers (selectors : list DocumentFilter) (D : list string)
      (g : string) :
  let d := compareCurrentAndDesiredRoots selectors D in
  let selectors' :=
    reconcileSelectorsAndTargets selectors (toAdds d) (toDeletes d) in
  In g (getCurrentRoots selectors') <-> In g (map rootGlob D).
Proof.
  cbv zeta. rewrite reconcile_spec, getCurrentRoots_app, in_app_iff.
  rewrite In_kept_roots, In_rulesFor_roots.
  unfold compareCurrentAndDesiredRoots.
  set (gs := map rootGlob D).
  set (current := Js.newSet (getCurrentRoots selectors)).
  rewrite compareLoop_toDeletes. split.
  - intros [[Hcur Hnot]|Hadd].
    + destruct (in_dec string_dec g gs) as [Hin|Hout]; [exact Hin|].
      exfalso. apply Hnot. split; [|exact Hout].
      apply newSet_In. exact Hcur.
    + apply compareLoop_toAdds_incl in Hadd as [[]|Hin]. exact Hin.
  - intros Hin.
    destruct (compareLoop_covers gs [] current g Hin) as [Hcur|Hadd].
    + left. split; [apply newSet_In; exact Hcur | tauto].
    + right. exact Hadd.
Qed.

(** After one reconciliation nothing is left to delete, whatever the
    input. *)
Lemma second_pass_deletes_nothing (selectors : list DocumentFilter)
      (D : list string) :
  let d := compareCurrentAndDesiredRoots selectors D in
  let selectors' :=
    reconcileSelectorsAndTargets selectors (toAdds d) (toDeletes d) in
  toDeletes (compareCurrentAndDesiredRoots selectors' D) = [].
Proof.
  cbv zeta.
  set (selectors' := reconcileSelectorsAndTargets _ _ _).
  destruct (toDeletes (compareCurrentAndDesiredRoots selectors' D))
    as [|x rest] eqn:E; [reflexivity|].
  exfalso.
  assert (In x (toDeletes (compareCurrentAndDesiredRoots selectors' D)))
    as Hin by (rewrite E; simpl; auto).
  unfold compareCurrentAndDesiredRoots in Hin at 1.
  apply compareLoop_toDeletes in Hin as [Hcur Hnot].
  apply Hnot. rewrite newSet_In in Hcur.
  apply (second_pass_covers selectors D x). exact Hcur.
Qed.

(** C3 (amended).  For every selector and every list of roots whose
    generated globs are pairwise distinct: computing the delta, applying
    it to the live selector and computing the delta for the same list
    again yields the empty delta. *)
Theorem reconcile_idempotent_distinct_globs
        (selectors : list DocumentFilter) (D : list string) :
  NoDup (map rootGlob D) ->
  let d := compareCurrentAndDesiredRoots selectors D in
  let selectors' :=
    reconcileSelectorsAndTargets selectors (toAdds d) (toDeletes d) in
  compareCurrentAndDesiredRoots selectors' D = mkDelta [] [].
Proof.
  intros Hnd. cbv zeta.
  pose proof (second_pass_deletes_nothing selectors D) as Hdel.
  cbv zeta in Hdel.
  set (selectors' := reconcileSelectorsAndTargets _ _ _) in *.
  assert (toAdds (compareCurrentAndDesiredRoots selectors' D) = []) as Hadd.
  { unfold compareCurrentAndDesiredRoots at 1.
    apply compareLoop_all_current; [exact Hnd|].
    intros g Hg. apply newSet_In.
    apply (second_pass_covers selectors D g). exact Hg. }
  destruct (compareCurrentAndDesiredRoots selectors' D) as [adds deletes].
  simpl in *. congruence.
Qed.

Lemma reconcile_idempotent_witness :
  let selectors := [mkFilter (Some "file") (Some "cuda") None;
                    ruleFor "c" "/old/**/*"; ruleFor "cpp" "/old/**/*"] in
  let D := ["/a"; "/b/"] in
  let d := compareCurrentAndDesiredRoots selectors D in
  let selectors' :=
    reconcileSelectorsAndTargets selectors (toAdds d) (toDeletes d) in
  compareCurrentAndDesiredRoots selectors' D = mkDelta [] [].
Proof.
  apply (reconcile_idempotent_distinct_globs
           [mkFilter (Some "file") (Some "cuda") None;
            ruleFor "c" "/old/**/*"; ruleFor "cpp" "/old/**/*"]
           ["/a"; "/b/"]).
  repeat constructor; simpl; intuition discriminate.
Defined.

(** C3 as stated fails when the list repeats a root: the second pass
    asks to add the repeated glob once more. *)
Lemma reconcile_twice_repeated_root :
  let D := ["/a"; "/a"] in
  let d := compareCurrentAndDesiredRoots [] D in
  let selectors' := reconcileSelectorsAndTargets [] (toAdds d) (toDeletes d) in
  compareCurrentAndDesiredRoots selectors' D = mkDelta ["/a/**/*"] []
  /\ compareCurrentAndDesiredRoots selectors' D <> mkDelta [] [].
Proof. split; [reflexivity | discriminate]. Qed.

(** C10.  When a glob is not among the current roots, [toAdds] holds it
    once per occurrence in the input, hence at least twice when a root
    is listed twice, and the selector receives one pair of rules per
    entry of [toAdds]; for the input [[root; root]] these are four
    rules, two identical pairs. *)
Theorem repeated_root_pushes_duplicate_rules
        (selectors : list DocumentFilter) (root : string) :
  ~ In (rootGlob root) (getCurrentRoots selectors) ->
  (forall D : list string,
      2 <= count_occ string_dec D root ->
      let d := compareCurrentAndDesiredRoots selectors D in
      count_occ string_dec (toAdds d) (rootGlob root)
      = count_occ string_dec (map rootGlob D) (rootGlob root)
      /\ 2 <= count_occ string_dec (toAdds d) (rootGlob root)
      /\ reconcileSelectorsAndTargets selectors (toAdds d) (toDeletes d)
         = filter (keeps (toDeletes d)) selectors ++ rulesFor (toAdds d))
  /\ (let d := compareCurrentAndDesiredRoots selectors [root; root] in
      toAdds d = [rootGlob root; rootGlob root]
      /\ reconcileSelectorsAndTargets selectors (toAdds d) (toDeletes d)
         = filter (keeps (toDeletes d)) selectors
           ++ [ruleFor "c" (rootGlob root); ruleFor "cpp" (rootGlob root);
               ruleFor "c" (rootGlob root); ruleFor "cpp" (rootGlob root)]).
Proof.
  intros Hnot.
  assert (~ In (rootGlob root) (Js.newSet (getCurrentRoots selectors)))
    as Hnot' by (rewrite newSet_In; exact Hnot).
  split.
  - intros D Htwice. cbv zeta.
    assert (count_occ string_dec
              (toAdds (compareCurrentAndDesiredRoots selectors D))
              (rootGlob root)
            = count_occ string_dec (map rootGlob D) (rootGlob root)) as Hc.
    { unfold compareCurrentAndDesiredRoots.
      rewrite compareLoop_count by exact Hnot'. reflexivity. }
    split; [exact Hc|]. split; [|apply reconcile_spec].
    rewrite Hc.
    clear - Htwice. revert Htwice. generalize 2.
    induction D as [|r D IH]; intros n; simpl; [auto|].
    destruct (string_dec r root) as [->|Hne].
    + destruct (string_dec (rootGlob root) (rootGlob root)); [|congruence].
      destruct n; [lia|]. intros H. apply le_S_n in H.
      apply le_n_S. apply IH. exact H.
    + intros H. apply IH in H.
      destruct (string_dec (rootGlob r) (rootGlob root)); lia.
  - cbv zeta.
    assert (toAdds (compareCurrentAndDesiredRoots selectors [root; root])
            = [rootGlob root; rootGlob root]) as Hadds.
    { unfold compareCurrentAndDesiredRoots. simpl.
      apply has_false_In in Hnot'. rewrite Hnot'.
      rewrite has_delete_same. reflexivity. }
    split; [exact Hadds|].
    rewrite reconcile_spec, Hadds. reflexivity.
Qed.

Lemma repeated_root_witness :
  let d := compareCurrentAndDesiredRoots [] ["/a"; "/a"] in
  2 <= count_occ string_dec (toAdds d) "/a/**/*"
  /\ toAdds d = ["/a/**/*"; "/a/**/*"]
  /\ reconcileSelectorsAndTargets [] (toAdds d) (toDeletes d)
     = [ruleFor "c" "/a/**/*"; ruleFor "cpp" "/a/**/*";
        ruleFor "c" "/a/**/*"; ruleFor "cpp" "/a/**/*"].
Proof.
  assert (~ In (rootGlob "/a") (getCurrentRoots [])) as H
      by (simpl; tauto).
  destruct (repeated_root_pushes_duplicate_rules [] "/a" H) as [Hany Htwo].
  split; [|exact Htwo].
  apply (Hany ["/a"; "/a"]). simpl. lia.
Defined.

End Reconciliation.

Section Globs.

(** C5 (amended).  The glob is the root followed by [**/*], with one
    separator inserted in between when the root does not already end
    with one: it always ends with [/**/*], and the text before that
    suffix is the root itself or the root less one trailing separator.
    Both ["/a/b"] and ["/a/b/"] give ["/a/b/**/*"]. *)
Theorem rootGlob_shape (root : string) :
  (exists stem,
      rootGlob root = (stem ++ "/**/*")%string
      /\ (root = (stem ++ "/")%string
          \/ (root = stem /\ Js.endsWith root "/" = false)))
  /\ Js.endsWith (rootGlob root) "/**/*" = true
  /\ rootGlob "/a/b" = "/a/b/**/*"
  /\ rootGlob "/a/b/" = "/a/b/**/*".
Proof.
  assert (exists stem,
             rootGlob root = (stem ++ "/**/*")%string
             /\ (root = (stem ++ "/")%string
                 \/ (root = stem /\ Js.endsWith root "/" = false))) as Hstem.
  { unfold rootGlob. destruct (Js.endsWith root "/") eqn:E.
    - apply endsWith_iff in E as [stem ->]. exists stem.
      split; [apply append_assoc | left; reflexivity].
    - exists root. split; [apply append_assoc | right; split; reflexivity]. }
  split; [exact Hstem|]. split; [|split; reflexivity].
  destruct Hstem as [stem [-> _]]. apply endsWith_iff. exists stem.
  reflexivity.
Qed.

(** C5 as stated fails for a root that ends with two separators: the
    glob then has two separators before [**/*]. *)
Lemma rootGlob_two_trailing_separators :
  rootGlob "/a/b//" = "/a/b//**/*"
  /\ Js.endsWith (rootGlob "/a/b//") "//**/*" = true.
Proof. split; reflexivity. Qed.

End Globs.

Section SetRootsCommand.

Lemma incorrectArguments_strings (roots : list string) :
  incorrectArguments (Js.VArray (map Js.VString roots)) = false.
Proof.
  unfold incorrectArguments. simpl. apply negb_false_iff.
  induction roots; simpl; [reflexivity | assumption].
Qed.

Lemma withGlobs_strings (roots : list string) :
  withGlobs (Js.VArray (map Js.VString roots))
  = map Some (map rootGlob roots).
Proof.
  unfold withGlobs. simpl. induction roots as [|r roots IH]; simpl;
    [reflexivity | rewrite IH; reflexivity].
Qed.

(** On an array without holes the loop over slots is the loop at the
    declared type. *)
Lemma compareSlotLoop_dense (globs adds : list string) (current : Js.set) :
  compareSlotLoop (map Some globs) (map Some adds) current
  = mkSlotDelta (map Some (toAdds (compareLoop globs adds current)))
                (toDeletes (compareLoop globs adds current)).
Proof.
  revert adds current. induction globs as [|g globs IH]; intros adds current;
    simpl; [reflexivity|].
  destruct (Js.has current g).
  - apply IH.
  - replace (map Some adds ++ [Some g]) with (map Some (adds ++ [g]))
      by (rewrite map_app; reflexivity).
    apply IH.
Qed.

Lemma compareSlotLoop_strings (globs : list string) (current : Js.set) :
  compareSlotLoop (map Some globs) [] current
  = mkSlotDelta (map Some (toAdds (compareLoop globs [] current)))
                (toDeletes (compareLoop globs [] current)).
Proof. exact (compareSlotLoop_dense globs [] current). Qed.

Lemma fold_push_dense (adds : list string) (selectors : list DocumentFilter) :
  fold_left (fun sel toAdd => sel ++ [slotRule "c" toAdd; slotRule "cpp" toAdd])
            (map Some adds) selectors
  = fold_left (fun sel toAdd => sel ++ [ruleFor "c" toAdd; ruleFor "cpp" toAdd])
              adds selectors.
Proof.
  revert selectors.
  induction adds as [|g adds IH]; intros sel; simpl; [reflexivity|].
  apply IH.
Qed.

Lemma reconcileSlots_dense (selectors : list DocumentFilter)
      (adds : list string) (deletes : Js.set) :
  reconcileSelectorsAndSlots selectors (map Some adds) deletes
  = reconcileSelectorsAndTargets selectors adds deletes.
Proof.
  unfold reconcileSelectorsAndSlots, reconcileSelectorsAndTargets.
  apply fold_push_dense.
Qed.

(** The rules pushed for a [toAdds] that may hold [undefined]. *)
Lemma fold_push_slots (adds : list (option string))
      (selectors : list DocumentFilter) :
  fold_left (fun sel toAdd => sel ++ [slotRule "c" toAdd; slotRule "cpp" toAdd])
            adds selectors
  = selectors
    ++ flat_map (fun toAdd => [slotRule "c" toAdd; slotRule "cpp" toAdd]) adds.
Proof.
  revert selectors. induction adds as [|a adds IH]; intros selectors; simpl.
  - rewrite app_nil_r. reflexivity.
  - rewrite IH, <- app_assoc. reflexivity.
Qed.

Lemma reconcileSlots_spec (selectors : list DocumentFilter)
      (adds : list (option string)) (deletes : Js.set) :
  reconcileSelectorsAndSlots selectors adds deletes
  = filter (keeps deletes) selectors
    ++ flat_map (fun toAdd => [slotRule "c" toAdd; slotRule "cpp" toAdd]) adds.
Proof.
  unfold reconcileSelectorsAndSlots.
  rewrite fold_remove_filter, fold_push_slots. reflexivity.
Qed.

(** The selector an accepted argument leaves. *)
Lemma setRoots_accepted_selector (st : State) (newRoots : Js.value) :
  incorrectArguments newRoots = false ->
  let d := compareCurrentAndDesiredSlots (clangdDocumentSelector st)
                                         (withGlobs newRoots) in
  clangdDocumentSelector (fst (setRoots st newRoots))
  = reconcileSelectorsAndSlots (clangdDocumentSelector st)
                               (slotAdds d) (slotDeletes d).
Proof.
  intros Hinc. cbv zeta. unfold setRoots. rewrite Hinc.
  destruct (negb _ || negb _); reflexivity.
Qed.

(** On an array of strings without holes the command is
    [setRootsOfStrings]. *)
Lemma setRoots_dense (st : State) (roots : list string) :
  setRoots st (Js.VArray (map Js.VString roots)) = setRootsOfStrings st roots.
Proof.
  unfold setRoots, setRootsOfStrings.
  rewrite incorrectArguments_strings, withGlobs_strings.
  unfold compareCurrentAndDesiredSlots, compareCurrentAndDesiredRoots.
  pose proof (compareSlotLoop_dense
                (map rootGlob roots) []
                (Js.newSet (getCurrentRoots (clangdDocumentSelector st))))
    as Hloop.
  change (map Some (@nil string)) with (@nil (option string)) in Hloop.
  rewrite Hloop. cbn [slotAdds slotDeletes].
  rewrite reconcileSlots_dense, length_map. reflexivity.
Qed.

(** The check lets an argument through exactly when it is an array
    every element of which is a string; an index that holds nothing is
    not an element. *)
Lemma incorrectArguments_true (v : Js.value) :
  incorrectArguments v = true <->
  Js.slots v = None
  \/ exists entries, Js.slots v = Some entries /\ hasNonString entries.
Proof.
  unfold incorrectArguments. destruct (Js.slots v) as [entries|].
  - split.
    + intros H. right. exists entries. split; [reflexivity|].
      apply negb_true_iff in H.
      induction entries as [|slot entries IH]; [discriminate|].
      simpl in H. apply andb_false_iff in H as [H|H].
      * destruct slot as [item|]; [|discriminate].
        exists item. split; [left; reflexivity | exact H].
      * destruct (IH H) as [item [Hin Hitem]].
        exists item. split; [right; exact Hin | exact Hitem].
    + intros [H|[entries' [H [item [Hin Hitem]]]]]; [discriminate|].
      injection H as <-. apply negb_true_iff.
      induction entries as [|slot entries IH]; [destruct Hin|].
      simpl. destruct Hin as [->|Hin].
      * rewrite Hitem. reflexivity.
      * rewrite (IH Hin). apply andb_false_r.
  - split; [intros _; left; reflexivity | reflexivity].
Qed.

(** An argument the check lets through holds, at each index, a string or
    nothing. *)
Lemma incorrectArguments_false (v : Js.value) :
  incorrectArguments v = false ->
  exists entries : list (option string),
    Js.slots v = Some (map (option_map Js.VString) entries)
    /\ withGlobs v = map (option_map rootGlob) entries.
Proof.
  unfold incorrectArguments, withGlobs.
  destruct (Js.slots v) as [slots|]; [|discriminate].
  intros H. apply negb_false_iff in H.
  enough (exists entries : list (option string),
             slots = map (option_map Js.VString) entries
             /\ map globSlot slots = map (option_map rootGlob) entries)
    as [entries [-> Hglobs]]
      by (exists entries; split; [reflexivity | exact Hglobs]).
  induction slots as [|slot slots IH]; [exists []; split; reflexivity|].
  simpl in H. apply andb_true_iff in H as [Hslot Hrest].
  destruct (IH Hrest) as [entries [-> Hglobs]].
  destruct slot as [item|].
  - destruct item; try discriminate.
    exists (Some s :: entries). simpl. rewrite Hglobs. split; reflexivity.
  - exists (None :: entries). simpl. rewrite Hglobs. split; reflexivity.
Qed.

(** An argument that is not an array, or an array one of whose elements
    is not a string, makes the command log one message and return: the
    live selector, the cancelation store and the current token are
    unchanged, no restart is pending and none has been issued. *)
Lemma setRoots_rejects_non_strings (st : State) (newRoots : Js.value) :
  (Js.slots newRoots = None
   \/ exists entries,
        Js.slots newRoots = Some entries /\ hasNonString entries) ->
  setRoots st newRoots
  = (emit [ConsoleLog incorrectArgumentsMessage] st, None)
  /\ clangdDocumentSelector (fst (setRoots st newRoots))
     = clangdDocumentSelector st
  /\ store (fst (setRoots st newRoots)) = store st
  /\ simpleCancelation (fst (setRoots st newRoots)) = simpleCancelation st
  /\ restartCount (fst (setRoots st newRoots)) = restartCount st.
Proof.
  intros Hbad. apply incorrectArguments_true in Hbad.
  unfold setRoots. rewrite Hbad. simpl.
  repeat split.
  unfold restartCount. simpl. rewrite filter_app. simpl.
  rewrite app_nil_r. reflexivity.
Qed.

Lemma setRoots_rejects_witness :
  let st := initialState [ruleFor "c" "/a/**/*"; ruleFor "cpp" "/a/**/*"] in
  let arg := Js.VArray [Js.VString "not"; Js.VNumber 123] in
  setRoots st arg = (emit [ConsoleLog incorrectArgumentsMessage] st, None)
  /\ clangdDocumentSelector (fst (setRoots st arg))
     = clangdDocumentSelector st
  /\ store (fst (setRoots st arg)) = store st
  /\ simpleCancelation (fst (setRoots st arg)) = simpleCancelation st
  /\ restartCount (fst (setRoots st arg)) = restartCount st.
Proof.
  apply (setRoots_rejects_non_strings
           (initialState [ruleFor "c" "/a/**/*"; ruleFor "cpp" "/a/**/*"])
           (Js.VArray [Js.VString "not"; Js.VNumber 123])).
  right. exists [Some (Js.VString "not"); Some (Js.VNumber 123)].
  split; [reflexivity|].
  exists (Js.VNumber 123). split; [right; left; reflexivity | reflexivity].
Defined.

(** C7.  The array [[ , '/a']], whose first index holds nothing, is not
    an array of strings, yet the command does not reject it: the check
    passes, because [every] skips the empty index; the loop over the
    globs reads that index as [undefined]; a [c] and a [cpp] rule whose
    pattern is [undefined] are pushed onto the live selector next to the
    two rules for [/a/**/*]; and a restart is requested, which issues
    [clangd.restart] once the client is ready. *)
Theorem setRoots_accepts_array_with_hole :
  let st := initialState [] in
  let arg := Js.VSparseArray [None; Some (Js.VString "/a")] in
  incorrectArguments arg = false
  /\ withGlobs arg = [None; Some "/a/**/*"]
  /\ clangdDocumentSelector (fst (setRoots st arg))
     = [mkFilter (Some "file") (Some "c") None;
        mkFilter (Some "file") (Some "cpp") None;
        ruleFor "c" "/a/**/*"; ruleFor "cpp" "/a/**/*"]
  /\ clangdDocumentSelector (fst (setRoots st arg))
     <> clangdDocumentSelector st
  /\ effects (fst (setRoots st arg)) = []
  /\ (exists pending,
        snd (setRoots st arg) = Some pending
        /\ restartCount (restartResume (fst (setRoots st arg)) pending Ready)
           = 1).
Proof.
  cbv zeta. split; [reflexivity|]. split; [reflexivity|].
  split; [reflexivity|]. split; [discriminate|]. split; [reflexivity|].
  exists 1. split; reflexivity.
Qed.

End SetRootsCommand.

Section Restart.

Lemma writeCanceled_length (address : nat) (b : bool)
      (objects : list CancelationObject) :
  List.length (writeCanceled address b objects) = List.length objects.
Proof.
  revert address. induction objects as [|o objects IH]; intros [|a]; simpl;
    try reflexivity.
  rewrite IH. reflexivity.
Qed.

Lemma readCanceled_written (address : nat) (objects : list CancelationObject) :
  address < List.length objects ->
  readCanceled address (writeCanceled address true objects) = true.
Proof.
  revert address. induction objects as [|o objects IH]; intros [|a]; simpl;
    try lia; [reflexivity|].
  intros H. apply (IH a). lia.
Qed.

Lemma readCanceled_app_l (address : nat)
      (objects extra : list CancelationObject) :
  address < List.length objects ->
  readCanceled address (objects ++ extra) = readCanceled address objects.
Proof.
  intros H. unfold readCanceled. rewrite nth_error_app1 by exact H.
  reflexivity.
Qed.

Lemma readCanceled_fresh (objects : list CancelationObject) :
  readCanceled (List.length objects) (objects ++ [mkCancelation false])
  = false.
Proof.
  unfold readCanceled. rewrite nth_error_app2 by lia.
  rewrite Nat.sub_diag. reflexivity.
Qed.

(** A resumed request that finds its own object canceled does nothing,
    however its wait ended. *)
Lemma restartResume_canceled (st : State) (localCancelation : nat)
      (outcome : WaitOutcome) :
  readCanceled localCancelation (store st) = true ->
  restartResume st localCancelation outcome = st.
Proof.
  intros H. unfold restartResume. rewrite H. destruct outcome; reflexivity.
Qed.

(** The request that holds the newest object restarts once when its
    wait ends with a ready client. *)
Lemma restartResume_current (st : State) :
  let (st1, localCancelation) := restartBegin st in
  restartResume st1 localCancelation Ready
  = emit [ConsoleLog restartingMessage;
          ExecuteCommand "clangd.restart";
          ConsoleLogSelector selectorMessage (clangdDocumentSelector st)]
         st1.
Proof.
  unfold restartBegin, restartResume. cbn [store clangdDocumentSelector].
  rewrite readCanceled_fresh. reflexivity.
Qed.

Lemma restartCount_emit_restart (st : State) (selectors : list DocumentFilter) :
  restartCount
    (emit [ConsoleLog restartingMessage;
           ExecuteCommand "clangd.restart";
           ConsoleLogSelector selectorMessage selectors] st)
  = S (restartCount st).
Proof.
  unfold restartCount, emit. cbn [effects]. rewrite filter_app, length_app.
  simpl. lia.
Qed.

End Restart.

Section RestartRace.

Lemma restartBegin_supersedes (st : State) :
  let b1 := restartBegin st in
  let b2 := restartBegin (fst b1) in
  readCanceled (snd b1) (store (fst b2)) = true
  /\ snd b2 = S (snd b1).
Proof.
  unfold restartBegin. cbn [fst snd store simpleCancelation].
  set (w1 := writeCanceled (simpleCancelation st) true (store st)).
  split.
  - rewrite readCanceled_app_l.
    + apply readCanceled_written. rewrite length_app. simpl. lia.
    + rewrite writeCanceled_length, length_app. simpl. lia.
  - rewrite writeCanceled_length, length_app. simpl. lia.
Qed.

(** C2.  Let R1 and then R2 be issued, R1 still waiting when R2 is
    issued.  Whenever R1 is resumed, before or after R2 and whether its
    wait ended ready or rejected, it leaves the state untouched: no
    command, no log.  R2, resumed with a ready client, logs and issues
    [clangd.restart] once.  In both orders exactly one restart is
    issued.  In general a resumed request whose object has been
    canceled changes nothing. *)
Theorem restart_race_only_latest_restarts (st : State) (o1 : WaitOutcome) :
  let b1 := restartBegin st in
  let b2 := restartBegin (fst b1) in
  let r1 := snd b1 in
  let r2 := snd b2 in
  let st2 := fst b2 in
  r1 <> r2
  /\ restartResume st2 r1 o1 = st2
  /\ restartResume st2 r2 Ready
     = emit [ConsoleLog restartingMessage;
             ExecuteCommand "clangd.restart";
             ConsoleLogSelector selectorMessage (clangdDocumentSelector st)]
            st2
  /\ restartResume (restartResume st2 r2 Ready) r1 o1
     = restartResume st2 r2 Ready
  /\ restartCount (restartResume (restartResume st2 r1 o1) r2 Ready)
     = S (restartCount st)
  /\ restartCount (restartResume (restartResume st2 r2 Ready) r1 o1)
     = S (restartCount st)
  /\ (forall (st' : State) (localCancelation : nat) (o : WaitOutcome),
         readCanceled localCancelation (store st') = true ->
         restartResume st' localCancelation o = st').
Proof.
  cbv zeta.
  destruct (restartBegin_supersedes st) as [Hcanceled Hnext].
  cbv zeta in Hcanceled, Hnext.
  pose proof (restartResume_current (fst (restartBegin st))) as Hcur.
  destruct (restartBegin st) as [st1 r1] eqn:E1.
  cbn [fst snd] in *.
  assert (clangdDocumentSelector st1 = clangdDocumentSelector st
          /\ effects st1 = effects st) as [Hsel1 Heff1].
  { unfold restartBegin in E1. injection E1 as <- _. split; reflexivity. }
  destruct (restartBegin st1) as [st2 r2] eqn:E2.
  cbn [fst snd] in *.
  assert (effects st2 = effects st1) as Heff2.
  { unfold restartBegin in E2. injection E2 as <- _. reflexivity. }
  assert (restartCount st2 = restartCount st) as Hcount
      by (unfold restartCount; rewrite Heff2, Heff1; reflexivity).
  rewrite Hsel1 in Hcur.
  assert (restartResume st2 r1 o1 = st2) as Hr1
      by (apply restartResume_canceled; exact Hcanceled).
  split; [lia|]. split; [exact Hr1|]. split; [exact Hcur|].
  split.
  { rewrite Hcur. apply restartResume_canceled. exact Hcanceled. }
  split.
  { rewrite Hr1, Hcur, restartCount_emit_restart. congruence. }
  split.
  { rewrite Hcur. rewrite restartResume_canceled by exact Hcanceled.
    rewrite restartCount_emit_restart. congruence. }
  intros st' l o H. apply restartResume_canceled. exact H.
Qed.

Lemma restart_race_witness :
  let st := initialState [] in
  let b1 := restartBegin st in
  let b2 := restartBegin (fst b1) in
  restartResume (fst b2) (snd b1) Ready = fst b2
  /\ restartCount (restartResume (restartResume (fst b2) (snd b1) Ready)
                                 (snd b2) Ready) = 1.
Proof.
  pose proof (restart_race_only_latest_restarts (initialState []) Ready)
    as H. cbv zeta in H.
  destruct H as (_ & _ & _ & _ & Hcount & _ & Hgeneral).
  split; [|exact Hcount].
  apply Hgeneral. reflexivity.
Defined.

End RestartRace.

Section ClearRoots.

Lemma no_elements_nil {A} (l : list A) : (forall x, ~ In x l) -> l = [].
Proof.
  destruct l as [|x l]; [reflexivity|].
  intros H. exfalso. apply (H x). simpl. auto.
Qed.

Lemma compare_empty (selectors : list DocumentFilter) :
  compareCurrentAndDesiredRoots selectors []
  = mkDelta [] (Js.newSet (getCurrentRoots selectors)).
Proof. reflexivity. Qed.

Lemma kept_roots_empty (selectors : list DocumentFilter) :
  getCurrentRoots
    (filter (keeps (Js.newSet (getCurrentRoots selectors))) selectors) = [].
Proof.
  apply no_elements_nil. intros x Hin.
  apply In_kept_roots in Hin as [Hin Hnot].
  apply Hnot. apply newSet_In. exact Hin.
Qed.

Lemma keeps_single (g : string) (selectors : list DocumentFilter) :
  filter (keeps [g]) selectors
  = filter (fun item => negb (patternIs g item)) selectors.
Proof.
  apply filter_ext. intros item. unfold keeps. simpl.
  rewrite orb_false_r. reflexivity.
Qed.

Lemma filter_nothing {A} (pred : A -> bool) (l : list A) :
  (forall x, In x l -> pred x = true) -> filter pred l = l.
Proof.
  induction l as [|x l IH]; simpl; [reflexivity|].
  intros H. rewrite (H x) by auto. f_equal. apply IH. auto.
Qed.

Lemma patternIs_ruleFor (lang g : string) : patternIs g (ruleFor lang g) = true.
Proof. unfold patternIs. simpl. apply String.eqb_refl. Qed.

(** The state right after [setRoots([root])] on a selector without
    managed rules. *)
Lemma setRoots_single_root (st : State) (root : string) :
  getCurrentRoots (clangdDocumentSelector st) = [] ->
  clangdDocumentSelector (fst (setRoots st (Js.VArray [Js.VString root])))
  = clangdDocumentSelector st
    ++ [ruleFor "c" (rootGlob root); ruleFor "cpp" (rootGlob root)].
Proof.
  intros Hnone.
  change (Js.VArray [Js.VString root])
    with (Js.VArray (map Js.VString [root])).
  rewrite setRoots_dense. unfold setRootsOfStrings.
  unfold compareCurrentAndDesiredRoots.
  rewrite Hnone. simpl.
  unfold reconcileSelectorsAndTargets. simpl. reflexivity.
Qed.

(** C4.  An empty list leaves no managed rule in the live selector and
    adds none: the selector keeps exactly the rules whose pattern was
    not a managed glob.  When one root had been set on a selector
    without managed rules, the empty list removes that root's [c] and
    [cpp] rules, the command suspends in one restart request, nothing
    is logged meanwhile, and resuming that request with a ready client
    issues [clangd.restart] once. *)
Theorem setRoots_empty_clears_managed_rules (st : State) :
  (let after := fst (setRoots st (Js.VArray [])) in
   clangdDocumentSelector after
   = filter (keeps (Js.newSet (getCurrentRoots (clangdDocumentSelector st))))
            (clangdDocumentSelector st)
   /\ getCurrentRoots (clangdDocumentSelector after) = [])
  /\ (forall root : string,
         getCurrentRoots (clangdDocumentSelector st) = [] ->
         let g := rootGlob root in
         let st1 := fst (setRoots st (Js.VArray [Js.VString root])) in
         let r := setRoots st1 (Js.VArray []) in
         let st2 := fst r in
         In (ruleFor "c" g) (clangdDocumentSelector st1)
         /\ In (ruleFor "cpp" g) (clangdDocumentSelector st1)
         /\ clangdDocumentSelector st2
            = filter (fun item => negb (patternIs g item))
                     (clangdDocumentSelector st)
         /\ ~ In (ruleFor "c" g) (clangdDocumentSelector st2)
         /\ ~ In (ruleFor "cpp" g) (clangdDocumentSelector st2)
         /\ effects st2 = effects st1
         /\ exists pending,
             snd r = Some pending
             /\ restartCount (restartResume st2 pending Ready)
                = S (restartCount st2)).
Proof.
  assert (forall s, clangdDocumentSelector (fst (setRoots s (Js.VArray [])))
                    = filter (keeps (Js.newSet (getCurrentRoots
                                                  (clangdDocumentSelector s))))
                             (clangdDocumentSelector s)) as Hgeneral.
  { intros s.
    change (Js.VArray []) with (Js.VArray (map Js.VString [])).
    rewrite setRoots_dense. unfold setRootsOfStrings.
    rewrite compare_empty. cbn [toAdds toDeletes].
    rewrite reconcile_spec. simpl rulesFor. rewrite app_nil_r.
    destruct (negb (Nat.eqb (Js.size _) 0) || _); reflexivity. }
  split.
  - cbv zeta. rewrite Hgeneral. split; [reflexivity|].
    apply kept_roots_empty.
  - intros root Hnone. cbv zeta.
    pose proof (setRoots_single_root st root Hnone) as Hsel1.
    set (g := rootGlob root) in *.
    set (st1 := fst (setRoots st (Js.VArray [Js.VString root]))) in *.
    assert (Js.newSet (getCurrentRoots (clangdDocumentSelector st1)) = [g])
      as Hcur.
    { rewrite Hsel1, getCurrentRoots_app, Hnone. simpl.
      unfold Js.newSet. simpl. unfold Js.add, Js.has. simpl.
      rewrite String.eqb_refl. reflexivity. }
    assert (clangdDocumentSelector (fst (setRoots st1 (Js.VArray [])))
            = filter (fun item => negb (patternIs g item))
                     (clangdDocumentSelector st)) as Hsel2.
    { rewrite Hgeneral, Hcur, keeps_single, Hsel1, filter_app.
      cbn [filter]. rewrite !patternIs_ruleFor. simpl.
      apply app_nil_r. }
    split; [rewrite Hsel1; apply in_app_iff; simpl; auto|].
    split; [rewrite Hsel1; apply in_app_iff; simpl; auto|].
    split; [exact Hsel2|].
    split.
    { rewrite Hsel2, filter_In. intros [_ H].
      rewrite patternIs_ruleFor in H. discriminate. }
    split.
    { rewrite Hsel2, filter_In. intros [_ H].
      rewrite patternIs_ruleFor in H. discriminate. }
    change (Js.VArray []) with (Js.VArray (map Js.VString [])).
    rewrite setRoots_dense. unfold setRootsOfStrings.
    rewrite compare_empty. cbn [toAdds toDeletes].
    rewrite Hcur.
    change (negb (Nat.eqb (Js.size [g]) 0)
            || negb (Nat.eqb (List.length (@nil string)) 0)) with true.
    cbv iota.
    set (st1' := mkState _ _ _ _).
    pose proof (restartResume_current st1') as Hresume.
    destruct (restartBegin st1') as [st2 pending] eqn:E.
    cbn [fst snd]. split.
    { unfold restartBegin in E. injection E as <- _. reflexivity. }
    exists pending. split; [reflexivity|].
    rewrite Hresume. apply restartCount_emit_restart.
Qed.

Lemma setRoots_empty_witness :
  let st := initialState [mkFilter (Some "file") (Some "cuda") None] in
  let st1 := fst (setRoots st (Js.VArray [Js.VString "/a/b"])) in
  let r := setRoots st1 (Js.VArray []) in
  clangdDocumentSelector st1
  = [mkFilter (Some "file") (Some "cuda") None;
     ruleFor "c" "/a/b/**/*"; ruleFor "cpp" "/a/b/**/*"]
  /\ clangdDocumentSelector (fst r)
     = [mkFilter (Some "file") (Some "cuda") None]
  /\ exists pending,
      snd r = Some pending
      /\ restartCount (restartResume (fst r) pending Ready)
         = S (restartCount (fst r)).
Proof.
  pose proof (proj2 (setRoots_empty_clears_managed_rules
                       (initialState
                          [mkFilter (Some "file") (Some "cuda") None]))
                    "/a/b" eq_refl) as H.
  cbv zeta in H.
  destruct H as (_ & _ & Hsel & _ & _ & _ & Hrestart).
  split; [reflexivity|]. split; [exact Hsel | exact Hrestart].
Defined.

End ClearRoots.

(** * Properties of [extension.ts] *)

Import Extension.

Section Resolver.

Lemma insertByLength_perm (x : string) (l : list string) :
  Permutation (insertByLength x l) (x :: l).
Proof.
  induction l as [|y l IH]; simpl; [reflexivity|].
  destruct (Nat.leb (String.length x) (String.length y)); [reflexivity|].
  rewrite IH. apply perm_swap.
Qed.

Lemma sortByLength_perm (l : list string) : Permutation (sortByLength l) l.
Proof.
  induction l as [|x l IH]; simpl; [constructor|].
  rewrite insertByLength_perm. constructor. exact IH.
Qed.

Lemma insertByLength_sorted (x : string) (l : list string) :
  StronglySorted shorterOrEqual l ->
  StronglySorted shorterOrEqual (insertByLength x l).
Proof.
  induction 1 as [|y l Hsorted IH Hall]; simpl.
  - repeat constructor.
  - destruct (Nat.leb_spec (String.length x) (String.length y)) as [Hle|Hgt].
    + constructor; [constructor; assumption|].
      constructor; [exact Hle|].
      eapply Forall_impl; [|exact Hall].
      unfold shorterOrEqual. intros a Ha. lia.
    + constructor; [exact IH|].
      eapply Permutation_Forall;
        [symmetry; apply insertByLength_perm|].
      constructor; [unfold shorterOrEqual; lia | exact Hall].
Qed.

Lemma sortByLength_sorted (l : list string) :
  StronglySorted shorterOrEqual (sortByLength l).
Proof.
  induction l as [|x l IH]; simpl; [constructor|].
  apply insertByLength_sorted. exact IH.
Qed.

Lemma computeSorted_perm (host : Host) :
  Permutation (computeSorted host) (configuredUris host).
Proof.
  unfold computeSorted, configuredUris.
  destruct (workspaceFolders host); [apply sortByLength_perm | constructor].
Qed.

Lemma computeSorted_sorted (host : Host) :
  StronglySorted shorterOrEqual (computeSorted host).
Proof.
  unfold computeSorted.
  destruct (workspaceFolders host); [apply sortByLength_sorted | constructor].
Qed.

Lemma firstPrefix_find (uri : string) (sorted : list string) :
  firstPrefix uri sorted = find (fun e => Js.startsWith uri e) sorted.
Proof.
  induction sorted as [|e l IH]; simpl; [reflexivity|].
  destruct (Js.startsWith uri e); [reflexivity | exact IH].
Qed.

(** In a list sorted by length, the first match is a shortest match. *)
Lemma find_sorted_shortest (pred : string -> bool) (sorted : list string)
      (e : string) :
  StronglySorted shorterOrEqual sorted ->
  find pred sorted = Some e ->
  forall e', In e' sorted -> pred e' = true ->
             String.length e <= String.length e'.
Proof.
  induction 1 as [|y l Hsorted IH Hall]; simpl; [discriminate|].
  destruct (pred y) eqn:Hy.
  - intros [= <-] e' [<-|Hin] _; [lia|].
    rewrite Forall_forall in Hall. apply Hall. exact Hin.
  - intros Hfind e' [<-|Hin] He'; [congruence|].
    apply IH; assumption.
Qed.

Lemma sortedWorkspaceFolders_coherent (host : Host) (w : World) :
  cacheCoherent host w ->
  snd (sortedWorkspaceFolders host w) = Normal (computeSorted host)
  /\ sortedCache (fst (sortedWorkspaceFolders host w))
     = Some (computeSorted host)
  /\ clients (fst (sortedWorkspaceFolders host w)) = clients w
  /\ heap (fst (sortedWorkspaceFolders host w)) = heap w.
Proof.
  unfold sortedWorkspaceFolders, bind, get, modify, ret.
  intros [Hnone|Hsome].
  - rewrite Hnone. simpl. auto.
  - rewrite Hsome. simpl. auto.
Qed.

End Resolver.

Section Outermost.

Lemma lastCharAt_cons (c c' : ascii) (s : string) :
  Js.lastCharAt (String c (String c' s)) = Js.lastCharAt (String c' s).
Proof. reflexivity. Qed.

(** The test on the last character is the test [endsWith('/')]. *)
Lemma lastCharAt_endsWith (s : string) :
  String.eqb (Js.lastCharAt s) "/" = Js.endsWith s "/".
Proof.
  induction s as [|c s IH]; [reflexivity|].
  destruct s as [|c' s].
  - cbn [Js.endsWith]. unfold Js.lastCharAt, Js.charAt. simpl.
    destruct (Ascii.eqb c "/"); reflexivity.
  - rewrite lastCharAt_cons, IH. cbn [Js.endsWith].
    replace (String.eqb (String c (String c' s)) "/") with false;
      [reflexivity|].
    simpl. destruct (Ascii.eqb c "/"); reflexivity.
Qed.

Lemma withTrailingSlash_normalizes (s : string) :
  withTrailingSlash s = endingWithSeparator s.
Proof.
  unfold withTrailingSlash, endingWithSeparator.
  rewrite lastCharAt_endsWith. reflexivity.
Qed.

Lemma endingWithSeparator_endsWith (s : string) :
  Js.endsWith (endingWithSeparator s) "/" = true.
Proof.
  unfold endingWithSeparator. destruct (Js.endsWith s "/") eqn:E; [exact E|].
  apply endsWith_iff. exists s. reflexivity.
Qed.

Lemma withTrailingSlash_endsWith (s : string) :
  Js.endsWith (withTrailingSlash s) "/" = true.
Proof. rewrite withTrailingSlash_normalizes. apply endingWithSeparator_endsWith. Qed.

Lemma configuredUris_normalized (host : Host) :
  configuredUris host = map endingWithSeparator (folderTexts host).
Proof.
  unfold configuredUris, folderTexts.
  destruct (workspaceFolders host) as [folders|]; [|reflexivity].
  rewrite map_map. apply map_ext. intros folder.
  apply withTrailingSlash_normalizes.
Qed.

(** C6.  Write [uri] for the folder's URI made to end with a separator
    (left alone when it ends with one, a separator appended when it does
    not).  With a coherent cache, the lookup answers the folder the host
    resolves for the first element that [uri] starts with, in the list
    of the configured folder URIs, each made to end with a separator the
    same way, sorted ascending by length; that element is a shortest
    configured prefix; when there is none the lookup answers the folder
    it was given.  The cache stays coherent.  With folders [/ws/] and
    [/ws/pkg/] configured, the lookup for [/ws/pkg/] answers [/ws/]; so
    it does when the URIs are given as [/ws] and [/ws/pkg], and there
    the lookup for a configured [/ws2] answers [/ws2], not [/ws]. *)
Theorem outermost_is_first_prefix_by_length
        (host : Host) (w : World) (folder : WorkspaceFolder) :
  cacheCoherent host w ->
  let uri := endingWithSeparator (uriText (folderUri folder)) in
  let configured := map endingWithSeparator (folderTexts host) in
  let result := getOuterMostWorkspaceFolder host folder w in
  Js.endsWith uri "/" = true
  /\ (exists sorted,
         Permutation sorted configured
         /\ Forall (fun e => Js.endsWith e "/" = true) sorted
         /\ StronglySorted shorterOrEqual sorted
         /\ snd result
            = Normal (match find (fun e => Js.startsWith uri e) sorted with
                      | Some e => getWorkspaceFolder host (parseUri host e)
                      | None => Some folder
                      end)
         /\ forall e, find (fun e => Js.startsWith uri e) sorted = Some e ->
                      Js.startsWith uri e = true
                      /\ In e configured
                      /\ forall e', In e' configured ->
                                    Js.startsWith uri e' = true ->
                                    String.length e <= String.length e')
  /\ cacheCoherent host (fst result)
  /\ snd (getOuterMostWorkspaceFolder (Sample.host (Js.VString "any"))
                                      Sample.pkg initialWorld)
     = Normal (Some Sample.ws)
  /\ snd (getOuterMostWorkspaceFolder Bare.host Bare.pkg initialWorld)
     = Normal (Some Bare.ws)
  /\ snd (getOuterMostWorkspaceFolder Bare.host Bare.ws2 initialWorld)
     = Normal (Some Bare.ws2).
Proof.
  intros Hcache uri configured result.
  destruct (sortedWorkspaceFolders_coherent host w Hcache)
    as (Hret & Hcache' & _ & _).
  assert (Permutation (computeSorted host) configured) as Hperm.
  { unfold configured. rewrite <- configuredUris_normalized.
    apply computeSorted_perm. }
  assert (result
          = (fst (sortedWorkspaceFolders host w),
             Normal (match firstPrefix uri (computeSorted host) with
                     | Some e => getWorkspaceFolder host (parseUri host e)
                     | None => Some folder
                     end))) as Hresult.
  { unfold result, getOuterMostWorkspaceFolder, bind.
    destruct (sortedWorkspaceFolders host w) as [w' c]. simpl in *.
    rewrite Hret, withTrailingSlash_normalizes. fold uri.
    destruct (firstPrefix uri (computeSorted host)); reflexivity. }
  split; [apply endingWithSeparator_endsWith|].
  split; [|split; [|repeat split; reflexivity]].
  - exists (computeSorted host).
    split; [exact Hperm|].
    split.
    { apply Forall_forall. intros e Hin.
      apply (Permutation_in _ Hperm) in Hin. unfold configured in Hin.
      apply in_map_iff in Hin as [text [<- _]].
      apply endingWithSeparator_endsWith. }
    split; [apply computeSorted_sorted|].
    split; [rewrite Hresult, firstPrefix_find; reflexivity|].
    intros e Hfind. split; [|split].
    + apply find_some in Hfind. tauto.
    + apply find_some in Hfind as [Hin _].
      eapply Permutation_in; [exact Hperm | exact Hin].
    + intros e' Hin' Hpre'.
      apply (find_sorted_shortest (fun e => Js.startsWith uri e)
                                  (computeSorted host) e
                                  (computeSorted_sorted host) Hfind);
        [|exact Hpre'].
      eapply Permutation_in; [symmetry; exact Hperm | exact Hin'].
  - rewrite Hresult. right. exact Hcache'.
Qed.

Lemma outermost_witness :
  Js.endsWith (endingWithSeparator (uriText (folderUri Bare.ws2))) "/" = true
  /\ endingWithSeparator (uriText (folderUri Bare.ws2)) = "file:///ws2/"
  /\ snd (getOuterMostWorkspaceFolder
            Bare.host Bare.ws2
            (mkWorld [] [] 0
                     (Some ["file:///ws/"; "file:///ws2/"; "file:///ws/pkg/"])
                     []))
     = Normal (Some Bare.ws2)
  /\ snd (getOuterMostWorkspaceFolder
            Bare.host Bare.pkg
            (mkWorld [] [] 0
                     (Some ["file:///ws/"; "file:///ws2/"; "file:///ws/pkg/"])
                     []))
     = Normal (Some Bare.ws)
  /\ cacheCoherent
       Bare.host
       (fst (getOuterMostWorkspaceFolder
               Bare.host Bare.ws2
               (mkWorld [] [] 0
                        (Some ["file:///ws/"; "file:///ws2/";
                               "file:///ws/pkg/"])
                        []))).
Proof.
  assert (cacheCoherent
            Bare.host
            (mkWorld [] [] 0
                     (Some ["file:///ws/"; "file:///ws2/"; "file:///ws/pkg/"])
                     []))
    as Hcache by (right; reflexivity).
  destruct (outermost_is_first_prefix_by_length
              Bare.host
              (mkWorld [] [] 0
                       (Some ["file:///ws/"; "file:///ws2/";
                              "file:///ws/pkg/"])
                       [])
              Bare.ws2 Hcache) as (Hends & _ & Hcoherent & _).
  split; [exact Hends|]. split; [reflexivity|]. split; [reflexivity|].
  split; [reflexivity | exact Hcoherent].
Defined.

End Outermost.

Section FolderAdded.

(** Whatever the world, a folder whose setting is ["any"] or
    ["compile"] passes through the added-folder loop untouched. *)
Lemma addedFolder_owned_noop (host : Host) (folder : WorkspaceFolder)
      (w : World) :
  notOwned (cppLanguageClient host (folderUri folder)) = false ->
  addedFolder host folder w = (w, Normal tt).
Proof. intros H. unfold addedFolder. rewrite H. reflexivity. Qed.

(** C1 (the code at the failing input).  A folder is added whose
    setting is ["any"] and for which no client is registered: the
    handler creates no client.  The same folder with a setting outside
    ["any"] and ["compile"] gets a client, created and started. *)
Theorem added_folder_guard_is_inverted :
  let added := onDidChangeWorkspaceFolders
                 (Sample.host (Js.VString "any")) [Sample.ws] []
                 initialWorld in
  let added' := onDidChangeWorkspaceFolders
                  (Sample.host (Js.VString "off")) [Sample.ws] []
                  initialWorld in
  mapGet (clients initialWorld) Sample.ws = None
  /\ mapGet (clients (fst added)) Sample.ws = None
  /\ heap (fst added) = []
  /\ calls (fst added) = []
  /\ mapGet (clients (fst added')) Sample.ws = Some 0
  /\ isRunning (fst added') 0 = true
  /\ snd (didOpenTextDocument (Sample.host (Js.VString "any"))
                              Sample.document initialWorld) = Normal tt
  /\ mapGet (clients (fst (didOpenTextDocument
                             (Sample.host (Js.VString "any"))
                             Sample.document initialWorld))) Sample.ws
     = Some 0.
Proof. repeat split. Qed.

End FolderAdded.

Section Dispose.

(** What [dispose()] does on its own side of the library boundary.  It
    never throws by itself.  When no start handle is recorded it
    changes nothing.  When a handle is recorded, each call forwards to
    that handle's [dispose()] and leaves the field as it was, so two
    calls in succession forward twice.  What the handle does with the
    second call is the library's business and is not settled here. *)
Theorem dispose_forwards_to_recorded_handle (client : nat) (w : World) :
  snd (dispose client w) = Normal tt
  /\ snd (dispose client (fst (dispose client w))) = Normal tt
  /\ match nth_error (heap w) client with
     | Some o =>
         match startDisposable o with
         | Some handle =>
             calls (fst (dispose client w))
             = calls w ++ [DisposeHandle client handle]
             /\ calls (disposedTwice client w)
                = calls w ++ [DisposeHandle client handle;
                              DisposeHandle client handle]
             /\ isRunning (fst (dispose client w)) client = false
         | None => dispose client w = (w, Normal tt)
         end
     | None => dispose client w = (w, Normal tt)
     end.
Proof.
  unfold disposedTwice, dispose, bind, get.
  destruct (nth_error (heap w) client) as [o|] eqn:Hobj.
  - destruct (startDisposable o) as [handle|] eqn:Hhandle.
    + unfold disposeHandle, call, setRunning, bind, modify, ret.
      cbn [fst snd heap calls].
      assert (nth_error
                (updateAt client
                   (fun o => mkClient (clientRoot o) (startDisposable o) false)
                   (heap w)) client
              = Some (mkClient (clientRoot o) (startDisposable o) false))
        as Hupd.
      { clear Hhandle. revert client Hobj.
        induction (heap w) as [|x l IH]; intros [|c]; simpl;
          try discriminate.
        - intros [= ->]. reflexivity.
        - apply IH. }
      rewrite Hupd. cbn [startDisposable]. rewrite Hhandle.
      cbn [fst snd heap calls].
      repeat split.
      * rewrite <- app_assoc. reflexivity.
      * unfold isRunning. cbn [heap]. rewrite Hupd. reflexivity.
    + unfold ret. cbn [fst snd]. rewrite Hobj, Hhandle. repeat split.
  - unfold ret. cbn [fst snd]. rewrite Hobj. repeat split.
Qed.

(** After [activate()], the second of two [dispose()] calls reaches the
    start handle again. *)
Lemma second_dispose_forwards_again :
  let w0 := fst (createClient Sample.wsUri initialWorld) in
  let w1 := fst (activate 0 w0) in
  let once := fst (dispose 0 w1) in
  let twice := fst (dispose 0 once) in
  isRunning once 0 = false
  /\ calls once
     = [LogPreparing Sample.wsUri; Start 0; DisposeHandle 0 0]
  /\ calls twice
     = [LogPreparing Sample.wsUri; Start 0; DisposeHandle 0 0;
        DisposeHandle 0 0]
  /\ twice <> once.
Proof. repeat split. discriminate. Qed.

End Dispose.

Section RegistryFacts.

Lemma nth_error_updateAt (address : nat)
      (f : ClangdLanguageClient -> ClangdLanguageClient)
      (objects : list ClangdLanguageClient) (i : nat) :
  nth_error (updateAt address f objects) i
  = if Nat.eqb i address then option_map f (nth_error objects i)
    else nth_error objects i.
Proof.
  revert address i.
  induction objects as [|o objects IH]; intros [|a] [|i]; simpl;
    try reflexivity.
  - destruct (Nat.eqb i a); reflexivity.
  - apply IH.
Qed.

Lemma updateAt_length (address : nat)
      (f : ClangdLanguageClient -> ClangdLanguageClient)
      (objects : list ClangdLanguageClient) :
  List.length (updateAt address f objects) = List.length objects.
Proof.
  revert address. induction objects as [|o objects IH]; intros [|a]; simpl;
    try reflexivity.
  rewrite IH. reflexivity.
Qed.

Lemma mapGet_None_keys (m : list (WorkspaceFolder * nat))
      (k : WorkspaceFolder) :
  mapGet m k = None
  <-> ~ In (folderRef k) (map (fun kv => folderRef (fst kv)) m).
Proof.
  induction m as [|[k' v] m IH]; simpl; [tauto|].
  unfold sameFolder.
  destruct (Nat.eqb_spec (folderRef k) (folderRef k')) as [Heq|Hne].
  - split; [discriminate|]. intros H. exfalso. apply H. left. auto.
  - rewrite IH. split; [intros H [Heq|Hin]; [congruence|tauto] | tauto].
Qed.

Lemma mapGet_Some_In (m : list (WorkspaceFolder * nat))
      (k : WorkspaceFolder) (v : nat) :
  mapGet m k = Some v -> In v (mapValues m).
Proof.
  induction m as [|[k' v'] m IH]; simpl; [discriminate|].
  destruct (sameFolder k k'); [intros [= ->]; auto | auto].
Qed.

Lemma mapSet_absent (m : list (WorkspaceFolder * nat))
      (k : WorkspaceFolder) (v : nat) :
  mapGet m k = None -> mapSet m k v = m ++ [(k, v)].
Proof.
  induction m as [|[k' v'] m IH]; simpl; [reflexivity|].
  destruct (sameFolder k k'); [discriminate|].
  intros H. rewrite IH by exact H. reflexivity.
Qed.

Lemma mapDelete_keys (m : list (WorkspaceFolder * nat))
      (k : WorkspaceFolder) :
  NoDup (map (fun kv => folderRef (fst kv)) m) ->
  NoDup (map (fun kv => folderRef (fst kv)) (mapDelete m k)).
Proof.
  induction m as [|[k' v'] m IH]; simpl; [auto|].
  intros Hnd. inversion Hnd as [|? ? Hnotin Hnd']; subst.
  destruct (sameFolder k k'); simpl; [apply IH; exact Hnd'|].
  constructor; [|apply IH; exact Hnd'].
  intros Hin. apply Hnotin.
  apply in_map_iff in Hin as [kv [Heq Hin]].
  apply filter_In in Hin as [Hin _].
  apply in_map_iff. exists kv. auto.
Qed.

(** With distinct folders and distinct clients, deleting the folder
    registered for [v] removes [v] and nothing else. *)
Lemma mapDelete_values (m : list (WorkspaceFolder * nat))
      (k : WorkspaceFolder) (v : nat) :
  NoDup (map (fun kv => folderRef (fst kv)) m) ->
  NoDup (mapValues m) ->
  mapGet m k = Some v ->
  NoDup (mapValues (mapDelete m k))
  /\ forall x, In x (mapValues (mapDelete m k))
               <-> In x (mapValues m) /\ x <> v.
Proof.
  induction m as [|[k' v'] m IH]; [discriminate|].
  intros Hkeys Hvals.
  inversion Hkeys as [|? ? Hknot Hkeys']; subst.
  inversion Hvals as [|? ? Hvnot Hvals']; subst.
  unfold mapDelete. cbn [mapGet filter fst].
  fold (mapDelete m k).
  destruct (sameFolder k k') eqn:Hsame; cbn [negb].
  - intros [= ->].
    apply Nat.eqb_eq in Hsame.
    assert (mapDelete m k = m) as ->.
    { unfold mapDelete. apply filter_nothing. intros [k2 v2] Hin. simpl.
      unfold sameFolder.
      destruct (Nat.eqb_spec (folderRef k) (folderRef k2)) as [Heq2|];
        [|reflexivity].
      exfalso. apply Hknot. simpl. rewrite <- Hsame, Heq2.
      apply in_map_iff. exists (k2, v2). auto. }
    split; [exact Hvals'|].
    intros x. simpl. split.
    + intros Hin. split; [auto|]. intros Hx. subst x. contradiction.
    + intros [[Hx|Hin] Hne]; [congruence | exact Hin].
  - intros Hget. destruct (IH Hkeys' Hvals' Hget) as [Hnd Hiff].
    simpl. split.
    + constructor; [|exact Hnd]. rewrite Hiff. tauto.
    + intros x. rewrite Hiff. split.
      * intros [Hx|[Hin Hx]]; [|tauto]. subst x.
        split; [auto|]. intros Hx. subst v'. apply Hvnot.
        eapply mapGet_Some_In. exact Hget.
      * intros [[Hx|Hin] Hx']; [auto | right; auto].
Qed.

(** Registering a freshly created and started client under a folder
    without one. *)
Lemma consistent_register (m : list (WorkspaceFolder * nat))
      (objects : list ClangdLanguageClient) (k : WorkspaceFolder)
      (path : Uri) :
  consistent m objects ->
  mapGet m k = None ->
  consistent
    (mapSet m k (List.length objects))
    (updateAt (List.length objects)
              (fun o => mkClient (clientRoot o) (startDisposable o) true)
              (objects ++ [mkClient path None false])).
Proof.
  intros (Hkeys & Hvals & Hrun) Hget.
  assert (~ In (List.length objects) (mapValues m)) as Hfresh.
  { intros Hin. apply Hrun in Hin.
    rewrite (proj2 (nth_error_None objects (List.length objects)))
      in Hin by lia.
    discriminate. }
  rewrite (mapSet_absent m k _ Hget).
  unfold consistent, mapValues. rewrite !map_app. simpl.
  split; [|split].
  - apply NoDup_app; [exact Hkeys | repeat constructor; simpl; tauto |].
    intros x Hx [<-|[]]. apply mapGet_None_keys in Hget. contradiction.
  - apply NoDup_app; [exact Hvals | repeat constructor; simpl; tauto |].
    intros x Hx [<-|[]]. contradiction.
  - intros c. rewrite nth_error_updateAt, in_app_iff. simpl.
    destruct (Nat.eqb_spec c (List.length objects)) as [->|Hne].
    + rewrite nth_error_app2 by lia. rewrite Nat.sub_diag. simpl.
      split; auto.
    + destruct (Nat.lt_ge_cases c (List.length objects)) as [Hlt|Hge].
      * rewrite nth_error_app1 by exact Hlt. rewrite Hrun.
        unfold mapValues. intuition congruence.
      * rewrite (proj2 (nth_error_None (objects ++ [mkClient path None false]) c))
          by (rewrite length_app; simpl; lia).
        split; [discriminate|].
        intros [Hin|[Heq|[]]]; [|congruence].
        exfalso. apply Hrun in Hin.
        rewrite (proj2 (nth_error_None objects c)) in Hin by lia.
        discriminate.
Qed.

(** Stopping a registered client and deleting its folder, in either
    order. *)
Lemma consistent_unregister (m : list (WorkspaceFolder * nat))
      (objects : list ClangdLanguageClient) (k : WorkspaceFolder)
      (client : nat) :
  consistent m objects ->
  mapGet m k = Some client ->
  consistent
    (mapDelete m k)
    (updateAt client
              (fun o => mkClient (clientRoot o) (startDisposable o) false)
              objects).
Proof.
  intros (Hkeys & Hvals & Hrun) Hget.
  destruct (mapDelete_values m k client Hkeys Hvals Hget) as [Hnd Hiff].
  split; [apply mapDelete_keys; exact Hkeys|]. split; [exact Hnd|].
  intros c. rewrite nth_error_updateAt, Hiff.
  destruct (Nat.eqb_spec c client) as [->|Hne].
  - destruct (nth_error objects client); simpl; split;
      try discriminate; tauto.
  - rewrite Hrun. tauto.
Qed.

End RegistryFacts.

Section HandlerFacts.

Lemma forEach_preserves {A} (P : World -> Prop) (body : A -> M unit) :
  (forall x w, P w -> P (fst (body x w))) ->
  forall xs w, P w -> P (fst (forEach body xs w)).
Proof.
  intros Hbody. induction xs as [|x xs IH]; intros w Hw; simpl; [exact Hw|].
  unfold bind. specialize (Hbody x w Hw).
  destruct (body x w) as [w' [u|]]; simpl in *; [apply IH|]; exact Hbody.
Qed.

Lemma bind_preserves {A B} (P : World -> Prop) (m : M A) (k : A -> M B) :
  (forall w, P w -> P (fst (m w))) ->
  (forall a w, P w -> P (fst (k a w))) ->
  forall w, P w -> P (fst (bind m k w)).
Proof.
  intros Hm Hk w Hw. unfold bind. specialize (Hm w Hw).
  destruct (m w) as [w' [a|]]; simpl in *; [apply Hk|]; exact Hm.
Qed.

Lemma getOuterMost_frame (host : Host) (folder : WorkspaceFolder) (w : World) :
  clients (fst (getOuterMostWorkspaceFolder host folder w)) = clients w
  /\ heap (fst (getOuterMostWorkspaceFolder host folder w)) = heap w.
Proof.
  unfold getOuterMostWorkspaceFolder, sortedWorkspaceFolders, bind, get,
    modify, ret.
  destruct (sortedCache w) as [sorted|]; cbn [fst snd].
  - destruct (firstPrefix _ sorted); split; reflexivity.
  - destruct (firstPrefix _ (computeSorted host)); split; reflexivity.
Qed.

Lemma registersFresh_consistent (w w' : World) :
  Consistent w -> registersFresh w w' -> Consistent w'.
Proof.
  unfold Consistent.
  intros Hc [[-> ->]|(folder & path & Hget & -> & ->)]; [exact Hc|].
  apply consistent_register; assumption.
Qed.

Lemma registersFresh_creates (w w' : World) :
  registersFresh w w' -> createsOnlyWhenAbsent w w'.
Proof.
  intros [H|(folder & path & Hget & Hclients & Hheap)]; [left; exact H|].
  right. exists folder. split; [exact Hget|]. split; [exact Hclients|].
  split.
  - rewrite Hheap, updateAt_length, length_app. simpl. lia.
  - unfold isRunning. rewrite Hheap, nth_error_updateAt, Nat.eqb_refl.
    rewrite nth_error_app2 by lia. rewrite Nat.sub_diag. reflexivity.
Qed.

Lemma didOpenTextDocument_shape (host : Host) (document : TextDocument)
      (w : World) :
  registersFresh w (fst (didOpenTextDocument host document w)).
Proof.
  unfold didOpenTextDocument.
  destruct (negb _ && negb _); [left; split; reflexivity|].
  destruct (negb (existsb _ _)); [left; split; reflexivity|].
  destruct (getWorkspaceFolder host (documentUri document)) as [folder|];
    [|left; split; reflexivity].
  unfold bind at 1.
  destruct (getOuterMost_frame host folder w) as [Hc Hh].
  destruct (getOuterMostWorkspaceFolder host folder w) as [w1 [outer|]];
    cbn [fst] in *; [|left; split; assumption].
  destruct outer as [f|]; [|left; split; assumption].
  destruct (notOwned (cppLanguageClient host (folderUri f))) eqn:Hown.
  - left. unfold bind, call, modify, ret. cbn. auto.
  - unfold bind, call, modify, ret, get. cbn.
    unfold mapHas. destruct (mapGet (clients w1) f) eqn:Hget; cbn.
    + left. auto.
    + right. exists f, (folderUri f). rewrite <- Hc, <- Hh.
      split; [exact Hget|]. split; reflexivity.
Qed.

Lemma addedFolder_shape (host : Host) (folder : WorkspaceFolder) (w : World) :
  registersFresh w (fst (addedFolder host folder w)).
Proof.
  unfold addedFolder.
  destruct (notOwned _); [|left; split; reflexivity].
  unfold bind, get, call, modify, ret. cbn.
  destruct (mapGet (clients w) folder) eqn:Hget; cbn.
  - left. auto.
  - right. exists folder, (folderUri folder).
    split; [exact Hget|]. split; reflexivity.
Qed.

End HandlerFacts.

Section Lifecycle.

Lemma removedFolder_preserves (folder : WorkspaceFolder) (w : World) :
  Consistent w -> Consistent (fst (removedFolder folder w)).
Proof.
  intros Hc. unfold removedFolder, bind, get, setClients, stop, call,
               setRunning, modify, ret. cbn.
  destruct (mapGet (clients w) folder) as [client|] eqn:Hget; cbn;
    [|exact Hc].
  unfold Consistent. cbn. apply consistent_unregister; assumption.
Qed.

Lemma configuredFolder_preserves (host : Host) (folder : WorkspaceFolder)
      (w : World) :
  Consistent w -> Consistent (fst (configuredFolder host folder w)).
Proof.
  intros Hc. unfold configuredFolder, bind, get, setClients, stop, call,
               setRunning, modify, ret. cbn.
  destruct (notOwned _ && mapHas _ _); cbn; [|exact Hc].
  destruct (mapGet (clients w) folder) as [client|] eqn:Hget; cbn;
    [|exact Hc].
  unfold Consistent. cbn. apply consistent_unregister; assumption.
Qed.

Lemma forEach_stop (l : list nat) (w : World) :
  snd (forEach stop l w) = Normal tt
  /\ clients (fst (forEach stop l w)) = clients w
  /\ forall c,
      isRunning (fst (forEach stop l w)) c = true
      <-> isRunning w c = true /\ ~ In c l.
Proof.
  revert w. induction l as [|c0 l IH]; intros w.
  - simpl. unfold ret. simpl. repeat split; tauto.
  - set (w1 := mkWorld (clients w)
                       (updateAt c0
                          (fun o => mkClient (clientRoot o)
                                             (startDisposable o) false)
                          (heap w))
                       (handles w) (sortedCache w) (calls w ++ [Stop c0])).
    assert (forEach stop (c0 :: l) w = forEach stop l w1) as ->
        by reflexivity.
    destruct (IH w1) as (Hret & Hclients & Hrun).
    split; [exact Hret|]. split; [rewrite Hclients; reflexivity|].
    intros c. rewrite Hrun. unfold isRunning, w1. cbn.
    rewrite nth_error_updateAt.
    destruct (Nat.eqb_spec c c0) as [->|Hne].
    + destruct (nth_error (heap w) c0); simpl; split;
        try tauto; intros [H _]; discriminate.
    + intuition congruence.
Qed.

Lemma deactivate_preserves (w : World) :
  Consistent w ->
  Consistent (fst (deactivate w)) /\ clients (fst (deactivate w)) = [].
Proof.
  intros (Hkeys & Hvals & Hrun).
  unfold deactivate, bind at 1, get.
  unfold bind.
  destruct (forEach_stop (mapValues (clients w)) w) as (Hret & _ & Hstop).
  destruct (forEach stop (mapValues (clients w)) w) as [w1 c].
  cbn [fst snd] in *. subst c.
  unfold setClients, modify. cbn. split; [|reflexivity].
  unfold Consistent, consistent. cbn.
  split; [constructor|]. split; [constructor|].
  intros c. split; [|tauto].
  intros H. apply Hstop in H as [H Hnot]. apply Hnot. apply Hrun. exact H.
Qed.

Lemma didOpenTextDocument_preserves (host : Host) (document : TextDocument)
      (w : World) :
  Consistent w -> Consistent (fst (didOpenTextDocument host document w)).
Proof.
  intros Hc. eapply registersFresh_consistent; [exact Hc|].
  apply didOpenTextDocument_shape.
Qed.

Lemma addedFolder_preserves (host : Host) (folder : WorkspaceFolder)
      (w : World) :
  Consistent w -> Consistent (fst (addedFolder host folder w)).
Proof.
  intros Hc. eapply registersFresh_consistent; [exact Hc|].
  apply addedFolder_shape.
Qed.

Lemma onDidChangeWorkspaceFolders_preserves (host : Host)
      (added removed : list WorkspaceFolder) (w : World) :
  Consistent w ->
  Consistent (fst (onDidChangeWorkspaceFolders host added removed w)).
Proof.
  unfold onDidChangeWorkspaceFolders. revert w.
  apply bind_preserves; [intros w Hw; exact Hw|]. intros _.
  apply bind_preserves.
  - apply forEach_preserves. intros x w. apply removedFolder_preserves.
  - intros _. apply forEach_preserves. intros x w.
    apply addedFolder_preserves.
Qed.

Lemma onDidChangeConfiguration_preserves (host : Host)
      (affectsCpp affectsClangd : bool) (w : World) :
  Consistent w ->
  Consistent (fst (onDidChangeConfiguration host affectsCpp affectsClangd w)).
Proof.
  unfold onDidChangeConfiguration. revert w.
  destruct affectsCpp.
  - destruct (workspaceFolders host) as [folders|];
      [|intros w Hw; exact Hw].
    apply bind_preserves.
    + apply forEach_preserves. intros x w.
      apply configuredFolder_preserves.
    + intros _. apply forEach_preserves. intros x w.
      apply didOpenTextDocument_preserves.
  - destruct affectsClangd; [|intros w Hw; exact Hw].
    apply bind_preserves.
    + intros w Hw. apply deactivate_preserves. exact Hw.
    + intros _. apply forEach_preserves. intros x w.
      apply didOpenTextDocument_preserves.
Qed.

Lemma distinct_keys_one_entry (m : list (WorkspaceFolder * nat))
      (folder : WorkspaceFolder) :
  NoDup (map (fun kv => folderRef (fst kv)) m) ->
  List.length (filter (fun kv => sameFolder folder (fst kv)) m) <= 1.
Proof.
  induction m as [|[k v] m IH]; simpl; [lia|].
  intros Hnd. inversion Hnd as [|? ? Hnotin Hnd']; subst.
  specialize (IH Hnd').
  destruct (sameFolder folder k) eqn:Hsame; [|exact IH].
  apply Nat.eqb_eq in Hsame.
  assert (filter (fun kv => sameFolder folder (fst kv)) m = []) as ->;
    [|simpl; lia].
  apply no_elements_nil. intros [k2 v2] Hin.
  apply filter_In in Hin as [Hin Hk2]. revert Hk2.
  simpl. unfold sameFolder.
  destruct (Nat.eqb_spec (folderRef folder) (folderRef k2)) as [Heq|];
    [|discriminate].
  intros _. apply Hnotin. simpl. rewrite <- Hsame, Heq.
  apply in_map_iff. exists (k2, v2). auto.
Qed.

End Lifecycle.

Section Uninterrupted.

Lemma bind_apply {A B} (m : M A) (k : A -> M B) (w : World) :
  bind m k w = match m w with
               | (w', Normal a) => k a w'
               | (w', Throw) => (w', Throw)
               end.
Proof. reflexivity. Qed.

Lemma settles_unit (host : Host) (m : M unit) (w : World) :
  settles host ((m ;; ret None) w) (m w).
Proof.
  unfold bind, ret. destruct (m w) as [w' [[]|]]; constructor.
Qed.

Lemma configurationLoop_settles (host : Host) (folders : list WorkspaceFolder)
      (w : World) :
  settles host (configurationLoop host folders w)
          ((forEach (configuredFolder host) folders ;;
            forEach (didOpenTextDocument host) (textDocuments host)) w).
Proof.
  revert w. induction folders as [|folder rest IH]; intros w.
  - exact (settles_unit host _ w).
  - cbn [configurationLoop forEach]. unfold configuredFolder.
    rewrite !bind_apply.
    destruct (configuredFolderStop host folder w) as [w1 [[|]|]].
    + apply settles_resume. cbn [resume]. rewrite bind_apply.
      unfold configuredFolderResume, setClients, modify.
      exact (IH _).
    + exact (IH _).
    + constructor.
Qed.

Lemma removalLoop_settles (host : Host) (removed added : list WorkspaceFolder)
      (w : World) :
  settles host (removalLoop host removed added w)
          ((forEach removedFolder removed ;;
            forEach (addedFolder host) added) w).
Proof.
  revert w. induction removed as [|folder rest IH]; intros w.
  - exact (settles_unit host _ w).
  - cbn [removalLoop forEach]. unfold removedFolder.
    rewrite !bind_apply. unfold get.
    destruct (mapGet (clients w) folder) as [client|].
    + unfold setClients, stop, call, setRunning, bind, modify, ret.
      apply settles_resume. cbn [resume]. exact (IH _).
    + exact (IH _).
Qed.

(** [onDidChangeWorkspaceFolders] is the folder-change handler resumed
    at once at each [await]. *)
Lemma changeWorkspaceFolders_settles (host : Host)
      (added removed : list WorkspaceFolder) (w : World) :
  settles host (changeWorkspaceFoldersBegin host added removed w)
          (onDidChangeWorkspaceFolders host added removed w).
Proof.
  unfold changeWorkspaceFoldersBegin, onDidChangeWorkspaceFolders.
  rewrite !bind_apply. unfold invalidateSorted, modify.
  exact (removalLoop_settles host removed added _).
Qed.

(** [onDidChangeConfiguration] is the configuration handler resumed at
    once at each [await]. *)
Lemma changeConfiguration_settles (host : Host)
      (affectsCpp affectsClangd : bool) (w : World) :
  settles host (changeConfigurationBegin host affectsCpp affectsClangd w)
          (onDidChangeConfiguration host affectsCpp affectsClangd w).
Proof.
  unfold changeConfigurationBegin, onDidChangeConfiguration.
  destruct affectsCpp.
  - destruct (workspaceFolders host) as [folders|]; [|constructor].
    apply configurationLoop_settles.
  - destruct affectsClangd; [|constructor].
    rewrite !bind_apply.
    destruct (deactivate w) as [w1 [[]|]]; [|constructor].
    apply settles_resume. cbn [resume].
    exact (settles_unit host _ w1).
Qed.

End Uninterrupted.

Section Suspension.

Lemma initialWorld_consistent : Consistent initialWorld.
Proof.
  split; [constructor|]. split; [constructor|].
  intros [|c]; simpl; split; (discriminate || tauto).
Qed.

Lemma atMostOne_frame (w w' : World) :
  clients w' = clients w -> heap w' = heap w ->
  atMostOneStarted w -> atMostOneStarted w'.
Proof. unfold atMostOneStarted, isRunning. intros -> ->. tauto. Qed.

Lemma consistent_atMostOne (w : World) : Consistent w -> atMostOneStarted w.
Proof.
  intros (Hkeys & Hvals & Hrun).
  split; [exact Hkeys|]. split; [exact Hvals|]. split.
  - intros client Hin. apply Hrun in Hin.
    destruct (nth_error (heap w) client) eqn:E; [|discriminate].
    apply nth_error_Some. congruence.
  - intros client H. apply Hrun. exact H.
Qed.

Lemma atMostOne_register (w w' : World) :
  atMostOneStarted w -> registersFresh w w' -> atMostOneStarted w'.
Proof.
  intros Hw [[Hc Hh]|(folder & path & Hget & Hc & Hh)];
    [exact (atMostOne_frame w w' Hc Hh Hw)|].
  destruct Hw as (Hkeys & Hvals & Hbound & Hrun).
  unfold atMostOneStarted, isRunning.
  rewrite Hc, Hh, (mapSet_absent _ _ _ Hget).
  unfold mapValues in *. rewrite !map_app. simpl.
  split; [|split; [|split]].
  - apply NoDup_app; [exact Hkeys | repeat constructor; simpl; tauto |].
    intros x Hx [<-|[]]. apply mapGet_None_keys in Hget. contradiction.
  - apply NoDup_app; [exact Hvals | repeat constructor; simpl; tauto |].
    intros x Hx [<-|[]]. apply Hbound in Hx. lia.
  - intros c Hin. rewrite updateAt_length, length_app. simpl.
    apply in_app_iff in Hin as [Hin|[<-|[]]]; [apply Hbound in Hin|]; lia.
  - intros c. rewrite nth_error_updateAt, in_app_iff. simpl.
    destruct (Nat.eqb_spec c (List.length (heap w))) as [->|Hne]; [auto|].
    intros H. left. apply Hrun. unfold isRunning.
    destruct (Nat.lt_ge_cases c (List.length (heap w))) as [Hlt|Hge].
    + rewrite nth_error_app1 in H by exact Hlt. exact H.
    + rewrite (proj2 (nth_error_None _ c)) in H
        by (rewrite length_app; simpl; lia).
      discriminate.
Qed.

Lemma atMostOne_stop (client : nat) (w : World) :
  atMostOneStarted w -> atMostOneStarted (fst (stop client w)).
Proof.
  intros (Hkeys & Hvals & Hbound & Hrun).
  unfold stop, bind, call, setRunning, modify. cbn.
  unfold atMostOneStarted, isRunning. cbn.
  split; [exact Hkeys|]. split; [exact Hvals|]. split.
  - intros c Hin. rewrite updateAt_length. apply Hbound. exact Hin.
  - intros c. rewrite nth_error_updateAt.
    destruct (Nat.eqb_spec c client) as [->|Hne]; [|apply Hrun].
    destruct (nth_error (heap w) client); discriminate.
Qed.

(** Deleting the entry of a folder and stopping the client it held. *)
Lemma atMostOne_unregister (w : World) (folder : WorkspaceFolder)
      (client : nat) :
  atMostOneStarted w ->
  mapGet (clients w) folder = Some client ->
  atMostOneStarted
    (fst ((setClients (fun m => mapDelete m folder) ;; stop client) w)).
Proof.
  intros (Hkeys & Hvals & Hbound & Hrun) Hget.
  destruct (mapDelete_values (clients w) folder client Hkeys Hvals Hget)
    as [Hnd Hiff].
  unfold stop, setClients, bind, call, setRunning, modify. cbn.
  unfold atMostOneStarted, isRunning. cbn.
  split; [apply mapDelete_keys; exact Hkeys|]. split; [exact Hnd|]. split.
  - intros c Hin. rewrite updateAt_length. apply Hbound.
    apply Hiff in Hin. tauto.
  - intros c. rewrite nth_error_updateAt, Hiff.
    destruct (Nat.eqb_spec c client) as [->|Hne].
    + destruct (nth_error (heap w) client); discriminate.
    + intros H. split; [apply Hrun; exact H | exact Hne].
Qed.

Lemma atMostOne_didOpen (host : Host) (document : TextDocument) (w : World) :
  atMostOneStarted w ->
  atMostOneStarted (fst (didOpenTextDocument host document w)).
Proof.
  intros Hw. eapply atMostOne_register; [exact Hw|].
  apply didOpenTextDocument_shape.
Qed.

Lemma atMostOne_added (host : Host) (folder : WorkspaceFolder) (w : World) :
  atMostOneStarted w -> atMostOneStarted (fst (addedFolder host folder w)).
Proof.
  intros Hw. eapply atMostOne_register; [exact Hw|].
  apply addedFolder_shape.
Qed.

Lemma atMostOne_documents (host : Host) (w : World) :
  atMostOneStarted w ->
  atMostOneStarted
    (fst ((forEach (didOpenTextDocument host) (textDocuments host) ;;
           ret (@None Suspended)) w)).
Proof.
  revert w. apply bind_preserves; [|intros _ w Hw; exact Hw].
  apply forEach_preserves. intros document w. apply atMostOne_didOpen.
Qed.

Lemma atMostOne_deactivate (w : World) :
  atMostOneStarted w -> atMostOneStarted (fst (deactivate w)).
Proof.
  intros (Hkeys & Hvals & Hbound & Hrun).
  unfold deactivate, bind at 1, get. unfold bind.
  destruct (forEach_stop (mapValues (clients w)) w) as (Hret & _ & Hstop).
  destruct (forEach stop (mapValues (clients w)) w) as [w1 c].
  cbn [fst snd] in *. subst c.
  unfold setClients, modify. cbn.
  unfold atMostOneStarted, isRunning. cbn.
  split; [constructor|]. split; [constructor|]. split; [intros c []|].
  intros c H. apply Hstop in H as [H Hnot]. apply Hnot, Hrun. exact H.
Qed.

Lemma atMostOne_removalLoop (host : Host)
      (removed added : list WorkspaceFolder) (w : World) :
  atMostOneStarted w ->
  atMostOneStarted (fst (removalLoop host removed added w)).
Proof.
  revert w. induction removed as [|folder rest IH]; intros w Hw.
  - cbn [removalLoop]. revert w Hw.
    apply bind_preserves; [|intros _ w Hw; exact Hw].
    apply forEach_preserves. intros x w. apply atMostOne_added.
  - cbn [removalLoop]. rewrite bind_apply. unfold get.
    destruct (mapGet (clients w) folder) as [client|] eqn:Hget;
      [|apply IH; exact Hw].
    pose proof (atMostOne_unregister w folder client Hw Hget) as Hstep.
    exact Hstep.
Qed.

Lemma atMostOne_configuredFolderStop (host : Host) (folder : WorkspaceFolder)
      (w : World) :
  atMostOneStarted w ->
  atMostOneStarted (fst (configuredFolderStop host folder w)).
Proof.
  intros Hw. unfold configuredFolderStop. rewrite bind_apply. unfold get.
  destruct (notOwned _ && mapHas _ _); [|exact Hw].
  destruct (mapGet (clients w) folder) as [client|]; [|exact Hw].
  pose proof (atMostOne_stop client w Hw) as Hstep.
  exact Hstep.
Qed.

Lemma atMostOne_configurationLoop (host : Host)
      (folders : list WorkspaceFolder) (w : World) :
  atMostOneStarted w ->
  atMostOneStarted (fst (configurationLoop host folders w)).
Proof.
  revert w. induction folders as [|folder rest IH]; intros w Hw.
  - apply atMostOne_documents. exact Hw.
  - cbn [configurationLoop]. rewrite bind_apply.
    pose proof (atMostOne_configuredFolderStop host folder w Hw) as Hstep.
    destruct (configuredFolderStop host folder w) as [w1 [[|]|]];
      cbn [fst] in *; [exact Hstep | apply IH; exact Hstep | exact Hstep].
Qed.

Lemma world_suspend (waiting : list Suspended)
      (r : World * Completion (option Suspended)) :
  world (suspend waiting r) = fst r.
Proof. destruct r as [w [[s|]|]]; reflexivity. Qed.

(** Every occurrence keeps each folder to at most one started client,
    except the resumption of a configuration handler after its
    [await client.stop()]. *)
Theorem only_delayed_delete_breaks_one_client
        (session : Session) (host : Host) (o : Occurrence) :
  atMostOneStarted (world session) ->
  resumesConfiguredStop session o = false ->
  atMostOneStarted (world (deliver session host o)).
Proof.
  intros Hw Hother. destruct o as [document|added removed|cpp clangd|index];
    cbn [deliver].
  - cbn [world]. apply atMostOne_didOpen. exact Hw.
  - rewrite world_suspend. unfold changeWorkspaceFoldersBegin.
    rewrite bind_apply. unfold invalidateSorted, modify.
    apply atMostOne_removalLoop.
    eapply atMostOne_frame; [| |exact Hw]; reflexivity.
  - rewrite world_suspend. unfold changeConfigurationBegin.
    destruct cpp.
    + destruct (workspaceFolders host) as [folders|]; [|exact Hw].
      apply atMostOne_configurationLoop. exact Hw.
    + destruct clangd; [|exact Hw].
      revert Hw. generalize (world session).
      apply bind_preserves; [|intros _ w Hw; exact Hw].
      intros w. apply atMostOne_deactivate.
  - cbn [resumesConfiguredStop] in Hother.
    destruct (nth_error (waiting session) index) as [[folder rest| |rest added]|];
      [discriminate| | |exact Hw]; rewrite world_suspend; cbn [resume].
    + apply atMostOne_documents. exact Hw.
    + apply atMostOne_removalLoop. exact Hw.
Qed.

Lemma only_delayed_delete_witness :
  let session :=
    play (mkSession initialWorld [])
         [(Sample.host (Js.VString "any"), DocumentOpened Sample.document);
          (Sample.host (Js.VString "any"),
           WorkspaceFoldersChanged [] [Sample.ws])] in
  waiting session = [AfterRemovedStop [] []]
  /\ atMostOneStarted (world session)
  /\ atMostOneStarted
       (world (deliver session (Sample.host (Js.VString "any")) (Settled 0))).
Proof.
  cbv zeta.
  assert (atMostOneStarted
            (world
               (play (mkSession initialWorld [])
                     [(Sample.host (Js.VString "any"),
                       DocumentOpened Sample.document);
                      (Sample.host (Js.VString "any"),
                       WorkspaceFoldersChanged [] [Sample.ws])]))) as Hw.
  { cbn [play fold_left fst snd].
    apply only_delayed_delete_breaks_one_client; [|reflexivity].
    apply only_delayed_delete_breaks_one_client; [|reflexivity].
    apply consistent_atMostOne. exact initialWorld_consistent. }
  split; [vm_compute; reflexivity|]. split; [exact Hw|].
  apply (only_delayed_delete_breaks_one_client _ _ _ Hw).
  vm_compute. reflexivity.
Defined.

End Suspension.

Section OneClientPerFolder.

(** When every handler is resumed at each [await] before anything else
    runs, each folder keeps at most one started client.  In a
    consistent world every folder has at most one registry entry and
    the started clients are exactly the registered ones.  Each handler,
    run that way from a consistent world, ends in a consistent world:
    document open, folder addition and removal (one folder, and the
    whole event), configuration change, deactivate.  Document open and
    folder addition create a client only for a folder the registry
    holds no client for, and register and start it. *)
Theorem uninterrupted_handlers_keep_one_client
        (host : Host) (w : World) :
  Consistent w ->
  (forall folder,
      List.length (filter (fun kv => sameFolder folder (fst kv)) (clients w))
      <= 1)
  /\ (forall client,
         isRunning w client = true <-> In client (mapValues (clients w)))
  /\ (forall document,
         Consistent (fst (didOpenTextDocument host document w))
         /\ createsOnlyWhenAbsent
              w (fst (didOpenTextDocument host document w)))
  /\ (forall folder,
         Consistent (fst (addedFolder host folder w))
         /\ createsOnlyWhenAbsent w (fst (addedFolder host folder w)))
  /\ (forall folder, Consistent (fst (removedFolder folder w)))
  /\ (forall added removed,
         Consistent (fst (onDidChangeWorkspaceFolders host added removed w)))
  /\ (forall affectsCpp affectsClangd,
         Consistent
           (fst (onDidChangeConfiguration host affectsCpp affectsClangd w)))
  /\ Consistent (fst (deactivate w))
  /\ clients (fst (deactivate w)) = [].
Proof.
  intros Hc.
  split.
  { intros folder. apply distinct_keys_one_entry. apply Hc. }
  split.
  { intros client. apply Hc. }
  split.
  { intros document. split.
    - apply didOpenTextDocument_preserves. exact Hc.
    - apply registersFresh_creates, didOpenTextDocument_shape. }
  split.
  { intros folder. split.
    - apply addedFolder_preserves. exact Hc.
    - apply registersFresh_creates, addedFolder_shape. }
  split.
  { intros folder. apply removedFolder_preserves. exact Hc. }
  split.
  { intros added removed.
    apply onDidChangeWorkspaceFolders_preserves. exact Hc. }
  split.
  { intros affectsCpp affectsClangd.
    apply onDidChangeConfiguration_preserves. exact Hc. }
  apply deactivate_preserves. exact Hc.
Qed.

Lemma uninterrupted_handlers_witness :
  Consistent initialWorld
  /\ Consistent (fst (didOpenTextDocument (Sample.host (Js.VString "any"))
                                          Sample.document initialWorld))
  /\ Consistent (fst (onDidChangeWorkspaceFolders
                        (Sample.host (Js.VString "off"))
                        [Sample.ws; Sample.pkg] [Sample.ws] initialWorld))
  /\ Consistent (fst (deactivate initialWorld)).
Proof.
  pose proof (uninterrupted_handlers_keep_one_client
                (Sample.host (Js.VString "any")) initialWorld
                initialWorld_consistent)
    as (_ & _ & Hopen & _ & _ & _ & _ & Hdeactivate & _).
  pose proof (uninterrupted_handlers_keep_one_client
                (Sample.host (Js.VString "off")) initialWorld
                initialWorld_consistent)
    as (_ & _ & _ & _ & _ & Hfolders & _).
  split; [exact initialWorld_consistent|].
  split; [exact (proj1 (Hopen Sample.document))|].
  split; [exact (Hfolders [Sample.ws; Sample.pkg] [Sample.ws])|].
  exact Hdeactivate.
Defined.

(** C9.  Two configuration changes that overlap leave one folder with
    two started clients.  The document of the sample workspace is open
    and its folder [file:///ws/] has client 0.  The setting becomes
    [off] and two [cpp] configuration events arrive, the second while
    the first handler awaits [client.stop()]: each finds client 0
    registered, stops it and is suspended before its
    [clients.delete(folder)].  The first handler resumes and deletes the
    entry.  The setting becomes [any] again and a third event creates,
    registers and starts client 1 for the folder.  When the second
    handler resumes, its [clients.delete(folder)] removes the entry of
    client 1, which stays started, and the document pass that follows
    finds no client for the folder and creates and starts client 2.
    Clients 1 and 2 are both started for [file:///ws/], and the
    registry holds client 2 alone. *)
Theorem overlapping_configuration_changes_start_two_clients :
  let off := Sample.host (Js.VString "off") in
  let any := Sample.host (Js.VString "any") in
  let opened :=
    play (mkSession initialWorld []) [(any, DocumentOpened Sample.document)] in
  let stopped :=
    play opened [(off, ConfigurationChanged true false);
                 (off, ConfigurationChanged true false)] in
  let restarted :=
    play stopped [(off, Settled 0); (any, ConfigurationChanged true false)] in
  let final := deliver restarted any (Settled 0) in
  (clients (world opened) = [(Sample.ws, 0)]
   /\ startedClients (world opened) Sample.wsUri = [0]
   /\ waiting opened = [])
  /\ (clients (world stopped) = [(Sample.ws, 0)]
      /\ startedClients (world stopped) Sample.wsUri = []
      /\ waiting stopped = [AfterConfiguredStop Sample.ws [];
                            AfterConfiguredStop Sample.ws []])
  /\ (clients (world restarted) = [(Sample.ws, 1)]
      /\ startedClients (world restarted) Sample.wsUri = [1]
      /\ waiting restarted = [AfterConfiguredStop Sample.ws []])
  /\ (clients (world final) = [(Sample.ws, 2)]
      /\ startedClients (world final) Sample.wsUri = [1; 2]
      /\ waiting final = [])
  /\ atMostOneStarted (world restarted)
  /\ ~ atMostOneStarted (world final).
Proof.
  cbv zeta.
  split; [split; [|split]; vm_compute; reflexivity|].
  split; [split; [|split]; vm_compute; reflexivity|].
  split; [split; [|split]; vm_compute; reflexivity|].
  split; [split; [|split]; vm_compute; reflexivity|].
  split.
  - unfold atMostOneStarted, isRunning. vm_compute.
    split; [repeat constructor; simpl; tauto|].
    split; [repeat constructor; simpl; tauto|].
    split; [intros client [<-|[]]; repeat constructor|].
    intros [|[|[|client]]]; intros H; auto; discriminate.
  - intros (_ & _ & _ & Hrun). specialize (Hrun 1). vm_compute in Hrun.
    destruct (Hrun eq_refl) as [H|[]]. discriminate.
Qed.

End OneClientPerFolder.

(** * Further properties of [root-management.ts] *)

Section Convergence.

Lemma setRoots_strings_selector (st : State) (roots : list string) :
  let d := compareCurrentAndDesiredRoots (clangdDocumentSelector st) roots in
  clangdDocumentSelector (fst (setRoots st (Js.VArray (map Js.VString roots))))
  = reconcileSelectorsAndTargets (clangdDocumentSelector st)
                                 (toAdds d) (toDeletes d).
Proof.
  cbv zeta. rewrite setRoots_dense. unfold setRootsOfStrings.
  destruct (negb _ || negb _); reflexivity.
Qed.

(** X1.  After [clangd.setRoots] with a list of strings, the globs of the
    [c]/[cpp] rules in the live selector are exactly the globs generated
    from that list, whatever the selector held before. *)
Theorem setRoots_installs_requested_globs
        (st : State) (roots : list string) (g : string) :
  In g (getCurrentRoots
          (clangdDocumentSelector
             (fst (setRoots st (Js.VArray (map Js.VString roots))))))
  <-> In g (map rootGlob roots).
Proof.
  rewrite setRoots_strings_selector.
  apply (second_pass_covers (clangdDocumentSelector st) roots g).
Qed.

Lemma second_pass_adds_nothing (selectors : list DocumentFilter)
      (D : list string) :
  NoDup (map rootGlob D) ->
  let d := compareCurrentAndDesiredRoots selectors D in
  let selectors' :=
    reconcileSelectorsAndTargets selectors (toAdds d) (toDeletes d) in
  toAdds (compareCurrentAndDesiredRoots selectors' D) = [].
Proof.
  intros Hnd. cbv zeta.
  unfold compareCurrentAndDesiredRoots at 1.
  apply compareLoop_all_current; [exact Hnd|].
  intros g Hg. apply newSet_In.
  apply (second_pass_covers selectors D g). exact Hg.
Qed.

Lemma reconcile_nothing (selectors : list DocumentFilter) :
  reconcileSelectorsAndTargets selectors [] [] = selectors.
Proof. reflexivity. Qed.

(** X2.  Invoking [clangd.setRoots] a second time with the same list,
    when no two entries generate the same glob, changes neither the
    selector nor the cancelation state, requests no restart and logs the
    no-change message. *)
Theorem setRoots_repeated_is_noop (st : State) (roots : list string) :
  NoDup (map rootGlob roots) ->
  let arg := Js.VArray (map Js.VString roots) in
  let st1 := fst (setRoots st arg) in
  setRoots st1 arg = (emit [ConsoleLog noChangeMessage] st1, None).
Proof.
  intros Hnd. cbv zeta.
  set (st1 := fst (setRoots st (Js.VArray (map Js.VString roots)))).
  pose proof (setRoots_strings_selector st roots) as Hsel. cbv zeta in Hsel.
  fold st1 in Hsel.
  pose proof (second_pass_adds_nothing (clangdDocumentSelector st) roots Hnd)
    as Hadds.
  pose proof (second_pass_deletes_nothing (clangdDocumentSelector st) roots)
    as Hdels.
  cbv zeta in Hadds, Hdels. rewrite <- Hsel in Hadds, Hdels.
  rewrite setRoots_dense. unfold setRootsOfStrings.
  rewrite Hadds, Hdels. simpl. rewrite reconcile_nothing.
  destruct st1; reflexivity.
Qed.

Lemma setRoots_repeated_witness :
  let arg := Js.VArray [Js.VString "/a"; Js.VString "/b/"] in
  let st1 := fst (setRoots (initialState []) arg) in
  setRoots st1 arg = (emit [ConsoleLog noChangeMessage] st1, None).
Proof.
  apply (setRoots_repeated_is_noop (initialState []) ["/a"; "/b/"]).
  repeat constructor; simpl; intuition discriminate.
Defined.

Lemma toAdds_not_deleted (selectors : list DocumentFilter) (D : list string)
      (g : string) :
  let d := compareCurrentAndDesiredRoots selectors D in
  In g (toAdds d) -> ~ In g (toDeletes d).
Proof.
  cbv zeta. unfold compareCurrentAndDesiredRoots. intros Hadd Hdel.
  apply compareLoop_toAdds_incl in Hadd as [[]|Hin].
  apply compareLoop_toDeletes in Hdel as [_ Hnot]. contradiction.
Qed.

Lemma patternIs_other (item : DocumentFilter) (g d : string) :
  patternIs g item = true -> patternIs d item = String.eqb g d.
Proof.
  unfold patternIs. destruct (pattern item) as [[p|b p]|]; try discriminate.
  intros H. apply String.eqb_eq in H. subst p. reflexivity.
Qed.

Lemma keeps_patternIs (deletes : Js.set) (item : DocumentFilter) (g : string) :
  patternIs g item = true -> keeps deletes item = negb (Js.has deletes g).
Proof.
  intros H. unfold keeps, Js.has. f_equal.
  induction deletes as [|d deletes IH]; simpl; [reflexivity|].
  rewrite IH, (patternIs_other item g d H). reflexivity.
Qed.

(** X3.  Reconciliation deletes by pattern alone.  Afterwards no rule of
    any language carries a deleted glob; every rule that carried none is
    still there, in its old order and ahead of the new rules; and a glob
    is deleted only if a [c]/[cpp] rule carried it and the input does not
    generate it. *)
Theorem reconcile_deletes_by_pattern
        (selectors : list DocumentFilter) (D : list string) :
  let d := compareCurrentAndDesiredRoots selectors D in
  let selectors' :=
    reconcileSelectorsAndTargets selectors (toAdds d) (toDeletes d) in
  (forall item g, In item selectors' -> In g (toDeletes d) ->
                  patternIs g item = false)
  /\ (exists pushed,
         selectors' = filter (keeps (toDeletes d)) selectors ++ pushed
         /\ List.length pushed = 2 * List.length (toAdds d))
  /\ (forall g, In g (toDeletes d) <->
                In g (getCurrentRoots selectors) /\ ~ In g (map rootGlob D)).
Proof.
  cbv zeta. rewrite reconcile_spec. split; [|split].
  - intros item g Hin Hdel.
    destruct (patternIs g item) eqn:Hp; [|reflexivity]. exfalso.
    apply in_app_iff in Hin as [Hin|Hin].
    + apply filter_In in Hin as [_ Hk].
      rewrite (keeps_patternIs _ item g Hp) in Hk.
      apply negb_true_iff, has_false_In in Hk. contradiction.
    + unfold rulesFor in Hin. apply in_flat_map in Hin as [a [Ha Hitem]].
      assert (a = g) as ->.
      { destruct Hitem as [<-|[<-|[]]]; unfold patternIs in Hp; simpl in Hp;
          apply String.eqb_eq in Hp; exact Hp. }
      exact (toAdds_not_deleted selectors D g Ha Hdel).
  - exists (rulesFor (toAdds
                        (compareCurrentAndDesiredRoots selectors D))).
    split; [reflexivity|].
    induction (toAdds (compareCurrentAndDesiredRoots selectors D))
      as [|a adds IH]; [reflexivity|].
    change (rulesFor (a :: adds))
      with ([ruleFor "c" a; ruleFor "cpp" a] ++ rulesFor adds).
    rewrite length_app, IH. simpl. lia.
  - intros g. unfold compareCurrentAndDesiredRoots.
    rewrite compareLoop_toDeletes, newSet_In. reflexivity.
Qed.

End Convergence.

Section Pairs.

Lemma existsb_isRule_kept (lang g : string) (deletes : Js.set)
      (selectors : list DocumentFilter) :
  existsb (isRule lang g) (filter (keeps deletes) selectors)
  = negb (Js.has deletes g) && existsb (isRule lang g) selectors.
Proof.
  induction selectors as [|item l IH]; simpl.
  - rewrite andb_false_r. reflexivity.
  - destruct (patternIs g item) eqn:Hp.
    + rewrite (keeps_patternIs deletes item g Hp).
      destruct (Js.has deletes g); simpl.
      * exact IH.
      * rewrite IH. reflexivity.
    + assert (isRule lang g item = false) as Hrule
          by (unfold isRule; rewrite Hp; apply andb_false_r).
      destruct (keeps deletes item); simpl; rewrite ?Hrule; simpl; exact IH.
Qed.

Lemma existsb_isRule_pushed (lang g : string) (adds : list (option string)) :
  lang = "c" \/ lang = "cpp" ->
  existsb (isRule lang g)
          (flat_map (fun toAdd => [slotRule "c" toAdd; slotRule "cpp" toAdd])
                    adds)
  = existsb (fun toAdd => match toAdd with
                          | Some a => String.eqb g a
                          | None => false
                          end) adds.
Proof.
  intros Hlang. induction adds as [|a adds IH]; [reflexivity|].
  cbn [flat_map]. rewrite existsb_app, IH. cbn [existsb]. f_equal.
  unfold isRule, languageIs, patternIs, slotRule. simpl.
  destruct a as [a|]; simpl.
  - rewrite (String.eqb_sym a g).
    destruct Hlang as [-> | ->]; simpl;
      destruct (String.eqb g a); reflexivity.
  - destruct Hlang as [-> | ->]; reflexivity.
Qed.

(** X4.  Rules stay in language pairs: if every glob has a [c] rule
    exactly when it has a [cpp] rule, the same holds after any
    [clangd.setRoots] invocation, valid or not. *)
Theorem setRoots_keeps_rules_paired (st : State) (newRoots : Js.value) :
  paired (clangdDocumentSelector st) ->
  paired (clangdDocumentSelector (fst (setRoots st newRoots))).
Proof.
  intros Hpaired.
  destruct (incorrectArguments newRoots) eqn:Hinc.
  - unfold setRoots. rewrite Hinc. exact Hpaired.
  - rewrite (setRoots_accepted_selector st newRoots Hinc), reconcileSlots_spec.
    intros g. rewrite !existsb_app, !existsb_isRule_kept.
    rewrite !existsb_isRule_pushed by auto.
    rewrite (Hpaired g). reflexivity.
Qed.

Lemma setRoots_pairs_witness :
  paired (clangdDocumentSelector
            (fst (setRoots (initialState [ruleFor "c" "/old/**/*";
                                          ruleFor "cpp" "/old/**/*"])
                           (Js.VArray [Js.VString "/a"])))).
Proof.
  apply setRoots_keeps_rules_paired.
  intros g. simpl. unfold isRule, languageIs, patternIs. simpl.
  destruct (String.eqb "/old/**/*" g); reflexivity.
Defined.

End Pairs.

Section GlobCollisions.

Lemma length_append (a b : string) :
  String.length (a ++ b)%string = String.length a + String.length b.
Proof. induction a; simpl; congruence. Qed.

Lemma append_cancel_r (a b s : string) :
  (a ++ s = b ++ s)%string -> a = b.
Proof.
  revert b. induction a as [|c a IH]; intros [|c' b]; simpl.
  - reflexivity.
  - intros H. apply (f_equal String.length) in H. simpl in H.
    rewrite length_append in H. lia.
  - intros H. apply (f_equal String.length) in H. simpl in H.
    rewrite length_append in H. lia.
  - intros [= -> H]. f_equal. apply IH. exact H.
Qed.

Lemma rootGlob_with_separator (root : string) :
  Js.endsWith root "/" = false -> rootGlob (root ++ "/") = rootGlob root.
Proof.
  intros H. unfold rootGlob. rewrite H.
  assert (Js.endsWith (root ++ "/") "/" = true) as ->
      by (apply endsWith_iff; exists root; reflexivity).
  reflexivity.
Qed.

(** X5.  Two roots generate the same glob exactly when they are equal or
    one is the other, which does not end with a separator, followed by
    one separator.  No other pair of roots collides. *)
Theorem rootGlob_collisions (a b : string) :
  rootGlob a = rootGlob b
  <-> a = b
      \/ (a = (b ++ "/")%string /\ Js.endsWith b "/" = false)
      \/ (b = (a ++ "/")%string /\ Js.endsWith a "/" = false).
Proof.
  split.
  - unfold rootGlob. intros H. apply append_cancel_r in H.
    destruct (Js.endsWith a "/") eqn:Ea; destruct (Js.endsWith b "/") eqn:Eb.
    + left. exact H.
    + right. left. split; [exact H | reflexivity].
    + right. right. split; [symmetry; exact H | reflexivity].
    + left. apply append_cancel_r in H. exact H.
  - intros [->|[[-> H]|[-> H]]].
    + reflexivity.
    + apply rootGlob_with_separator. exact H.
    + symmetry. apply rootGlob_with_separator. exact H.
Qed.

End GlobCollisions.

Section Tokens.

Lemma readCanceled_write_other (address other : nat) (b : bool)
      (objects : list CancelationObject) :
  address <> other ->
  readCanceled address (writeCanceled other b objects)
  = readCanceled address objects.
Proof.
  revert address other.
  induction objects as [|o objects IH]; intros [|a] [|c] Hne; simpl;
    try reflexivity; try congruence.
  apply (IH a c). congruence.
Qed.

Lemma initialState_wellFormed (selectors : list DocumentFilter) :
  tokensWellFormed (initialState selectors).
Proof.
  split; [simpl; lia|]. split; [reflexivity|].
  intros a Ha Hne. simpl in *. lia.
Qed.

Lemma restartBegin_wellFormed (st : State) :
  tokensWellFormed st -> tokensWellFormed (fst (restartBegin st)).
Proof.
  intros (Hcur & Hlive & Hothers).
  unfold tokensWellFormed, restartBegin. cbn [fst store simpleCancelation].
  set (store1 := writeCanceled (simpleCancelation st) true (store st)).
  assert (List.length store1 = List.length (store st)) as Hlen
      by apply writeCanceled_length.
  split; [rewrite length_app; simpl; lia|].
  split; [apply readCanceled_fresh|].
  intros a Ha Hne. rewrite length_app in Ha. simpl in Ha.
  rewrite readCanceled_app_l by lia.
  destruct (Nat.eq_dec a (simpleCancelation st)) as [->|Hother].
  - apply readCanceled_written. exact Hcur.
  - unfold store1. rewrite readCanceled_write_other by exact Hother.
    apply Hothers; [lia | exact Hother].
Qed.

Lemma setRoots_tokens (st : State) (newRoots : Js.value) :
  (store (fst (setRoots st newRoots)) = store st
   /\ simpleCancelation (fst (setRoots st newRoots)) = simpleCancelation st)
  \/ exists st1,
      store st1 = store st
      /\ simpleCancelation st1 = simpleCancelation st
      /\ fst (setRoots st newRoots) = fst (restartBegin st1).
Proof.
  unfold setRoots. destruct (incorrectArguments newRoots);
    [left; split; reflexivity|].
  set (st1 := mkState _ (store st) (simpleCancelation st) (effects st)).
  destruct (negb _ || negb _).
  - right. exists st1. split; [reflexivity|]. split; [reflexivity|].
    destruct (restartBegin st1) as [st2 pending]. reflexivity.
  - left. split; reflexivity.
Qed.

Lemma tokensWellFormed_ext (st st' : State) :
  store st' = store st -> simpleCancelation st' = simpleCancelation st ->
  tokensWellFormed st -> tokensWellFormed st'.
Proof. unfold tokensWellFormed. intros -> ->. tauto. Qed.

Lemma restartResume_tokens (st : State) (token : nat) (o : WaitOutcome) :
  store (restartResume st token o) = store st
  /\ simpleCancelation (restartResume st token o) = simpleCancelation st.
Proof.
  unfold restartResume. destruct o; [|split; reflexivity].
  destruct (readCanceled token (store st)); split; reflexivity.
Qed.

Lemma step_wellFormed (st : State) (e : Event) :
  tokensWellFormed st -> tokensWellFormed (step st e).
Proof.
  intros Hwf. destruct e as [newRoots| |token o]; simpl.
  - destruct (setRoots_tokens st newRoots)
      as [[Hs Hc]|(st1 & Hs & Hc & ->)].
    + exact (tokensWellFormed_ext st _ Hs Hc Hwf).
    + apply restartBegin_wellFormed.
      exact (tokensWellFormed_ext st st1 Hs Hc Hwf).
  - apply restartBegin_wellFormed. exact Hwf.
  - destruct (restartResume_tokens st token o) as [Hs Hc].
    exact (tokensWellFormed_ext st _ Hs Hc Hwf).
Qed.

Lemma resume_counts (st : State) (token : nat) (o : WaitOutcome) :
  tokensWellFormed st ->
  token < List.length (store st) ->
  restartCount (restartResume st token o)
  = restartCount st
    + (if resumesCurrent st (Resume token o) then 1 else 0).
Proof.
  intros (Hcur & Hlive & Hothers) Htoken.
  unfold restartResume, resumesCurrent. destruct o; [|lia].
  destruct (Nat.eqb_spec token (simpleCancelation st)) as [->|Hne].
  - rewrite Hlive, restartCount_emit_restart. lia.
  - rewrite (Hothers token Htoken Hne). lia.
Qed.

(** X6.  From a well-formed token state (the state at module load is
    one), every sequence of command invocations, restart requests and
    resumptions leads to a well-formed state.  In such a state, resuming
    any number of issued requests, in any order and with any outcomes,
    issues one [clangd.restart] per resumption of the newest request with
    a ready client and none for any other resumption. *)
Theorem only_newest_request_restarts (st : State) :
  tokensWellFormed st ->
  (forall events, tokensWellFormed (run st events))
  /\ (forall resumes,
         Forall (resumesIssued st) resumes ->
         restartCount (run st resumes)
         = restartCount st
           + List.length (filter (resumesCurrent st) resumes)).
Proof.
  intros Hwf. split.
  - intros events. revert st Hwf.
    induction events as [|e events IH]; intros st Hwf; simpl; [exact Hwf|].
    apply IH. apply step_wellFormed. exact Hwf.
  - intros resumes. revert st Hwf.
    induction resumes as [|e resumes IH]; intros st Hwf Hall; simpl; [lia|].
    inversion Hall as [|? ? He Hrest]; subst.
    destruct e as [newRoots| |token o]; simpl in He; try contradiction.
    cbn [step].
    destruct (restartResume_tokens st token o) as [Hs Hc].
    rewrite IH.
    + rewrite (resume_counts st token o Hwf He).
      assert (filter (resumesCurrent (restartResume st token o)) resumes
              = filter (resumesCurrent st) resumes) as ->.
      { apply filter_ext. intros [v| |t' o']; simpl; try reflexivity.
        rewrite Hc. reflexivity. }
      destruct (resumesCurrent st (Resume token o)); simpl; lia.
    + exact (tokensWellFormed_ext st _ Hs Hc Hwf).
    + eapply Forall_impl; [|exact Hrest].
      intros [v| |t' o']; simpl; try tauto. rewrite Hs. tauto.
Qed.

Lemma only_newest_request_witness :
  let st := run (initialState [])
                [Invoke (Js.VArray [Js.VString "/a"]); Request; Request] in
  tokensWellFormed st
  /\ restartCount (run st [Resume 1 Ready; Resume 3 Ready; Resume 2 Ready;
                           Resume 0 Rejected])
     = 1.
Proof.
  pose proof (only_newest_request_restarts
                (initialState []) (initialState_wellFormed []))
    as [Hreach _].
  specialize (Hreach [Invoke (Js.VArray [Js.VString "/a"]); Request; Request]).
  split; [exact Hreach|].
  pose proof (only_newest_request_restarts _ Hreach) as [_ Hcount].
  rewrite Hcount; [reflexivity|].
  repeat constructor.
Defined.

End Tokens.

(** * Properties of the single-client [clangd.setRoots] of [extension.ts] *)

Section LegacySetRoots.

Lemma legacy_strings (clientPresent : bool) (live : list DocumentFilter)
      (roots : list string) :
  let delta := compareLoop (map rootGlob roots) []
                           (Js.newSet (Legacy.currentRoots live)) in
  Legacy.selectors
    (Legacy.setRoots clientPresent live (Js.VArray (map Js.VString roots)))
  = fold_left Legacy.removeFirstMatching (toDeletes delta) live
    ++ rulesFor (toAdds delta).
Proof.
  cbv zeta. unfold Legacy.setRoots.
  rewrite incorrectArguments_strings, withGlobs_strings,
    compareSlotLoop_strings.
  cbn [slotAdds slotDeletes]. rewrite fold_push_dense, fold_push_app.
  destruct (negb _); [reflexivity|]. destruct clientPresent; reflexivity.
Qed.

Lemma removeFirstMatching_length (live : list DocumentFilter) (d : string) :
  existsb (patternIs d) live = true ->
  S (List.length (Legacy.removeFirstMatching live d)) = List.length live.
Proof.
  unfold Legacy.removeFirstMatching.
  induction live as [|x l IH]; simpl; [discriminate|].
  destruct (patternIs d x); simpl; [reflexivity|].
  intros H. specialize (IH H).
  destruct (findIndex (patternIs d) l); simpl in *; lia.
Qed.

Lemma removeFirstMatching_other (live : list DocumentFilter) (d d' : string) :
  d <> d' ->
  existsb (patternIs d') (Legacy.removeFirstMatching live d)
  = existsb (patternIs d') live.
Proof.
  intros Hne. unfold Legacy.removeFirstMatching.
  induction live as [|x l IH]; simpl; [reflexivity|].
  destruct (patternIs d x) eqn:Hx; simpl.
  - rewrite (patternIs_other x d d' Hx).
    destruct (String.eqb_spec d d'); [contradiction | reflexivity].
  - destruct (findIndex (patternIs d) l); simpl in *; congruence.
Qed.

Lemma fold_removeFirst_length (deletes : list string)
      (live : list DocumentFilter) :
  NoDup deletes ->
  (forall d, In d deletes -> existsb (patternIs d) live = true) ->
  List.length (fold_left Legacy.removeFirstMatching deletes live)
  + List.length deletes
  = List.length live.
Proof.
  revert live. induction deletes as [|d deletes IH]; intros live Hnd Hall;
    simpl; [lia|].
  inversion Hnd as [|? ? Hnotin Hnd']; subst.
  rewrite <- (removeFirstMatching_length live d) by (apply Hall; simpl; auto).
  rewrite <- (IH (Legacy.removeFirstMatching live d) Hnd'); [lia|].
  intros d' Hd'. rewrite removeFirstMatching_other.
  - apply Hall. simpl. auto.
  - intros ->. contradiction.
Qed.

Lemma newSet_NoDup (xs : list string) : NoDup (Js.newSet xs).
Proof.
  unfold Js.newSet.
  assert (forall acc, NoDup acc -> NoDup (fold_left Js.add xs acc)) as H.
  { induction xs as [|x xs IH]; intros acc Hacc; simpl; [exact Hacc|].
    apply IH. unfold Js.add. destruct (Js.has acc x) eqn:E; [exact Hacc|].
    apply NoDup_app; [exact Hacc | repeat constructor; simpl; tauto |].
    intros y Hy [<-|[]]. apply has_false_In in E. contradiction. }
  apply H. constructor.
Qed.

Lemma compareLoop_toDeletes_NoDup (gs adds : list string) (current : Js.set) :
  NoDup current -> NoDup (toDeletes (compareLoop gs adds current)).
Proof.
  revert adds current. induction gs as [|g gs IH]; intros adds current Hnd;
    simpl; [exact Hnd|].
  apply IH. unfold Js.delete. apply NoDup_filter. exact Hnd.
Qed.

Lemma legacy_current_has_rule (live : list DocumentFilter) (d : string) :
  In d (Legacy.currentRoots live) -> existsb (patternIs d) live = true.
Proof.
  unfold Legacy.currentRoots. intros Hin.
  apply in_map_iff in Hin as [item [<- Hitem]].
  apply filter_In in Hitem as [Hin Hc].
  apply existsb_exists. exists item. split; [exact Hin|].
  unfold Legacy.cRule in Hc. apply andb_true_iff in Hc as [_ Hp].
  unfold patternIs, patternString.
  destruct (pattern item) as [[g|b p]|]; try discriminate.
  apply String.eqb_refl.
Qed.

(** X7.  The single-client handler splices out one rule per stale glob:
    for a list of strings, the selector shrinks by exactly the number of
    deleted globs and grows by two rules per added glob. *)
Theorem legacy_setRoots_removes_one_rule_per_glob
        (clientPresent : bool) (live : list DocumentFilter)
        (roots : list string) :
  let delta := compareLoop (map rootGlob roots) []
                           (Js.newSet (Legacy.currentRoots live)) in
  List.length
    (Legacy.selectors
       (Legacy.setRoots clientPresent live (Js.VArray (map Js.VString roots))))
  + Js.size (toDeletes delta)
  = List.length live + 2 * List.length (toAdds delta).
Proof.
  cbv zeta. rewrite legacy_strings, length_app.
  set (delta := compareLoop _ _ _).
  assert (List.length (rulesFor (toAdds delta))
          = 2 * List.length (toAdds delta)) as ->.
  { induction (toAdds delta) as [|a adds IH]; [reflexivity|].
    change (rulesFor (a :: adds))
      with ([ruleFor "c" a; ruleFor "cpp" a] ++ rulesFor adds).
    rewrite length_app, IH. simpl. lia. }
  unfold Js.size.
  rewrite <- (fold_removeFirst_length (toDeletes delta) live); [lia| |].
  - apply compareLoop_toDeletes_NoDup, newSet_NoDup.
  - intros d Hd. apply compareLoop_toDeletes in Hd as [Hcur _].
    apply legacy_current_has_rule. apply newSet_In. exact Hcur.
Qed.

Lemma legacy_currentRoots_app (a b : list DocumentFilter) :
  Legacy.currentRoots (a ++ b)
  = Legacy.currentRoots a ++ Legacy.currentRoots b.
Proof.
  unfold Legacy.currentRoots. rewrite filter_app, map_app. reflexivity.
Qed.

Lemma removeFirstMatching_after (live rest : list DocumentFilter)
      (x : DocumentFilter) (d : string) :
  (forall item, In item live -> patternIs d item = false) ->
  patternIs d x = true ->
  Legacy.removeFirstMatching (live ++ x :: rest) d = live ++ rest.
Proof.
  intros Hnone Hx. unfold Legacy.removeFirstMatching.
  induction live as [|y l IH]; simpl.
  - rewrite Hx. reflexivity.
  - rewrite (Hnone y) by (simpl; auto).
    assert (forall item, In item l -> patternIs d item = false) as Hl
        by (intros item Hin; apply Hnone; simpl; auto).
    specialize (IH Hl).
    destruct (findIndex (patternIs d) (l ++ x :: rest)); simpl in *;
      congruence.
Qed.

(** X8.  In the single-client handler, setting one root and then the
    empty list leaves that root's [cpp] rule in the selector: starting
    from a selector with no [c] glob rule and no rule carrying the root's
    glob, the first call appends the pair, the second removes the [c]
    rule only and restarts, and further empty lists never remove the
    [cpp] rule. *)
Theorem legacy_clear_leaves_cpp_rule
        (clientPresent : bool) (live : list DocumentFilter) (root : string) :
  Legacy.currentRoots live = [] ->
  (forall item, In item live -> patternIs (rootGlob root) item = false) ->
  let g := rootGlob root in
  let r1 := Legacy.setRoots clientPresent live
                            (Js.VArray [Js.VString root]) in
  let r2 := Legacy.setRoots clientPresent (Legacy.selectors r1)
                            (Js.VArray []) in
  Legacy.selectors r1 = live ++ [ruleFor "c" g; ruleFor "cpp" g]
  /\ Legacy.selectors r2 = live ++ [ruleFor "cpp" g]
  /\ In (Legacy.ExecuteCommand "clangd.restart") (Legacy.effects r2)
  /\ forall clientPresent',
      Legacy.selectors
        (Legacy.setRoots clientPresent' (Legacy.selectors r2) (Js.VArray []))
      = Legacy.selectors r2.
Proof.
  intros Hnone Hfree. cbv zeta.
  set (g := rootGlob root).
  assert (Legacy.selectors
            (Legacy.setRoots clientPresent live (Js.VArray [Js.VString root]))
          = live ++ [ruleFor "c" g; ruleFor "cpp" g]) as H1.
  { pose proof (legacy_strings clientPresent live [root]) as H.
    cbv zeta in H. simpl map in H. rewrite H, Hnone. reflexivity. }
  rewrite H1.
  assert (Js.newSet (Legacy.currentRoots
                       (live ++ [ruleFor "c" g; ruleFor "cpp" g])) = [g])
    as Hcur.
  { rewrite legacy_currentRoots_app, Hnone. reflexivity. }
  assert (Legacy.selectors
            (Legacy.setRoots clientPresent
                             (live ++ [ruleFor "c" g; ruleFor "cpp" g])
                             (Js.VArray []))
          = live ++ [ruleFor "cpp" g]) as H2.
  { pose proof (legacy_strings
                  clientPresent (live ++ [ruleFor "c" g; ruleFor "cpp" g]) [])
      as H.
    cbv zeta in H. simpl map in H. rewrite H, Hcur.
    simpl. rewrite app_nil_r.
    apply removeFirstMatching_after; [exact Hfree|].
    apply patternIs_ruleFor. }
  split; [reflexivity|]. split; [exact H2|]. split.
  - unfold Legacy.setRoots.
    change (Js.VArray []) with (Js.VArray (map Js.VString [])).
    rewrite incorrectArguments_strings, withGlobs_strings.
    simpl map. rewrite Hcur. simpl. auto.
  - intros cp'. rewrite H2.
    pose proof (legacy_strings cp' (live ++ [ruleFor "cpp" g]) []) as H.
    cbv zeta in H. simpl map in H. rewrite H.
    rewrite legacy_currentRoots_app, Hnone. simpl. apply app_nil_r.
Qed.

Lemma legacy_clear_witness :
  let live := [mkFilter (Some "file") (Some "cuda") None] in
  let r1 := Legacy.setRoots true live (Js.VArray [Js.VString "/a/b"]) in
  let r2 := Legacy.setRoots true (Legacy.selectors r1) (Js.VArray []) in
  Legacy.selectors r2
  = [mkFilter (Some "file") (Some "cuda") None; ruleFor "cpp" "/a/b/**/*"].
Proof.
  assert (forall item,
             In item [mkFilter (Some "file") (Some "cuda") None] ->
             patternIs (rootGlob "/a/b") item = false) as Hfree
      by (intros item [<-|[]]; reflexivity).
  exact (proj1 (proj2 (legacy_clear_leaves_cpp_rule
                         true [mkFilter (Some "file") (Some "cuda") None]
                         "/a/b" eq_refl Hfree))).
Defined.

Lemma toDeletes_empty_iff (gs : list string) (current : Js.set) :
  Nat.eqb (Js.size (toDeletes (compareLoop gs [] current))) 0 = true
  <-> forall g, In g current -> In g gs.
Proof.
  rewrite Nat.eqb_eq. unfold Js.size. split.
  - intros Hlen g Hg.
    destruct (in_dec string_dec g gs) as [Hin|Hout]; [exact Hin|].
    assert (In g (toDeletes (compareLoop gs [] current))) as Hdel
        by (apply compareLoop_toDeletes; tauto).
    destruct (toDeletes (compareLoop gs [] current)); [destruct Hdel|].
    discriminate.
  - intros Hall.
    rewrite (no_elements_nil (toDeletes (compareLoop gs [] current)));
      [reflexivity|].
    intros x Hx. apply compareLoop_toDeletes in Hx as [Hcur Hnot].
    apply Hnot, Hall, Hcur.
Qed.

(** X9.  For a list of strings the single-client handler restarts
    exactly when some current [c] glob is missing from the request.
    Otherwise it re-initializes the client's features, also when nothing
    changes; if no client exists at that point it throws, and the
    selector has by then received the new rules. *)
Theorem legacy_setRoots_restart_or_reinitialize
        (clientPresent : bool) (live : list DocumentFilter)
        (roots : list string) :
  let r := Legacy.setRoots clientPresent live
                           (Js.VArray (map Js.VString roots)) in
  let covered :=
    forall g, In g (Legacy.currentRoots live) -> In g (map rootGlob roots) in
  (In (Legacy.ExecuteCommand "clangd.restart") (Legacy.effects r)
   <-> ~ covered)
  /\ (In Legacy.InitializeFeatures (Legacy.effects r)
      <-> covered /\ clientPresent = true)
  /\ (Legacy.completion r = Legacy.Threw
      <-> covered /\ clientPresent = false)
  /\ (Legacy.completion r = Legacy.Threw ->
      Legacy.selectors r
      = live
        ++ rulesFor (toAdds (compareLoop (map rootGlob roots) []
                                         (Js.newSet
                                            (Legacy.currentRoots live))))).
Proof.
  cbv zeta.
  pose proof (toDeletes_empty_iff (map rootGlob roots)
                                  (Js.newSet (Legacy.currentRoots live)))
    as Hempty.
  assert ((forall g, In g (Js.newSet (Legacy.currentRoots live)) ->
                     In g (map rootGlob roots))
          <-> (forall g, In g (Legacy.currentRoots live) ->
                         In g (map rootGlob roots))) as Hsame.
  { split; intros H g Hg; apply H; apply newSet_In; exact Hg. }
  rewrite Hsame in Hempty. clear Hsame.
  pose proof (legacy_strings clientPresent live roots) as Hsel.
  cbv zeta in Hsel. revert Hsel.
  unfold Legacy.setRoots.
  rewrite incorrectArguments_strings, withGlobs_strings,
    compareSlotLoop_strings.
  cbn [slotAdds slotDeletes]. rewrite fold_push_dense.
  set (delta := compareLoop _ _ _) in *.
  destruct (Nat.eqb (Js.size (toDeletes delta)) 0) eqn:E; cbn [negb].
  - assert (toDeletes delta = []) as Hnil.
    { apply Nat.eqb_eq in E. unfold Js.size in E.
      destruct (toDeletes delta); [reflexivity | discriminate]. }
    pose proof (proj1 Hempty eq_refl) as Hcov.
    destruct clientPresent; cbn [Legacy.effects Legacy.completion
                                 Legacy.selectors]; intros Hsel;
      (split; [|split; [|split]]); simpl;
      try solve [intuition discriminate].
    intros _. rewrite Hsel, Hnil. reflexivity.
  - assert (~ (forall g, In g (Legacy.currentRoots live) ->
                         In g (map rootGlob roots))) as Hnot
        by (intros H; apply Hempty in H; discriminate).
    cbn [Legacy.effects Legacy.completion Legacy.selectors]. intros _.
    (split; [|split; [|split]]); simpl; intuition discriminate.
Qed.

End LegacySetRoots.

(** * Further properties of [extension.ts] *)

Section Composition.

Variable P : World -> Prop.
Variable host : Host.
Hypothesis Hopen : forall document w,
    P w -> P (fst (didOpenTextDocument host document w)).
Hypothesis Hadded : forall folder w, P w -> P (fst (addedFolder host folder w)).
Hypothesis Hremoved : forall folder w, P w -> P (fst (removedFolder folder w)).
Hypothesis Hconfigured : forall folder w,
    P w -> P (fst (configuredFolder host folder w)).
Hypothesis Hdeactivate : forall w, P w -> P (fst (deactivate w)).

Lemma folders_changed_preserves (Q : World -> Prop)
      (added removed : list WorkspaceFolder) :
  (forall w, Q w -> P (fst (invalidateSorted w))) ->
  forall w, Q w ->
            P (fst (onDidChangeWorkspaceFolders host added removed w)).
Proof.
  intros Hinvalidate w Hw. unfold onDidChangeWorkspaceFolders.
  unfold bind at 1. specialize (Hinvalidate w Hw).
  destruct (invalidateSorted w) as [w1 [u|]] eqn:E; cbn [fst] in *;
    [|exact Hinvalidate].
  revert w1 Hinvalidate E. intros w1 Hw1 _. revert w1 Hw1.
  apply bind_preserves.
  - apply forEach_preserves. intros x w0. apply Hremoved.
  - intros _. apply forEach_preserves. intros x w0. apply Hadded.
Qed.

Lemma configuration_changed_preserves (affectsCpp affectsClangd : bool) :
  forall w, P w ->
            P (fst (onDidChangeConfiguration host affectsCpp affectsClangd w)).
Proof.
  unfold onDidChangeConfiguration.
  destruct affectsCpp.
  - destruct (workspaceFolders host) as [folders|]; [|intros w Hw; exact Hw].
    apply bind_preserves.
    + apply forEach_preserves. intros x w. apply Hconfigured.
    + intros _. apply forEach_preserves. intros x w. apply Hopen.
  - destruct affectsClangd; [|intros w Hw; exact Hw].
    apply bind_preserves.
    + exact Hdeactivate.
    + intros _. apply forEach_preserves. intros x w. apply Hopen.
Qed.

End Composition.

Section Deactivate.

Lemma forEach_stop_calls (l : list nat) (w : World) :
  calls (fst (forEach stop l w)) = calls w ++ map Stop l
  /\ List.length (heap (fst (forEach stop l w))) = List.length (heap w).
Proof.
  revert w. induction l as [|c0 l IH]; intros w.
  - simpl. rewrite app_nil_r. auto.
  - set (w1 := mkWorld (clients w)
                       (updateAt c0
                          (fun o => mkClient (clientRoot o)
                                             (startDisposable o) false)
                          (heap w))
                       (handles w) (sortedCache w) (calls w ++ [Stop c0])).
    assert (forEach stop (c0 :: l) w = forEach stop l w1) as ->
        by reflexivity.
    destruct (IH w1) as [Hcalls Hlen]. rewrite Hcalls, Hlen. unfold w1.
    cbn [calls heap]. rewrite <- app_assoc, updateAt_length. auto.
Qed.

(** X10.  [deactivate] completes normally, calls [stop()] once on every
    registered client, in registration order, and on nothing else, and
    empties the registry; it creates no client, and a client that is
    running afterwards was running before and was not registered. *)
Theorem deactivate_stops_registered_clients (w : World) :
  let w' := fst (deactivate w) in
  snd (deactivate w) = Normal tt
  /\ clients w' = []
  /\ calls w' = calls w ++ map Stop (mapValues (clients w))
  /\ List.length (heap w') = List.length (heap w)
  /\ forall client,
      isRunning w' client = true ->
      isRunning w client = true /\ ~ In client (mapValues (clients w)).
Proof.
  cbv zeta. unfold deactivate, bind at 1 3 5 7 9, get. unfold bind.
  destruct (forEach_stop (mapValues (clients w)) w) as (Hret & _ & Hrun).
  destruct (forEach_stop_calls (mapValues (clients w)) w) as [Hcalls Hlen].
  destruct (forEach stop (mapValues (clients w)) w) as [w1 c].
  cbn [fst snd] in *. subst c.
  unfold setClients, modify. cbn.
  repeat split; try assumption.
  - apply (Hrun client). exact H.
  - apply (Hrun client). exact H.
Qed.

End Deactivate.

Section StartHandles.

Lemma Forall_updateAt (Q : ClangdLanguageClient -> Prop) (address : nat)
      (f : ClangdLanguageClient -> ClangdLanguageClient)
      (objects : list ClangdLanguageClient) :
  (forall o, Q o -> Q (f o)) ->
  Forall Q objects -> Forall Q (updateAt address f objects).
Proof.
  intros Hf. revert address.
  induction objects as [|o objects IH]; intros [|a] Hall; simpl;
    try exact Hall; inversion Hall; subst; constructor; auto.
Qed.

Lemma registersFresh_handles (w w' : World) :
  noStartHandles w -> registersFresh w w' -> noStartHandles w'.
Proof.
  unfold noStartHandles.
  intros Hw [[_ ->]|(folder & path & _ & _ & ->)]; [exact Hw|].
  apply Forall_updateAt; [auto|].
  apply Forall_app. split; [exact Hw | repeat constructor].
Qed.

Lemma stop_handles (client : nat) (w : World) :
  noStartHandles w -> noStartHandles (fst (stop client w)).
Proof.
  unfold noStartHandles, stop, bind, call, setRunning, modify. cbn.
  apply Forall_updateAt. auto.
Qed.

Lemma removedFolder_handles (folder : WorkspaceFolder) (w : World) :
  noStartHandles w -> noStartHandles (fst (removedFolder folder w)).
Proof.
  intros Hw. unfold removedFolder, bind, get, setClients, stop, call,
               setRunning, modify, ret. cbn.
  destruct (mapGet (clients w) folder); cbn; [|exact Hw].
  apply Forall_updateAt; auto.
Qed.

Lemma configuredFolder_handles (host : Host) (folder : WorkspaceFolder)
      (w : World) :
  noStartHandles w -> noStartHandles (fst (configuredFolder host folder w)).
Proof.
  intros Hw. unfold configuredFolder, bind, get, setClients, stop, call,
               setRunning, modify, ret. cbn.
  destruct (notOwned _ && mapHas _ _); cbn; [|exact Hw].
  destruct (mapGet (clients w) folder); cbn; [|exact Hw].
  apply Forall_updateAt; auto.
Qed.

Lemma deactivate_handles (w : World) :
  noStartHandles w -> noStartHandles (fst (deactivate w)).
Proof.
  intros Hw. unfold deactivate, bind at 1, get. unfold bind.
  assert (noStartHandles (fst (forEach stop (mapValues (clients w)) w)))
    as H by (apply forEach_preserves; [intros x w0; apply stop_handles | exact Hw]).
  destruct (forEach stop (mapValues (clients w)) w) as [w1 [u|]];
    cbn [fst] in *; exact H.
Qed.

(** X11.  The handlers start clients with [start()] and never record the
    handle: if no client object has a start handle, none has one after
    document open, folder change, configuration change or deactivate,
    and [dispose()] on any client of such a world changes nothing: it
    does not stop the client. *)
Theorem handlers_record_no_start_handle (host : Host) (w : World) :
  noStartHandles w ->
  (forall document,
      noStartHandles (fst (didOpenTextDocument host document w)))
  /\ (forall added removed,
         noStartHandles
           (fst (onDidChangeWorkspaceFolders host added removed w)))
  /\ (forall affectsCpp affectsClangd,
         noStartHandles
           (fst (onDidChangeConfiguration host affectsCpp affectsClangd w)))
  /\ noStartHandles (fst (deactivate w))
  /\ forall client, dispose client w = (w, Normal tt).
Proof.
  intros Hw.
  assert (forall document w0,
             noStartHandles w0 ->
             noStartHandles (fst (didOpenTextDocument host document w0)))
    as Hopen.
  { intros document w0 H0. eapply registersFresh_handles; [exact H0|].
    apply didOpenTextDocument_shape. }
  assert (forall folder w0,
             noStartHandles w0 ->
             noStartHandles (fst (addedFolder host folder w0))) as Hadded.
  { intros folder w0 H0. eapply registersFresh_handles; [exact H0|].
    apply addedFolder_shape. }
  split; [intros document; apply Hopen; exact Hw|].
  split.
  { intros added removed.
    apply (folders_changed_preserves noStartHandles host Hadded
             removedFolder_handles noStartHandles added removed);
      [|exact Hw].
    intros w0 H0. exact H0. }
  split.
  { intros affectsCpp affectsClangd.
    apply (configuration_changed_preserves noStartHandles host Hopen
             (configuredFolder_handles host) deactivate_handles);
      exact Hw. }
  split; [apply deactivate_handles; exact Hw|].
  intros client. unfold dispose, bind, get.
  destruct (nth_error (heap w) client) as [o|] eqn:Hobj; [|reflexivity].
  unfold noStartHandles in Hw. rewrite Forall_forall in Hw.
  rewrite (Hw o (nth_error_In _ _ Hobj)). reflexivity.
Qed.

Lemma no_start_handle_witness :
  let w := fst (didOpenTextDocument (Sample.host (Js.VString "any"))
                                    Sample.document initialWorld) in
  isRunning w 0 = true
  /\ noStartHandles w
  /\ dispose 0 w = (w, Normal tt).
Proof.
  assert (noStartHandles initialWorld) as H0 by constructor.
  pose proof (handlers_record_no_start_handle
                (Sample.host (Js.VString "any")) initialWorld H0)
    as (Hopen & _).
  specialize (Hopen Sample.document).
  pose proof (handlers_record_no_start_handle
                (Sample.host (Js.VString "any")) _ Hopen)
    as (_ & _ & _ & _ & Hdispose).
  split; [reflexivity|]. split; [exact Hopen | exact (Hdispose 0)].
Defined.

End StartHandles.

Section Routing.

Lemma didOpenTextDocument_unfold (host : Host) (document : TextDocument)
      (w : World) :
  didOpenTextDocument host document w
  = if routable document then
      match getWorkspaceFolder host (documentUri document) with
      | None => (w, Normal tt)
      | Some folder =>
          match getOuterMostWorkspaceFolder host folder w with
          | (w1, Normal (Some outer)) => openInFolder host document outer w1
          | (w1, _) => (w1, Throw)
          end
      end
    else (w, Normal tt).
Proof.
  unfold didOpenTextDocument, routable.
  destruct (negb _ && negb _); [reflexivity|].
  cbn [negb andb].
  destruct (existsb _ supportedLanguages); [|reflexivity].
  cbn [negb].
  destruct (getWorkspaceFolder host (documentUri document)) as [folder|];
    [|reflexivity].
  unfold bind at 1.
  destruct (getOuterMostWorkspaceFolder host folder w) as [w1 [[outer|]|]];
    reflexivity.
Qed.

Lemma getOuterMost_cached (host : Host) (folder : WorkspaceFolder)
      (w : World) (sorted : list string) :
  sortedCache w = Some sorted ->
  getOuterMostWorkspaceFolder host folder w
  = (w, Normal (resolveIn host sorted folder)).
Proof.
  intros Hcache.
  unfold getOuterMostWorkspaceFolder, sortedWorkspaceFolders, bind, get, ret,
    resolveIn.
  rewrite Hcache.
  destruct (firstPrefix _ sorted); reflexivity.
Qed.

Lemma getOuterMost_result (host : Host) (folder : WorkspaceFolder)
      (w : World) :
  exists sorted,
    (sortedCache w = Some sorted
     \/ (sortedCache w = None /\ sorted = computeSorted host))
    /\ sortedCache (fst (getOuterMostWorkspaceFolder host folder w))
       = Some sorted
    /\ snd (getOuterMostWorkspaceFolder host folder w)
       = Normal (resolveIn host sorted folder).
Proof.
  destruct (sortedCache w) as [sorted|] eqn:Hcache.
  - exists sorted. rewrite (getOuterMost_cached host folder w sorted Hcache).
    auto.
  - exists (computeSorted host). split; [auto|].
    unfold getOuterMostWorkspaceFolder, sortedWorkspaceFolders, bind, get,
      modify, ret, resolveIn.
    rewrite Hcache. cbn.
    destruct (firstPrefix _ (computeSorted host)); auto.
Qed.

Lemma resolveIn_from_host (host : Host) (sorted : list string)
      (folder outer : WorkspaceFolder) :
  resolveIn host sorted folder = Some outer ->
  outer = folder \/ exists uri, getWorkspaceFolder host uri = Some outer.
Proof.
  unfold resolveIn. destruct (firstPrefix _ sorted) as [e|].
  - intros H. right. exists (parseUri host e). exact H.
  - intros [= ->]. left. reflexivity.
Qed.

Lemma mapGet_mapSet_same (m : list (WorkspaceFolder * nat))
      (k : WorkspaceFolder) (v : nat) :
  mapGet (mapSet m k v) k = Some v.
Proof.
  induction m as [|[k' v'] m IH]; simpl.
  - unfold sameFolder. rewrite Nat.eqb_refl. reflexivity.
  - destruct (sameFolder k k') eqn:E; simpl; rewrite E; [reflexivity|].
    exact IH.
Qed.

(** What [openInFolder] does to the registry, the objects and the
    cache. *)
Lemma openInFolder_spec (host : Host) (document : TextDocument)
      (folder : WorkspaceFolder) (w : World) :
  let w' := fst (openInFolder host document folder w) in
  sortedCache w' = sortedCache w
  /\ snd (openInFolder host document folder w) = Normal tt
  /\ ((clients w' = clients w /\ heap w' = heap w
       /\ (notOwned (cppLanguageClient host (folderUri folder)) = true
           \/ mapHas (clients w) folder = true))
      \/ (notOwned (cppLanguageClient host (folderUri folder)) = false
          /\ mapGet (clients w) folder = None
          /\ clients w' = mapSet (clients w) folder (List.length (heap w))
          /\ heap w'
             = updateAt (List.length (heap w))
                        (fun o => mkClient (clientRoot o)
                                           (startDisposable o) true)
                        (heap w ++ [mkClient (folderUri folder) None false]))).
Proof.
  cbv zeta. unfold openInFolder.
  destruct (notOwned (cppLanguageClient host (folderUri folder))) eqn:Hown.
  - unfold bind, call, modify, ret. cbn.
    split; [reflexivity|]. split; [reflexivity|]. left.
    split; [reflexivity|]. split; [reflexivity|]. left. reflexivity.
  - unfold bind, call, modify, ret, get. cbn.
    unfold mapHas. destruct (mapGet (clients w) folder) eqn:Hget; cbn.
    + split; [reflexivity|]. split; [reflexivity|]. left.
      split; [reflexivity|]. split; [reflexivity|]. right. reflexivity.
    + split; [reflexivity|]. split; [reflexivity|]. right.
      split; [reflexivity|]. split; [reflexivity|].
      split; reflexivity.
Qed.

Lemma didOpen_owned_shape
      (host : Host) (document : TextDocument) (w : World) :
  registersOwned host w (fst (didOpenTextDocument host document w)).
Proof.
  rewrite didOpenTextDocument_unfold.
  destruct (routable document); [|left; auto].
  destruct (getWorkspaceFolder host (documentUri document))
    as [folder|] eqn:Hfolder; [|left; auto].
  destruct (getOuterMost_frame host folder w) as [Hc Hh].
  destruct (getOuterMost_result host folder w)
    as (sorted & _ & _ & Hres).
  destruct (getOuterMostWorkspaceFolder host folder w)
    as [w1 [[outer|]|]]; cbn [fst snd] in *;
    [|left; auto|left; auto].
  injection Hres as Hres.
  destruct (openInFolder_spec host document outer w1)
    as (_ & _ & [(Hc' & Hh' & _)|(Hown & Hget & Hc' & Hh')]).
  - left. split; congruence.
  - right. exists outer. rewrite Hc', Hh', Hc, Hh.
    split.
    + symmetry in Hres.
      destruct (resolveIn_from_host host sorted folder outer Hres)
        as [->|Huri]; [exists (documentUri document); exact Hfolder|].
      exact Huri.
    + rewrite <- Hc. auto.
Qed.

(** X12.  Opening a document changes the registry only for a document of
    scheme [file] or [untitled] in one of the five languages, and then
    only by registering one new client: for a folder object the host
    handed out, whose setting is ["any"] or ["compile"], and which had
    no client.  It never registers a folder with another setting and
    never replaces or removes a registration. *)
Theorem didOpen_registers_only_owned_folders
        (host : Host) (document : TextDocument) (w : World) :
  registersOwned host w (fst (didOpenTextDocument host document w))
  /\ (routable document = false ->
      didOpenTextDocument host document w = (w, Normal tt))
  /\ (forall folder client,
         mapGet (clients w) folder = Some client ->
         mapGet (clients (fst (didOpenTextDocument host document w))) folder
         = Some client).
Proof.
  pose proof (didOpen_owned_shape host document w)
    as Hshape.
  split; [exact Hshape|]. split.
  - intros Hroute. rewrite didOpenTextDocument_unfold, Hroute. reflexivity.
  - intros folder client Hget.
    destruct Hshape as [[-> _]|(f & _ & _ & Hnone & -> & _)]; [exact Hget|].
    rewrite (mapSet_absent _ f _ Hnone).
    clear - Hget. induction (clients w) as [|[k v] m IH]; simpl in *;
      [discriminate|].
    destruct (sameFolder folder k); [exact Hget | apply IH; exact Hget].
Qed.

(** X13.  Opening the same document twice in a row never creates a
    second client: the registry and the client objects after the second
    call are those after the first. *)
Theorem didOpen_twice_creates_once
        (host : Host) (document : TextDocument) (w : World) :
  let w1 := fst (didOpenTextDocument host document w) in
  let w2 := fst (didOpenTextDocument host document w1) in
  clients w2 = clients w1 /\ heap w2 = heap w1.
Proof.
  cbv zeta. rewrite (didOpenTextDocument_unfold host document w).
  destruct (routable document) eqn:Hroute.
  2:{ cbn [fst]. rewrite didOpenTextDocument_unfold, Hroute. auto. }
  destruct (getWorkspaceFolder host (documentUri document))
    as [folder|] eqn:Hfolder.
  2:{ cbn [fst]. rewrite didOpenTextDocument_unfold, Hroute, Hfolder. auto. }
  destruct (getOuterMost_result host folder w)
    as (sorted & _ & Hcache & Hres).
  destruct (getOuterMostWorkspaceFolder host folder w) as [wc c].
  cbn [fst snd] in *. subst c.
  destruct (resolveIn host sorted folder) as [outer|] eqn:Houter.
  - destruct (openInFolder_spec host document outer wc)
      as (Hcache1 & _ & Hfirst).
    set (w1 := fst (openInFolder host document outer wc)) in *.
    rewrite didOpenTextDocument_unfold, Hroute, Hfolder.
    rewrite (getOuterMost_cached host folder w1 sorted)
      by (rewrite Hcache1; exact Hcache).
    rewrite Houter.
    destruct (openInFolder_spec host document outer w1)
      as (_ & _ & [(Hc & Hh & _)|(Hown & Hget & _)]); [auto|].
    exfalso.
    destruct Hfirst as [(Hc1 & _ & [Hno|Hhas])|(_ & _ & Hc1 & _)].
    + congruence.
    + rewrite Hc1 in Hget. unfold mapHas in Hhas. rewrite Hget in Hhas.
      discriminate.
    + rewrite Hc1, mapGet_mapSet_same in Hget. discriminate.
  - cbn [fst]. rewrite didOpenTextDocument_unfold, Hroute, Hfolder.
    rewrite (getOuterMost_cached host folder wc sorted Hcache), Houter.
    auto.
Qed.

End Routing.

Section RegistryLookups.

Lemma mapGet_sameFolder (m : list (WorkspaceFolder * nat))
      (k k' : WorkspaceFolder) :
  sameFolder k k' = true -> mapGet m k = mapGet m k'.
Proof.
  unfold sameFolder. intros H. apply Nat.eqb_eq in H.
  induction m as [|[k0 v] m IH]; simpl; [reflexivity|].
  unfold sameFolder. rewrite H, IH. reflexivity.
Qed.

Lemma mapGet_mapDelete_same (m : list (WorkspaceFolder * nat))
      (k : WorkspaceFolder) :
  mapGet (mapDelete m k) k = None.
Proof.
  induction m as [|[k0 v] m IH]; simpl; [reflexivity|].
  destruct (sameFolder k k0) eqn:E; simpl; [exact IH|].
  rewrite E. exact IH.
Qed.

Lemma mapGet_mapDelete_other (m : list (WorkspaceFolder * nat))
      (k k' : WorkspaceFolder) :
  sameFolder k' k = false -> mapGet (mapDelete m k) k' = mapGet m k'.
Proof.
  unfold sameFolder. intros H. apply Nat.eqb_neq in H.
  induction m as [|[k0 v] m IH]; simpl; [reflexivity|].
  unfold sameFolder.
  destruct (Nat.eqb_spec (folderRef k) (folderRef k0)) as [Heq|Hne]; simpl.
  - destruct (Nat.eqb_spec (folderRef k') (folderRef k0)) as [Heq'|_];
      [congruence | exact IH].
  - unfold sameFolder. rewrite IH. reflexivity.
Qed.

Lemma mapGet_mapDelete_none (m : list (WorkspaceFolder * nat))
      (k k' : WorkspaceFolder) :
  mapGet m k' = None -> mapGet (mapDelete m k) k' = None.
Proof.
  induction m as [|[k0 v] m IH]; simpl; [reflexivity|].
  destruct (sameFolder k' k0) eqn:E; [discriminate|].
  intros H. destruct (sameFolder k k0); simpl; [|rewrite E]; apply IH, H.
Qed.

Lemma mapGet_mapSet_other (m : list (WorkspaceFolder * nat))
      (k k' : WorkspaceFolder) (v : nat) :
  sameFolder k' k = false -> mapGet (mapSet m k v) k' = mapGet m k'.
Proof.
  unfold sameFolder. intros H. apply Nat.eqb_neq in H.
  induction m as [|[k0 v0] m IH]; simpl.
  - unfold sameFolder.
    destruct (Nat.eqb_spec (folderRef k') (folderRef k)); [congruence|].
    reflexivity.
  - unfold sameFolder.
    destruct (Nat.eqb_spec (folderRef k) (folderRef k0)) as [Heq|Hne]; simpl;
      unfold sameFolder.
    + destruct (Nat.eqb_spec (folderRef k') (folderRef k0)); [congruence|].
      reflexivity.
    + rewrite IH. reflexivity.
Qed.

Lemma forEach_normal {A} (body : A -> M unit) (xs : list A) :
  (forall x w, snd (body x w) = Normal tt) ->
  forall w, snd (forEach body xs w) = Normal tt.
Proof.
  intros Hbody. induction xs as [|x xs IH]; intros w; simpl; [reflexivity|].
  unfold bind. specialize (Hbody x w).
  destruct (body x w) as [w' c]. simpl in Hbody. subst c. apply IH.
Qed.

Lemma forEach_cons {A} (body : A -> M unit) (x : A) (xs : list A) (w : World) :
  snd (body x w) = Normal tt ->
  forEach body (x :: xs) w = forEach body xs (fst (body x w)).
Proof.
  intros H. simpl. unfold bind.
  destruct (body x w) as [w' c]. simpl in *. subst c. reflexivity.
Qed.

End RegistryLookups.

Section ConfigurationChange.






End ConfigurationChange.

Section FolderRemoval.

Variable target : WorkspaceFolder.
Variable client : nat.

(** The target folder is still registered for its client. *)
Let pending (w : World) : Prop :=
  mapGet (clients w) target = Some client
  /\ client < List.length (heap w).

(** The target folder is unregistered and its client stopped. *)
Let released (w : World) : Prop :=
  mapGet (clients w) target = None
  /\ isRunning w client = false
  /\ client < List.length (heap w)
  /\ In (Stop client) (calls w).

Lemma removedFolder_normal (folder : WorkspaceFolder) (w : World) :
  snd (removedFolder folder w) = Normal tt.
Proof.
  unfold removedFolder, bind, get, setClients, stop, call, setRunning,
    modify, ret. cbn.
  destruct (mapGet (clients w) folder); reflexivity.
Qed.

Lemma removedFolder_released (folder : WorkspaceFolder) (w : World) :
  released w -> released (fst (removedFolder folder w)).
Proof.
  intros (Hget & Hrun & Hlen & Hcall).
  unfold released, removedFolder, bind, get, setClients, stop, call,
    setRunning, modify, ret. cbn.
  destruct (mapGet (clients w) folder) as [c'|]; cbn;
    [|repeat split; assumption].
  split; [apply mapGet_mapDelete_none; exact Hget|].
  split.
  { unfold isRunning in *. cbn. rewrite nth_error_updateAt.
    destruct (Nat.eqb client c'); [|exact Hrun].
    destruct (nth_error (heap w) client); reflexivity. }
  split; [rewrite updateAt_length; exact Hlen|].
  apply in_app_iff. auto.
Qed.

Lemma removedFolder_pending (folder : WorkspaceFolder) (w : World) :
  pending w ->
  if sameFolder target folder then released (fst (removedFolder folder w))
  else pending (fst (removedFolder folder w)).
Proof.
  intros (Hget & Hlen).
  destruct (sameFolder target folder) eqn:Hsame.
  - unfold released, removedFolder, bind, get, setClients, stop, call,
      setRunning, modify, ret. cbn.
    rewrite <- (mapGet_sameFolder (clients w) target folder Hsame), Hget.
    cbn.
    split.
    { rewrite (mapGet_sameFolder _ target folder Hsame).
      apply mapGet_mapDelete_same. }
    split.
    { unfold isRunning. cbn. rewrite nth_error_updateAt, Nat.eqb_refl.
      destruct (nth_error (heap w) client); reflexivity. }
    split; [rewrite updateAt_length; exact Hlen|].
    apply in_app_iff. simpl. auto.
  - unfold pending, removedFolder, bind, get, setClients, stop, call,
      setRunning, modify, ret. cbn.
    destruct (mapGet (clients w) folder) as [c'|]; cbn;
      [|split; assumption].
    split; [rewrite mapGet_mapDelete_other by exact Hsame; exact Hget|].
    rewrite updateAt_length. exact Hlen.
Qed.

Lemma removed_loop (removed : list WorkspaceFolder) :
  forall w,
    pending w ->
    (exists r, In r removed /\ sameFolder target r = true) ->
    released (fst (forEach removedFolder removed w)).
Proof.
  induction removed as [|x removed IH]; intros w Hpending [r [Hin Hsame]];
    [destruct Hin|].
  rewrite (forEach_cons _ x removed w (removedFolder_normal x w)).
  pose proof (removedFolder_pending x w Hpending) as Hstep.
  destruct (sameFolder target x) eqn:Hx.
  - apply (forEach_preserves released); [|exact Hstep].
    intros y w0. apply removedFolder_released.
  - apply IH; [exact Hstep|].
    destruct Hin as [->|Hin]; [congruence|]. exists r. auto.
Qed.

Lemma addedFolder_released (host : Host) (folder : WorkspaceFolder)
      (w : World) :
  sameFolder target folder = false ->
  released w -> released (fst (addedFolder host folder w)).
Proof.
  intros Hsame (Hget & Hrun & Hlen & Hcall).
  unfold released, addedFolder.
  destruct (notOwned _); [|repeat split; assumption].
  unfold bind, get, call, modify, ret. cbn.
  destruct (mapGet (clients w) folder) eqn:Hfolder; cbn;
    [repeat split; assumption|].
  split; [rewrite mapGet_mapSet_other by exact Hsame; exact Hget|].
  split.
  { unfold isRunning in *. cbn. rewrite nth_error_updateAt.
    destruct (Nat.eqb_spec client (List.length (heap w))) as [Heq|_];
      [lia|].
    rewrite nth_error_app1 by exact Hlen. exact Hrun. }
  split; [rewrite updateAt_length, length_app; simpl; lia|].
  apply in_app_iff. left. apply in_app_iff. auto.
Qed.

(** X15.  In a consistent world, removing a workspace folder that has a
    client, and is not added back by the same event, leaves the folder
    without registry entry and its client stopped by a [stop()] call,
    whatever else the event removes or adds. *)
Theorem removed_folder_is_released
        (host : Host) (added removed : list WorkspaceFolder) (w : World) :
  Consistent w ->
  mapGet (clients w) target = Some client ->
  (exists r, In r removed /\ sameFolder target r = true) ->
  (forall a, In a added -> sameFolder target a = false) ->
  let w' := fst (onDidChangeWorkspaceFolders host added removed w) in
  mapGet (clients w') target = None
  /\ isRunning w' client = false
  /\ In (Stop client) (calls w').
Proof.
  intros Hc Hget Hremoved Hadded. cbv zeta.
  assert (pending w) as Hpending.
  { split; [exact Hget|].
    destruct Hc as (_ & _ & Hrun).
    apply mapGet_Some_In in Hget. apply Hrun in Hget.
    apply nth_error_Some. intros Hnone. rewrite Hnone in Hget.
    discriminate. }
  enough (released (fst (onDidChangeWorkspaceFolders host added removed w)))
    as (H1 & H2 & _ & H4) by auto.
  unfold onDidChangeWorkspaceFolders.
  unfold bind at 1, invalidateSorted, modify. cbn [fst snd].
  set (w0 := mkWorld _ _ _ None _).
  assert (pending w0) as Hpending0 by exact Hpending.
  pose proof (removed_loop removed w0 Hpending0 Hremoved) as Hreleased.
  unfold bind.
  pose proof (forEach_normal removedFolder removed removedFolder_normal w0)
    as Hnormal.
  destruct (forEach removedFolder removed w0) as [w1 c].
  cbn [fst snd] in *. subst c.
  clear - Hreleased Hadded. revert w1 Hreleased.
  induction added as [|a added IH]; intros w1 Hreleased; [exact Hreleased|].
  simpl. unfold bind.
  pose proof (addedFolder_released host a w1
                (Hadded a (or_introl eq_refl)) Hreleased) as Hstep.
  destruct (addedFolder host a w1) as [w2 [u|]]; cbn [fst] in *;
    [|exact Hstep].
  apply IH; [|exact Hstep].
  intros a' Ha'. apply Hadded. simpl. auto.
Qed.

End FolderRemoval.

Lemma removed_folder_witness :
  let w := fst (didOpenTextDocument (Sample.host (Js.VString "any"))
                                    Sample.document initialWorld) in
  let w' := fst (onDidChangeWorkspaceFolders
                   (Sample.host (Js.VString "off")) [Sample.pkg]
                   [Sample.ws] w) in
  mapGet (clients w') Sample.ws = None
  /\ isRunning w' 0 = false
  /\ In (Stop 0) (calls w').
Proof.
  apply (removed_folder_is_released
           Sample.ws 0 (Sample.host (Js.VString "off"))
           [Sample.pkg] [Sample.ws]).
  - apply didOpenTextDocument_preserves. exact initialWorld_consistent.
  - reflexivity.
  - exists Sample.ws. split; [simpl; auto | reflexivity].
  - intros a [<-|[]]. reflexivity.
Defined.

Section Prefixes.

Lemma prefix_refl (s : string) : String.prefix s s = true.
Proof.
  induction s as [|c s IH]; simpl; [reflexivity|].
  destruct (ascii_dec c c); [exact IH | congruence].
Qed.

Lemma prefix_trans (a b c : string) :
  String.prefix a b = true -> String.prefix b c = true ->
  String.prefix a c = true.
Proof.
  revert b c. induction a as [|x a IH]; intros [|y b] [|z c]; simpl;
    try reflexivity; try discriminate.
  destruct (ascii_dec x y) as [->|]; [|discriminate].
  destruct (ascii_dec y z) as [->|]; [|discriminate].
  destruct (ascii_dec z z); [|congruence]. apply IH.
Qed.

Lemma prefix_same_length (a b : string) :
  String.prefix a b = true -> String.length b <= String.length a -> a = b.
Proof.
  revert b. induction a as [|x a IH]; intros [|y b]; simpl;
    try reflexivity; try discriminate; try lia.
  destruct (ascii_dec x y) as [->|]; [|discriminate].
  intros Hp Hlen. f_equal. apply IH; [exact Hp | lia].
Qed.

Lemma find_exists {A} (pred : A -> bool) (l : list A) (x : A) :
  In x l -> pred x = true -> exists y, find pred l = Some y.
Proof.
  induction l as [|z l IH]; simpl; [tauto|].
  intros Hin Hx. destruct (pred z) eqn:Hz; [eauto|].
  destruct Hin as [->|Hin]; [congruence|]. apply IH; assumption.
Qed.

End Prefixes.

Section OutermostAgain.

(** X16.  With a coherent cache and a host that resolves each configured
    URI to a folder with that URI, the lookup always answers a folder;
    that folder's URI is a prefix of the input's; no other configured
    URI is a prefix of it; and looking the answer up again gives the
    same answer. *)
Theorem outermost_is_idempotent
        (host : Host) (w : World) (folder : WorkspaceFolder) :
  cacheCoherent host w ->
  resolvesConfigured host ->
  let slashed f := withTrailingSlash (uriText (folderUri f)) in
  let first := getOuterMostWorkspaceFolder host folder w in
  exists outer,
    snd first = Normal (Some outer)
    /\ Js.startsWith (slashed folder) (slashed outer) = true
    /\ (forall e, In e (configuredUris host) ->
                  Js.startsWith (slashed outer) e = true ->
                  e = slashed outer)
    /\ snd (getOuterMostWorkspaceFolder host outer (fst first))
       = Normal (Some outer).
Proof.
  intros Hcache Hresolves slashed first.
  destruct (sortedWorkspaceFolders_coherent host w Hcache)
    as (Hret & Hcache' & _ & _).
  assert (sortedCache (fst first) = Some (computeSorted host)
          /\ snd first = Normal (resolveIn host (computeSorted host) folder))
    as [Hcache1 Hfirst].
  { unfold first, getOuterMostWorkspaceFolder, bind, resolveIn.
    destruct (sortedWorkspaceFolders host w) as [w' c]. simpl in *.
    rewrite Hret.
    destruct (firstPrefix _ (computeSorted host)); simpl; auto. }
  set (sorted := computeSorted host) in *.
  assert (forall e, In e sorted <-> In e (configuredUris host)) as Hperm.
  { intros e. split; apply Permutation_in;
      [|symmetry]; apply computeSorted_perm. }
  unfold resolveIn in Hfirst. fold (slashed folder) in Hfirst.
  rewrite firstPrefix_find in Hfirst.
  destruct (find (fun e => Js.startsWith (slashed folder) e) sorted)
    as [e|] eqn:Hfind.
  - pose proof (find_some _ _ Hfind) as [Hin Hpre].
    destruct (Hresolves e (proj1 (Hperm e) Hin)) as (outer & Houter & Huri).
    exists outer. fold (slashed outer) in Huri.
    assert (forall e', In e' (configuredUris host) ->
                       Js.startsWith (slashed outer) e' = true ->
                       e' = slashed outer) as Hminimal.
    { intros e' Hin' Hpre'. rewrite Huri in *.
      apply prefix_same_length; [exact Hpre'|].
      apply (find_sorted_shortest _ sorted e (computeSorted_sorted host)
                                  Hfind e' (proj2 (Hperm e') Hin')).
      unfold Js.startsWith in *.
      eapply prefix_trans; [exact Hpre' | exact Hpre]. }
    split; [rewrite Hfirst, Houter; reflexivity|].
    split; [rewrite Huri; exact Hpre|].
    split; [exact Hminimal|].
    rewrite (getOuterMost_cached host outer (fst first) sorted Hcache1).
    unfold resolveIn. fold (slashed outer). rewrite firstPrefix_find.
    assert (Js.startsWith (slashed outer) e = true) as Hself
        by (rewrite Huri; apply prefix_refl).
    destruct (find_exists (fun e0 => Js.startsWith (slashed outer) e0)
                          sorted e Hin Hself) as [e' Hfind'].
    rewrite Hfind'.
    pose proof (find_some _ _ Hfind') as [Hin' Hpre'].
    rewrite (Hminimal e' (proj1 (Hperm e') Hin') Hpre'), Huri, Houter.
    reflexivity.
  - exists folder.
    split; [exact Hfirst|].
    split; [apply prefix_refl|].
    split.
    { intros e' Hin' Hpre'.
      pose proof (find_none _ _ Hfind e' (proj2 (Hperm e') Hin')) as Hno.
      simpl in Hno. congruence. }
    rewrite (getOuterMost_cached host folder (fst first) sorted Hcache1).
    unfold resolveIn. fold (slashed folder).
    rewrite firstPrefix_find, Hfind. reflexivity.
Qed.

Lemma sample_resolves (setting : Js.value) :
  resolvesConfigured (Sample.host setting).
Proof.
  intros e [<-|[<-|[]]].
  - exists Sample.pkg. split; reflexivity.
  - exists Sample.ws. split; reflexivity.
Qed.

Lemma outermost_idempotent_witness :
  exists outer,
    snd (getOuterMostWorkspaceFolder (Sample.host (Js.VString "any"))
                                     Sample.pkg initialWorld)
    = Normal (Some outer)
    /\ snd (getOuterMostWorkspaceFolder
              (Sample.host (Js.VString "any")) outer
              (fst (getOuterMostWorkspaceFolder
                      (Sample.host (Js.VString "any"))
                      Sample.pkg initialWorld)))
       = Normal (Some outer).
Proof.
  destruct (outermost_is_idempotent
              (Sample.host (Js.VString "any")) initialWorld Sample.pkg
              (or_introl eq_refl) (sample_resolves (Js.VString "any")))
    as (outer & H1 & _ & _ & H2).
  exists outer. split; [exact H1 | exact H2].
Defined.

End OutermostAgain.

Section CacheCoherence.

Lemma removedFolder_cache (folder : WorkspaceFolder) (w : World) :
  sortedCache (fst (removedFolder folder w)) = sortedCache w.
Proof.
  unfold removedFolder, bind, get, setClients, stop, call, setRunning,
    modify, ret. cbn.
  destruct (mapGet (clients w) folder); reflexivity.
Qed.

Lemma addedFolder_cache (host : Host) (folder : WorkspaceFolder) (w : World) :
  sortedCache (fst (addedFolder host folder w)) = sortedCache w.
Proof.
  unfold addedFolder. destruct (notOwned _); [|reflexivity].
  unfold bind, get, call, modify, ret. cbn.
  destruct (mapGet (clients w) folder); reflexivity.
Qed.

Lemma configuredFolder_cache (host : Host) (folder : WorkspaceFolder)
      (w : World) :
  sortedCache (fst (configuredFolder host folder w)) = sortedCache w.
Proof.
  unfold configuredFolder, bind, get, setClients, stop, call, setRunning,
    modify, ret. cbn.
  destruct (notOwned _ && mapHas _ _); [|reflexivity].
  destruct (mapGet (clients w) folder); reflexivity.
Qed.

Lemma deactivate_cache (w : World) :
  sortedCache (fst (deactivate w)) = sortedCache w.
Proof.
  unfold deactivate, bind at 1, get. unfold bind.
  assert (sortedCache (fst (forEach stop (mapValues (clients w)) w))
          = sortedCache w) as H.
  { apply (forEach_preserves (fun w0 => sortedCache w0 = sortedCache w));
      [|reflexivity].
    intros c w0 H0. rewrite <- H0. reflexivity. }
  destruct (forEach stop (mapValues (clients w)) w) as [w1 [u|]];
    cbn [fst] in *; exact H.
Qed.

Lemma didOpen_cache (host : Host) (document : TextDocument) (w : World) :
  cacheCoherent host w ->
  cacheCoherent host (fst (didOpenTextDocument host document w)).
Proof.
  intros Hcache. rewrite didOpenTextDocument_unfold.
  destruct (routable document); [|exact Hcache].
  destruct (getWorkspaceFolder host (documentUri document)) as [folder|];
    [|exact Hcache].
  destruct (getOuterMost_result host folder w)
    as (sorted & Hold & Hnew & _).
  assert (sorted = computeSorted host) as ->.
  { destruct Hold as [Hold|[_ ->]]; [|reflexivity].
    destruct Hcache as [Hnone|Hsome]; congruence. }
  destruct (getOuterMostWorkspaceFolder host folder w)
    as [w1 [[outer|]|]]; cbn [fst snd] in *; try (right; exact Hnew).
  destruct (openInFolder_spec host document outer w1) as (Hsame & _).
  right. rewrite Hsame. exact Hnew.
Qed.

(** X17.  The sorted-folder cache is never stale when a handler reads
    it: it is coherent at load; a workspace-folder change leaves it empty
    and therefore coherent with whatever the workspace has become; and
    document open, configuration change and deactivate keep it
    coherent. *)
Theorem cache_stays_coherent (host : Host) (w : World) :
  cacheCoherent host w ->
  cacheCoherent host initialWorld
  /\ (forall document,
         cacheCoherent host (fst (didOpenTextDocument host document w)))
  /\ (forall affectsCpp affectsClangd,
         cacheCoherent
           host (fst (onDidChangeConfiguration host affectsCpp affectsClangd
                                               w)))
  /\ cacheCoherent host (fst (deactivate w))
  /\ (forall (before : Host) (added removed : list WorkspaceFolder)
             (w0 : World),
         sortedCache (fst (onDidChangeWorkspaceFolders before added removed
                                                       w0)) = None).
Proof.
  intros Hcache.
  split; [left; reflexivity|].
  split; [intros document; apply didOpen_cache; exact Hcache|].
  split.
  { intros affectsCpp affectsClangd.
    apply (configuration_changed_preserves (cacheCoherent host) host);
      [..|exact Hcache].
    - intros document w0. apply didOpen_cache.
    - intros folder w0 H0. unfold cacheCoherent.
      rewrite configuredFolder_cache. exact H0.
    - intros w0 H0. unfold cacheCoherent. rewrite deactivate_cache.
      exact H0. }
  split.
  { unfold cacheCoherent. rewrite deactivate_cache. exact Hcache. }
  intros before added removed w0.
  apply (folders_changed_preserves
           (fun w1 => sortedCache w1 = None) before) with (Q := fun _ => True);
    [..|exact I].
  - intros folder w1 H1. rewrite addedFolder_cache. exact H1.
  - intros folder w1 H1. rewrite removedFolder_cache. exact H1.
  - intros w1 _. reflexivity.
Qed.

Lemma cache_coherent_witness :
  cacheCoherent
    (Sample.host (Js.VString "any"))
    (fst (didOpenTextDocument (Sample.host (Js.VString "any"))
                              Sample.document initialWorld)).
Proof.
  apply (cache_stays_coherent (Sample.host (Js.VString "any")) initialWorld).
  left. reflexivity.
Defined.

End CacheCoherence.

Section CompletionMiddleware.

Variable getText : Middleware.Position -> Middleware.Position -> string.
Variable position : Middleware.Position.

Lemma prefix_append (p s : string) :
  String.prefix p (p ++ s)%string = true.
Proof.
  induction p as [|c p IH]; simpl; [destruct s; reflexivity|].
  destruct (ascii_dec c c); [exact IH | congruence].
Qed.

Lemma adapt_adapted (item item' : Middleware.CompletionItem) :
  Middleware.adapt getText position item = Some item' ->
  adapted getText position item item'.
Proof.
  unfold Middleware.adapt, adapted.
  destruct (Middleware.rangeStart item) as [start|] eqn:Hstart;
    [|discriminate].
  destruct (String.eqb_spec (getText start position) EmptyString)
    as [Hempty|Hfull]; intros [= <-]; simpl.
  - repeat split; try assumption.
    exists start. split; [reflexivity|]. split; [reflexivity|].
    intros H. contradiction.
  - repeat split; try assumption.
    exists start. split; [reflexivity|]. split; [contradiction|].
    intros _. eexists. split; [reflexivity|]. split.
    + apply prefix_append.
    + apply endsWith_iff. exists (getText start position ++ "_")%string.
      symmetry. apply append_assoc.
Qed.

Lemma mapItems_spec (items : list Middleware.CompletionItem) :
  match Middleware.mapItems getText position items with
  | Some items' => Forall2 (adapted getText position) items items'
  | None => exists item, In item items /\ Middleware.rangeStart item = None
  end.
Proof.
  induction items as [|item items IH]; simpl; [constructor|].
  destruct (Middleware.adapt getText position item) as [item'|] eqn:Hitem.
  - destruct (Middleware.mapItems getText position items) as [items'|].
    + constructor; [apply adapt_adapted; exact Hitem | exact IH].
    + destruct IH as [bad [Hin Hbad]]. exists bad. auto.
  - exists item. split; [auto|].
    unfold Middleware.adapt in Hitem.
    destruct (Middleware.rangeStart item); [|reflexivity].
    destruct (String.eqb _ _); discriminate.
Qed.

(** X18.  The completion middleware rejects only when the server gave no
    result or some item has no plain range.  Otherwise it returns as many
    items, in the same order, always flagged incomplete; each item keeps
    its label, sort text and range; an item whose typed prefix is empty
    is returned as it is; any other item gets a filter text that starts
    with the typed prefix and ends with the text of its old filter
    text. *)
Theorem middleware_prefixes_filter_text (result : Middleware.ProviderResult) :
  match Middleware.provideCompletionItem getText position result with
  | Some (items', isIncomplete) =>
      isIncomplete = true
      /\ exists items,
          (result = Middleware.ItemArray items
           \/ exists flag, result = Middleware.ItemList items flag)
          /\ Forall2 (adapted getText position) items items'
  | None =>
      result = Middleware.NoResult
      \/ exists items item,
          (result = Middleware.ItemArray items
           \/ exists flag, result = Middleware.ItemList items flag)
          /\ In item items
          /\ Middleware.rangeStart item = None
  end.
Proof.
  destruct result as [items|items flag|]; simpl; [| |auto].
  - pose proof (mapItems_spec items) as H.
    destruct (Middleware.mapItems getText position items) as [items'|].
    + split; [reflexivity|]. exists items. auto.
    + right. destruct H as [item [Hin Hbad]]. exists items, item. auto.
  - pose proof (mapItems_spec items) as H.
    destruct (Middleware.mapItems getText position items) as [items'|].
    + split; [reflexivity|]. exists items. split; [right; eauto | exact H].
    + right. destruct H as [item [Hin Hbad]]. exists items, item.
      split; [right; eauto | auto].
Qed.

End CompletionMiddleware.

Section ClientActivate.

(** X19.  [activate()] on an existing client object disposes the handle
    recorded by a previous [activate()], if any, then starts the client
    and records the fresh handle: the client ends up running, no other
    client object and no registration is touched, and a following
    [dispose()] disposes that fresh handle and leaves the client
    stopped. *)
Theorem client_activate_relaunches
        (client : nat) (w : World) (o : ClangdLanguageClient) :
  nth_error (heap w) client = Some o ->
  let w' := fst (activate client w) in
  snd (activate client w) = Normal tt
  /\ nth_error (heap w') client
     = Some (mkClient (clientRoot o) (Some (handles w)) true)
  /\ (forall other, other <> client ->
                    nth_error (heap w') other = nth_error (heap w) other)
  /\ clients w' = clients w
  /\ handles w' = S (handles w)
  /\ calls w'
     = calls w
       ++ match startDisposable o with
          | Some handle => [DisposeHandle client handle]
          | None => []
          end
       ++ [Start client]
  /\ calls (fst (dispose client w'))
     = calls w' ++ [DisposeHandle client (handles w)]
  /\ isRunning (fst (dispose client w')) client = false.
Proof.
  intros Hobj. cbv zeta.
  assert (forall w0 : World,
             nth_error (heap w0) client
             = Some (mkClient (clientRoot o) (Some (handles w)) true) ->
             calls (fst (dispose client w0))
             = calls w0 ++ [DisposeHandle client (handles w)]
             /\ isRunning (fst (dispose client w0)) client = false)
    as Hdispose.
  { intros w0 H0. unfold dispose, bind, get. rewrite H0. cbn.
    split; [reflexivity|].
    unfold isRunning. cbn. rewrite nth_error_updateAt, Nat.eqb_refl, H0.
    reflexivity. }
  assert (forall f g h,
             nth_error (updateAt client f (updateAt client g
                                             (updateAt client h (heap w))))
                       client
             = Some (f (g (h o)))) as Hthree
      by (intros; rewrite !nth_error_updateAt, Nat.eqb_refl, Hobj;
          reflexivity).
  assert (forall f g,
             nth_error (updateAt client f (updateAt client g (heap w)))
                       client
             = Some (f (g o))) as Htwo
      by (intros; rewrite !nth_error_updateAt, Nat.eqb_refl, Hobj;
          reflexivity).
  destruct (activate client w) as [w' c] eqn:Hact.
  unfold activate, dispose, disposeHandle, start, setStartDisposable, call,
    setRunning, bind, modify, get, ret in Hact.
  rewrite Hobj in Hact.
  destruct (startDisposable o) as [handle|] eqn:Hhandle;
    cbn in Hact; injection Hact as <- <-; cbn [fst snd heap clients handles
                                                calls].
  - split; [reflexivity|]. split; [apply Hthree|]. split.
    { intros other Hne. rewrite !nth_error_updateAt.
      destruct (Nat.eqb_spec other client); [contradiction | reflexivity]. }
    split; [reflexivity|]. split; [reflexivity|]. split.
    { rewrite <- app_assoc. reflexivity. }
    apply (Hdispose (mkWorld _ _ _ _ _)). apply Hthree.
  - split; [reflexivity|]. split; [apply Htwo|]. split.
    { intros other Hne. rewrite !nth_error_updateAt.
      destruct (Nat.eqb_spec other client); [contradiction | reflexivity]. }
    split; [reflexivity|]. split; [reflexivity|]. split; [reflexivity|].
    apply (Hdispose (mkWorld _ _ _ _ _)). apply Htwo.
Qed.

Lemma client_activate_witness :
  let w := fst (createClient Sample.wsUri initialWorld) in
  let w1 := fst (activate 0 w) in
  let w2 := fst (activate 0 w1) in
  isRunning w2 0 = true
  /\ calls w2
     = [LogPreparing Sample.wsUri; Start 0; DisposeHandle 0 0; Start 0].
Proof.
  pose proof (client_activate_relaunches
                0 (fst (activate 0 (fst (createClient Sample.wsUri
                                                      initialWorld))))
                (mkClient Sample.wsUri (Some 0) true) eq_refl) as H.
  cbv zeta in H. destruct H as (_ & _ & _ & _ & _ & Hcalls & _).
  split; [reflexivity | exact Hcalls].
Defined.

End ClientActivate.

Section Activation.

Lemma didOpen_allOwned (host : Host) (document : TextDocument) (w : World) :
  allOwned host w ->
  allOwned host (fst (didOpenTextDocument host document w)).
Proof.
  intros Hall.
  destruct (didOpen_owned_shape host document w)
    as [[Hc _]|(f & _ & Hown & Hnone & Hc & _)]; unfold allOwned;
    rewrite Hc; [exact Hall|].
  rewrite (mapSet_absent _ f _ Hnone).
  intros folder client Hin. apply in_app_iff in Hin as [Hin|[[= <- <-]|[]]];
    [eapply Hall; exact Hin | exact Hown].
Qed.

Lemma didOpen_keeps_registered (host : Host) (document : TextDocument)
      (w : World) (folder : WorkspaceFolder) (client : nat) :
  mapGet (clients w) folder = Some client ->
  mapGet (clients (fst (didOpenTextDocument host document w))) folder
  = Some client.
Proof.
  intros Hget.
  destruct (didOpen_owned_shape host document w)
    as [[-> _]|(f & _ & _ & Hnone & -> & _)]; [exact Hget|].
  rewrite (mapSet_absent _ f _ Hnone).
  clear - Hget. induction (clients w) as [|[k v] m IH]; simpl in *;
    [discriminate|].
  destruct (sameFolder folder k); [exact Hget | apply IH; exact Hget].
Qed.

Lemma forEach_didOpen_keeps_registered (host : Host)
      (documents : list TextDocument) (w : World)
      (folder : WorkspaceFolder) (client : nat) :
  mapGet (clients w) folder = Some client ->
  mapGet (clients (fst (forEach (didOpenTextDocument host) documents w)))
         folder
  = Some client.
Proof.
  revert w. induction documents as [|d rest IH]; intros w Hget;
    [exact Hget|].
  cbn [forEach]. rewrite bind_apply.
  pose proof (didOpen_keeps_registered host d w folder client Hget) as Hstep.
  destruct (didOpenTextDocument host d w) as [w1 [[]|]]; cbn [fst] in *.
  - apply IH. exact Hstep.
  - exact Hstep.
Qed.

(** A document that passes the tests and whose outermost folder has an
    owning setting leaves that folder registered. *)
Lemma didOpen_routes (host : Host) (document : TextDocument) (w : World)
      (folder outer : WorkspaceFolder) :
  cacheCoherent host w ->
  routable document = true ->
  getWorkspaceFolder host (documentUri document) = Some folder ->
  resolveIn host (computeSorted host) folder = Some outer ->
  notOwned (cppLanguageClient host (folderUri outer)) = false ->
  snd (didOpenTextDocument host document w) = Normal tt
  /\ exists client,
      mapGet (clients (fst (didOpenTextDocument host document w))) outer
      = Some client.
Proof.
  intros Hcache Hroute Hfolder Houter Hown.
  rewrite didOpenTextDocument_unfold, Hroute, Hfolder.
  destruct (getOuterMost_result host folder w)
    as (sorted & Hsorted & _ & Hres).
  assert (sorted = computeSorted host) as ->.
  { destruct Hsorted as [Hsome|[_ ->]]; [|reflexivity].
    destruct Hcache as [Hc|Hc]; congruence. }
  destruct (getOuterMostWorkspaceFolder host folder w) as [w1 c].
  cbn [fst snd] in *. subst c. rewrite Houter.
  destruct (openInFolder_spec host document outer w1)
    as (_ & Hret & [(Hc & _ & [Hno|Hhas])|(_ & _ & Hc & _)]).
  - congruence.
  - split; [exact Hret|]. rewrite Hc. unfold mapHas in Hhas.
    destruct (mapGet (clients w1) outer) as [client|]; [|discriminate].
    exists client. reflexivity.
  - split; [exact Hret|]. rewrite Hc, mapGet_mapSet_same.
    eexists. reflexivity.
Qed.

Lemma forEach_didOpen_routes (host : Host) (documents : list TextDocument)
      (w : World) (document : TextDocument) (folder outer : WorkspaceFolder) :
  cacheCoherent host w ->
  snd (forEach (didOpenTextDocument host) documents w) = Normal tt ->
  In document documents ->
  routable document = true ->
  getWorkspaceFolder host (documentUri document) = Some folder ->
  resolveIn host (computeSorted host) folder = Some outer ->
  notOwned (cppLanguageClient host (folderUri outer)) = false ->
  exists client,
    mapGet (clients (fst (forEach (didOpenTextDocument host) documents w)))
           outer
    = Some client.
Proof.
  intros Hcache Hdone Hin Hroute Hfolder Houter Hown. revert w Hcache Hdone.
  induction documents as [|d rest IH]; intros w Hcache; [destruct Hin|].
  cbn [forEach]. rewrite bind_apply.
  pose proof (didOpen_cache host d w Hcache) as Hcache1.
  destruct Hin as [->|Hin].
  - destruct (didOpen_routes host document w folder outer
                             Hcache Hroute Hfolder Houter Hown)
      as (Hret & client & Hget).
    destruct (didOpenTextDocument host document w) as [w1 c].
    cbn [fst snd] in *. subst c. intros _. exists client.
    apply forEach_didOpen_keeps_registered. exact Hget.
  - destruct (didOpenTextDocument host d w) as [w1 [[]|]];
      cbn [fst snd] in *; [|discriminate].
    apply (IH Hin). exact Hcache1.
Qed.

(** X20.  Activation with a falsy server path does nothing.  Otherwise
    it routes every open document: when it completes, every open
    document of scheme [file] or [untitled] in one of the five
    languages, whose outermost folder has a setting of ["any"] or
    ["compile"], finds that folder registered with a started client; in
    the sample workspace the folder [file:///ws/] gets client 0.  From
    the state at load the result is consistent, registers only folders
    whose setting is ["any"] or ["compile"], records no start handle and
    leaves the folder cache coherent. *)
Theorem activation_routes_open_documents
        (host : Host) (clangdPath : option string) :
  let w := fst (activateExtension host clangdPath initialWorld) in
  Consistent w
  /\ allOwned host w
  /\ noStartHandles w
  /\ cacheCoherent host w
  /\ (forall w0, activateExtension host None w0 = (w0, Normal tt))
  /\ (forall w0, activateExtension host (Some EmptyString) w0
                 = (w0, Normal tt))
  /\ (forall path document folder outer,
         clangdPath = Some path ->
         path <> EmptyString ->
         snd (activateExtension host clangdPath initialWorld) = Normal tt ->
         In document (textDocuments host) ->
         routable document = true ->
         getWorkspaceFolder host (documentUri document) = Some folder ->
         resolveIn host (computeSorted host) folder = Some outer ->
         notOwned (cppLanguageClient host (folderUri outer)) = false ->
         exists client,
           mapGet (clients w) outer = Some client
           /\ isRunning w client = true)
  /\ (let sample :=
         activateExtension (Sample.host (Js.VString "any"))
                           (Some "/usr/bin/clangd") initialWorld in
       snd sample = Normal tt
       /\ clients (fst sample) = [(Sample.ws, 0)]
       /\ isRunning (fst sample) 0 = true
       /\ calls (fst sample)
          = [LogDidOpen "/ws/pkg/sub/x.cpp" Sample.wsUri (Js.VString "any");
             LogPreparing Sample.wsUri; LogStarting Sample.wsUri; Start 0]).
Proof.
  cbv zeta.
  set (inv := fun w0 => Consistent w0 /\ allOwned host w0
                        /\ noStartHandles w0 /\ cacheCoherent host w0).
  assert (inv initialWorld) as Hinit.
  { split; [exact initialWorld_consistent|].
    split; [intros folder client []|].
    split; [constructor | left; reflexivity]. }
  assert (inv (fst (activateExtension host clangdPath initialWorld)))
    as (H1 & H2 & H3 & H4).
  { unfold activateExtension. destruct clangdPath as [path|]; [|exact Hinit].
    destruct (String.eqb path EmptyString); [exact Hinit|].
    apply (forEach_preserves inv); [|exact Hinit].
    intros document w0 (Hc & Ho & Hh & Hk).
    split; [apply didOpenTextDocument_preserves; exact Hc|].
    split; [apply didOpen_allOwned; exact Ho|].
    split; [|apply didOpen_cache; exact Hk].
    eapply registersFresh_handles; [exact Hh|].
    apply didOpenTextDocument_shape. }
  split; [exact H1|]. split; [exact H2|]. split; [exact H3|].
  split; [exact H4|]. split; [reflexivity|]. split; [reflexivity|].
  split.
  - intros path document folder outer -> Hpath Hdone Hin Hroute Hfolder
           Houter Hown.
    assert (activateExtension host (Some path) initialWorld
            = forEach (didOpenTextDocument host) (textDocuments host)
                      initialWorld) as Hrun.
    { unfold activateExtension.
      destruct (String.eqb_spec path EmptyString); [contradiction|].
      reflexivity. }
    rewrite Hrun in *.
    destruct (forEach_didOpen_routes
                host (textDocuments host) initialWorld document folder outer
                (or_introl eq_refl) Hdone Hin Hroute Hfolder Houter Hown)
      as [client Hget].
    exists client. split; [exact Hget|].
    apply H1. apply mapGet_Some_In in Hget. exact Hget.
  - repeat split; vm_compute; reflexivity.
Qed.

End Activation.
